(** * dbc-diff: the diff engine of [dbcdiff.py], embedded and verified

    The development follows the source file top-down: Python values and
    exceptions, dictionaries with insertion order, the value normaliser
    [converter], the key reconciler [compare_dictionaries], the record
    builders [build_change] and [build_action], the property differ
    [compare_properties], and the three orchestration layers
    [compare_messages], [compare_dbc] and [get_report].

    Modelling conventions.
    - A Python [str] is a [string] of bytes (its UTF-8 encoding); the order
      of bytes strings is the order of code points, so [sorted] on names is
      the byte-lexicographic order.
    - A Python [dict] is an association list in insertion order; item
      assignment keeps the position of a key that is already present.
    - A Python [set] of names is a [gset string]; its iteration order is
      unspecified on both sides, and only its sorted contents are used.
    - Numbers are integers ([Z]), booleans and floats; a float is a
      binary floating point number of the Standard Library's specification
      ([spec_float], of which Python uses the binary64 ones), with the
      comparison of IEEE 754: a NaN differs from every float, itself
      included.
    - An exception is an [Err] result that aborts the enclosing
      computation; of the log output, only what [enum_files] hands to
      [logger.error] is modelled. *)

From Stdlib Require Import ZArith String Ascii List Bool Lia.
From Stdlib Require Import DecimalString HexadecimalString HexadecimalPos HexadecimalN.
From Stdlib Require SpecFloat.
From stdpp Require Import base decidable list sorting gmap strings.

Local Open Scope string_scope.
Local Open Scope Z_scope.
Local Open Scope list_scope.

#[local] Set Warnings "-clear-no-such-hyp".
Set Default Proof Using "Type".

(** ** Exceptions and the result monad *)

(** Dictionary keys of the values the program handles: integers (the codes
    of a choices table) and strings (names, and every key of the report). *)
Inductive key : Type :=
| KInt (z : Z)
| KStr (s : string).

Global Instance key_eq_dec : EqDecision key.
Proof. solve_decision. Defined.

Inductive exn : Type :=
| CriticalError                (* Exception('critical error') of ToolLogger.critical *)
| LoadError                    (* raised by cantools.db.load_file *)
| AttributeError (a : string)  (* getattr on a missing attribute, .items() on a non-dict *)
| KeyError (k : key)           (* d[k] on a missing key *)
| TypeError                    (* hex/join on a value of the wrong type *)
| ValueError.                  (* int() on a non-numeric string *)

Inductive result (A : Type) : Type :=
| Ok (a : A)
| Err (e : exn).
Arguments Ok {A} a.
Arguments Err {A} e.

Global Instance result_ret : MRet result := fun A a => Ok a.
Global Instance result_bind : MBind result := fun A B f m =>
  match m with
  | Ok a => f a
  | Err e => Err e
  end.

Definition is_ok {A} (m : result A) : bool :=
  match m with Ok _ => true | Err _ => false end.

(** A [for] loop whose body may raise: the state is threaded left to right
    and the first exception stops the loop. *)
Fixpoint for_each {A S} (l : list A) (body : S -> A -> result S) (s : S) : result S :=
  match l with
  | [] => Ok s
  | x :: l' => s' ← body s x; for_each l' body s'
  end.

(** ** Dictionaries in insertion order *)

Definition dict (K V : Type) : Type := list (K * V).

Section Dict.
Context {K V : Type} `{EqDecision K}.

Fixpoint dict_get (d : dict K V) (k : K) : option V :=
  match d with
  | [] => None
  | (k', v) :: d' => if decide (k' = k) then Some v else dict_get d' k
  end.

(** [d[k] = v]: overwrite in place, or append a new key. *)
Fixpoint dict_set (d : dict K V) (k : K) (v : V) : dict K V :=
  match d with
  | [] => [(k, v)]
  | (k', v') :: d' =>
      if decide (k' = k) then (k', v) :: d' else (k', v') :: dict_set d' k v
  end.

Definition dict_keys (d : dict K V) : list K := map fst d.
Definition dict_values (d : dict K V) : list V := map snd d.

(** [d1 | d2]: the keys of [d1], then the new keys of [d2]; [d2] wins. *)
Definition dict_union (d1 d2 : dict K V) : dict K V :=
  fold_left (fun d kv => dict_set d (fst kv) (snd kv)) d2 d1.
End Dict.

(** [d[k]] as an expression: a missing key raises KeyError. *)
Definition dict_index {V} (d : dict string V) (k : string) : result V :=
  match dict_get d k with
  | Some v => Ok v
  | None => Err (KeyError (KStr k))
  end.

Definition pydict_index {V} (d : dict key V) (k : key) : result V :=
  match dict_get d k with
  | Some v => Ok v
  | None => Err (KeyError k)
  end.

(** A dict display [{k1: v1, k2: v2, ...}]: the items are stored left to
    right, a repeated key keeps its first position and its last value. *)
Definition dict_lit {K V} `{EqDecision K} (items : list (K * V)) : dict K V :=
  dict_union [] items.

(** ** The order of strings and [sorted] *)

Definition str_le (a b : string) : Prop := String.leb a b = true.

Global Instance str_le_dec a b : Decision (str_le a b).
Proof. unfold str_le. apply _. Defined.

Definition sorted (l : list string) : list string := merge_sort str_le l.

(** ** The Set Reconciler (dbcdiff.py, compare_dictionaries) *)

Definition compare_dictionaries {A B} (old : dict string A) (new : dict string B)
  : list string * list string * list string :=
  let old_set : gset string := list_to_set (dict_keys old) in
  let new_set : gset string := list_to_set (dict_keys new) in
  let same := old_set ∩ new_set in
  let deleted := old_set ∖ new_set in
  let added := new_set ∖ old_set in
  (sorted (elements added), sorted (elements same), sorted (elements deleted)).


(** ** Python values *)

#[warnings="-register-all"] Inductive pyval : Type :=
| VNone
| VBool (b : bool)
| VInt (z : Z)
| VFloat (f : SpecFloat.spec_float)
| VStr (s : string)
| VList (l : list pyval)
| VDict (d : list (key * pyval)).

Definition is_none (v : pyval) : bool :=
  match v with VNone => true | _ => false end.

(** [f == n] for a float and an integer: Python compares the two numbers
    exactly.  The float [(-1)^s * m * 2^e] is the integer [n] when
    [n = (-1)^s * m * 2^e] for [0 <= e], and when [n * 2^(-e) = (-1)^s * m]
    for [e < 0]. *)
Definition float_eq_int (f : SpecFloat.spec_float) (n : Z) : bool :=
  match f with
  | SpecFloat.S754_zero _ => Z.eqb n 0
  | SpecFloat.S754_finite s m e =>
      let v := if s then Z.neg m else Z.pos m in
      if Z.leb 0 e then Z.eqb n (v * 2 ^ e) else Z.eqb (n * 2 ^ (- e)) v
  | SpecFloat.S754_infinity _ | SpecFloat.S754_nan => false
  end.

(** [a == b].  Booleans are integers; two floats are compared as IEEE 754
    has it, so that a NaN is equal to nothing; a list is compared element
    by element; two dicts are equal when they have the same number of
    items and every item of the first is found, with an equal value, in
    the second (the order of insertion plays no part).  The two operands
    are distinct objects, as the two sides of a comparison are, each read
    from its own load: the elements of two containers are then compared
    with [==] as well. *)
Fixpoint py_eqb (a b : pyval) : bool :=
  match a, b with
  | VNone, VNone => true
  | VBool x, VBool y => Bool.eqb x y
  | VBool x, VInt y => Z.eqb (Z.b2z x) y
  | VInt x, VBool y => Z.eqb x (Z.b2z y)
  | VInt x, VInt y => Z.eqb x y
  | VFloat x, VFloat y => SpecFloat.SFeqb x y
  | VFloat x, VInt y => float_eq_int x y
  | VInt x, VFloat y => float_eq_int y x
  | VFloat x, VBool y => float_eq_int x (Z.b2z y)
  | VBool x, VFloat y => float_eq_int y (Z.b2z x)
  | VStr x, VStr y => String.eqb x y
  | VList l1, VList l2 =>
      (fix list_eqb (l1 l2 : list pyval) : bool :=
         match l1, l2 with
         | [], [] => true
         | x :: l1', y :: l2' => py_eqb x y && list_eqb l1' l2'
         | _, _ => false
         end) l1 l2
  | VDict d1, VDict d2 =>
      Nat.eqb (length d1) (length d2) &&
      (fix items_eqb (d : list (key * pyval)) : bool :=
         match d with
         | [] => true
         | (k, v) :: d' =>
             match dict_get d2 k with
             | Some v' => py_eqb v v'
             | None => false
             end && items_eqb d'
         end) d1
  | _, _ => false
  end.

(** Truth value of an object, as [not x] and [if x] see it. *)
Definition py_truthy (v : pyval) : bool :=
  match v with
  | VNone => false
  | VBool b => b
  | VInt z => negb (Z.eqb z 0)
  | VFloat f => negb (SpecFloat.SFeqb f (SpecFloat.S754_zero false))
  | VStr s => negb (String.eqb s "")
  | VList l => match l with [] => false | _ => true end
  | VDict d => match d with [] => false | _ => true end
  end.

(** [hex(n)] on an integer: sign, ["0x"], lowercase digits. *)
Definition hex (n : Z) : string :=
  ((if Z.ltb n 0 then "-" else "") ++ "0x"
   ++ HexadecimalString.NilZero.string_of_uint (N.to_hex_uint (Z.abs_N n)))%string.

Definition py_hex (v : pyval) : result string :=
  match v with
  | VInt n => Ok (hex n)
  | VBool b => Ok (hex (Z.b2z b))
  | _ => Err TypeError
  end.

(** [str(n)] on an integer. *)
Definition str_of_int (n : Z) : string :=
  DecimalString.NilZero.string_of_int (Z.to_int n).

(** [int(s)] on a string: blanks (tab to carriage return, and space) are
    stripped on both sides, then an optional sign and decimal digits, single
    underscores allowed between digits.  The input is ASCII: the blanks and
    digits of other scripts, which Python also accepts, are outside the
    model. *)
Definition is_space (c : ascii) : bool :=
  let n := N_of_ascii c in
  (N.leb 9 n && N.leb n 13) || N.eqb n 32.

Fixpoint lstrip (s : string) : string :=
  match s with
  | String c s' => if is_space c then lstrip s' else s
  | EmptyString => EmptyString
  end.

Fixpoint rstrip (s : string) : string :=
  match s with
  | EmptyString => EmptyString
  | String c s' =>
      match rstrip s' with
      | EmptyString => if is_space c then EmptyString else String c EmptyString
      | r => String c r
      end
  end.

Definition digit_of (c : ascii) : option Z :=
  let n := N_of_ascii c in
  if N.leb 48 n && N.leb n 57 then Some (Z.of_N n - 48) else None.

Fixpoint parse_digits (s : string) (acc : Z) (after_digit : bool) : option Z :=
  match s with
  | EmptyString => if after_digit then Some acc else None
  | String c s' =>
      match digit_of c with
      | Some d => parse_digits s' (10 * acc + d) true
      | None =>
          if Ascii.eqb c "_" && after_digit then parse_digits s' acc false else None
      end
  end.

Definition int_of_string (s : string) : result Z :=
  let parse body := parse_digits body 0 false in
  let r :=
    match rstrip (lstrip s) with
    | String "-" body => Z.opp <$> parse body
    | String "+" body => parse body
    | body => parse body
    end in
  match r with
  | Some n => Ok n
  | None => Err ValueError
  end.

Definition py_int (k : key) : result Z :=
  match k with
  | KInt z => Ok z
  | KStr s => int_of_string s
  end.

(** [sep.join(value)]: the elements of a list, the characters of a
    string or the keys of a dict; every element must be a string. *)
Fixpoint strs_of_list (l : list pyval) : result (list string) :=
  match l with
  | [] => Ok []
  | VStr s :: l' => r ← strs_of_list l'; Ok (s :: r)
  | _ :: _ => Err TypeError
  end.

Fixpoint chars (s : string) : list string :=
  match s with
  | EmptyString => []
  | String c s' => String c EmptyString :: chars s'
  end.

Definition py_join (sep : string) (value : pyval) : result string :=
  match value with
  | VList l => r ← strs_of_list l; Ok (String.concat sep r)
  | VStr s => Ok (String.concat sep (chars s))
  | VDict d =>
      r ← strs_of_list (map (fun kv => match fst kv with KStr s => VStr s | KInt z => VInt z end) d);
      Ok (String.concat sep r)
  | _ => Err TypeError
  end.

(** [value.items()] *)
Definition py_items (value : pyval) : result (list (key * pyval)) :=
  match value with
  | VDict d => Ok d
  | _ => Err (AttributeError "items")
  end.

(** The order of [(int, str)] tuples, and [sorted] on a list of them. *)
Definition item_le (a b : Z * string) : Prop :=
  a.1 < b.1 \/ (a.1 = b.1 /\ str_le a.2 b.2).

Global Instance item_le_dec a b : Decision (item_le a b).
Proof. unfold item_le. apply _. Defined.

Definition sorted_items (l : list (Z * string)) : list (Z * string) :=
  merge_sort item_le l.

Definition pydict_of_items (l : list (Z * string)) : list (key * pyval) :=
  map (fun kv => (KInt kv.1, VStr kv.2)) l.

(** ** The entities handed over by the loader

    cantools yields objects whose attributes are read by name
    ([getattr]).  A signal and a message are modelled by their name and
    their attribute table; a message additionally lists its signals, and
    [dbc_loader] attaches to it the dict [msg_signals]. *)

Class PyObject (T : Type) := attributes : T -> dict string pyval.

Definition getattr {T} `{PyObject T} (o : T) (name : string) : result pyval :=
  match dict_get (attributes o) name with
  | Some v => Ok v
  | None => Err (AttributeError name)
  end.

Record Signal : Type := {
  signal_name : string;
  signal_attrs : dict string pyval
}.

Record CanMessage : Type := {
  message_name : string;
  message_attrs : dict string pyval;
  signals : list Signal
}.

Record Message : Type := {
  message : CanMessage;
  msg_signals : dict string Signal
}.

Record Database : Type := {
  messages : list CanMessage;
  version : option string
}.

Global Instance Signal_object : PyObject Signal := signal_attrs.
Global Instance Message_object : PyObject Message := fun m => message_attrs (message m).

(** ** The schema tables (dbcdiff.py, lines 71-97) *)

Definition message_properties : dict string string :=
  dict_lit [
    ("frame_id", "hex");
    ("is_extended_frame", "basic");
    ("is_fd", "basic");
    ("length", "basic");
    ("send_type", "basic");
    ("cycle_time", "basic");
    ("senders", "list");
    ("receivers", "list")
  ].

Definition signal_properties : dict string string :=
  dict_lit [
    ("minimum", "basic");
    ("maximum", "basic");
    ("start", "basic");
    ("length", "basic");
    ("byte_order", "basic");
    ("is_signed", "basic");
    ("initial", "str");
    ("invalid", "basic");
    ("unit", "basic");
    ("scale", "basic");
    ("offset", "basic");
    ("is_float", "basic");
    ("choices", "dict");
    ("spn", "basic")
  ].

Section Engine.

(** [str()] of a list or of a dict prints the [repr] of its elements,
    which depends on Unicode tables, and [str()] of a float its shortest
    decimal that reads back as the same float; both are kept abstract. *)
Variable py_repr : pyval -> string.

(** [cantools.db.load_file(path, strict=False)]: the external loader.  The
    files do not change during a run, so it is a function of the path;
    [None] stands for any exception the loader raises. *)
Variable load_file : string -> option Database.

Definition py_str (v : pyval) : string :=
  match v with
  | VNone => "None"
  | VBool true => "True"
  | VBool false => "False"
  | VInt z => str_of_int z
  | VStr s => s
  | VFloat _ | VList _ | VDict _ => py_repr v
  end.

(** *** dbc_loader *)

Definition dbc_loader (dbc_file : option string)
  : result (dict string Message * pyval) :=
  match dbc_file with
  | None => Ok ([], VNone)
  | Some path =>
      dbc ← (match load_file path with
             | Some dbc => Ok dbc
             | None => Err LoadError
             end);
      let messages :=
        fold_left (fun messages dbc_message =>
          let signals :=
            fold_left (fun signals signal =>
                         dict_set signals (signal_name signal) signal)
                      (signals dbc_message) [] in
          dict_set messages (message_name dbc_message)
                   {| message := dbc_message; msg_signals := signals |})
        (messages dbc) [] in
      let version :=
        match version dbc with
        | None => "unknown"
        | Some v => if Nat.eqb (String.length v) 0 then "unknown" else v
        end in
      Ok (messages, VStr version)
  end.

(** *** converter *)

Definition converter (value : pyval) (from_type : string) : result pyval :=
  if is_none value then Ok VNone
  else if String.eqb from_type "hex" then
    s ← py_hex value; Ok (VStr s)
  else if String.eqb from_type "str" then
    Ok (VStr (py_str value))
  else if String.eqb from_type "dict" then
    items ← py_items value;
    result ← for_each items (fun (result : dict Z string) item =>
                 number ← py_int item.1;
                 Ok (dict_set result number (py_str item.2))) [];
    Ok (VDict (pydict_of_items (sorted_items result)))
  else if String.eqb from_type "list" then
    s ← py_join "," value; Ok (VStr s)
  else Ok value.

(** *** build_change *)

Definition build_change (action : string) (change : pyval) (signals : pyval)
  : dict key pyval :=
  if negb (is_none signals) then
    dict_lit [(KStr "action", VStr action); (KStr action, change);
              (KStr "signals", signals)]
  else
    dict_lit [(KStr "action", VStr action); (KStr action, change)].

(** A property-delta [{'name': n, 'old': o, 'new': v}]. *)
Definition delta (name : string) (old new : pyval) : pyval :=
  VDict (dict_lit [(KStr "name", VStr name); (KStr "old", old); (KStr "new", new)]).

(** *** build_action *)

Definition build_action {T} `{PyObject T} (action : string) (item : T)
    (properties : dict string string) (signals : pyval)
  : result (dict key pyval) :=
  properties_list ←
    for_each properties (fun (properties_list : list pyval) p =>
      let '(item_property, from_type) := p in
      raw ← getattr item item_property;
      value ← converter raw from_type;
      if String.eqb action "deleted" then
        if negb (is_none value)
        then Ok (properties_list ++ [delta item_property value VNone])
        else Ok properties_list
      else if String.eqb action "added" then
        if negb (is_none value)
        then Ok (properties_list ++ [delta item_property VNone value])
        else Ok properties_list
      else Err CriticalError) [];
  Ok (build_change action (VList properties_list) signals).

(** *** compare_properties *)

Definition compare_properties {T} `{PyObject T} (old_object new_object : T)
    (properties : dict string string) : result (list pyval) :=
  for_each properties (fun (changes_list : list pyval) p =>
    let '(name, from_type) := p in
    old_raw ← getattr old_object name;
    old_property ← converter old_raw from_type;
    new_raw ← getattr new_object name;
    new_property ← converter new_raw from_type;
    if negb (py_eqb old_property new_property)
    then Ok (changes_list ++ [delta name old_property new_property])
    else Ok changes_list) [].

(** *** compare_messages *)

Definition compare_messages (old_message new_message : Message)
  : result (list pyval * dict key pyval) :=
  message_changes_list ← compare_properties old_message new_message message_properties;
  let '(added, same, deleted) :=
    compare_dictionaries (msg_signals old_message) (msg_signals new_message) in
  signals_changes ←
    for_each same (fun signals_changes name =>
      old_signal ← dict_index (msg_signals old_message) name;
      new_signal ← dict_index (msg_signals new_message) name;
      changed_list ← compare_properties old_signal new_signal signal_properties;
      if Nat.ltb 0 (length changed_list)
      then Ok (dict_set signals_changes (KStr name)
                 (VDict (build_change "changed" (VList changed_list) VNone)))
      else Ok signals_changes) [];
  signals_changes ←
    for_each deleted (fun signals_changes name =>
      old_signal ← dict_index (msg_signals old_message) name;
      record ← build_action "deleted" old_signal signal_properties VNone;
      Ok (dict_set signals_changes (KStr name) (VDict record))) signals_changes;
  signals_changes ←
    for_each added (fun signals_changes name =>
      new_signal ← dict_index (msg_signals new_message) name;
      record ← build_action "added" new_signal signal_properties VNone;
      Ok (dict_set signals_changes (KStr name) (VDict record))) signals_changes;
  Ok (message_changes_list, signals_changes).

(** *** message_signals *)

Definition message_signals (action : string) (signals : dict string Signal)
  : result (dict key pyval) :=
  for_each signals (fun signals_changes item =>
    let '(name, signal) := item in
    record ← build_action action signal signal_properties VNone;
    Ok (dict_set signals_changes (KStr name) (VDict record))) [].

(** *** compare_dbc *)

Definition compare_dbc (old_dbc_file_path new_dbc_file_path : option string)
  : result (dict key pyval * dict key pyval) :=
  '(old_dbc, old_version) ← dbc_loader old_dbc_file_path;
  '(new_dbc, new_version) ← dbc_loader new_dbc_file_path;
  let '(added, same, deleted) := compare_dictionaries old_dbc new_dbc in
  dbc_report ←
    for_each same (fun dbc_report name =>
      old_message ← dict_index old_dbc name;
      new_message ← dict_index new_dbc name;
      '(message_changed_list, signals_changed_list) ←
        compare_messages old_message new_message;
      if Nat.ltb 0 (length message_changed_list)
         || Nat.ltb 0 (length signals_changed_list)
      then Ok (dict_set dbc_report (KStr name)
                 (VDict (build_change "changed" (VList message_changed_list)
                                      (VDict signals_changed_list))))
      else Ok dbc_report) [];
  dbc_report ←
    for_each deleted (fun dbc_report name =>
      old_message ← dict_index old_dbc name;
      nested ← message_signals "deleted" (msg_signals old_message);
      record ← build_action "deleted" old_message message_properties (VDict nested);
      Ok (dict_set dbc_report (KStr name) (VDict record))) dbc_report;
  dbc_report ←
    for_each added (fun dbc_report name =>
      new_message ← dict_index new_dbc name;
      nested ← message_signals "added" (msg_signals new_message);
      record ← build_action "added" new_message message_properties (VDict nested);
      Ok (dict_set dbc_report (KStr name) (VDict record))) dbc_report;
  let versions : dict key pyval := [] in
  let versions :=
    if new_dbc_file_path is Some _
    then dict_set versions (KStr "new_version") new_version else versions in
  let versions :=
    if old_dbc_file_path is Some _
    then dict_set versions (KStr "old_version") old_version else versions in
  let versions :=
    dict_set versions (KStr "same_version") (VBool (py_eqb old_version new_version)) in
  Ok (dbc_report, versions).

(** *** get_report *)

Definition get_report (old_files new_files : dict string string) (unchanged : bool)
  : result (dict key pyval) :=
  let '(added, same, deleted) := compare_dictionaries old_files new_files in
  compare_report ←
    for_each added (fun compare_report file_added =>
      new_path ← dict_index new_files file_added;
      '(dbc_report, versions) ← compare_dbc None (Some new_path);
      Ok (dict_set compare_report (KStr file_added)
            (VDict (dict_union (build_change "added" (VDict dbc_report) VNone)
                               versions)))) [];
  compare_report ←
    for_each deleted (fun compare_report file_deleted =>
      old_path ← dict_index old_files file_deleted;
      '(dbc_report, versions) ← compare_dbc (Some old_path) None;
      Ok (dict_set compare_report (KStr file_deleted)
            (VDict (dict_union (build_change "deleted" (VDict dbc_report) VNone)
                               versions)))) compare_report;
  for_each same (fun compare_report file_same =>
    old_path ← dict_index old_files file_same;
    new_path ← dict_index new_files file_same;
    '(dbc_report, versions) ← compare_dbc (Some old_path) (Some new_path);
    same_version ← pydict_index versions (KStr "same_version");
    if Nat.ltb 0 (length dbc_report) || negb (py_truthy same_version) then
      Ok (dict_set compare_report (KStr file_same)
            (VDict (dict_union (build_change "changed" (VDict dbc_report) VNone)
                               versions)))
    else if unchanged then
      Ok (dict_set compare_report (KStr file_same)
            (VDict (dict_union (build_change "unchanged" (VDict dbc_report) VNone)
                               versions)))
    else Ok compare_report) compare_report.


(** ** Auxiliary definitions used by the statements *)

(** The shape shared by the loops that fill a report dict: each element
    [x] of the list either stores a value under its key or leaves the dict
    alone, and may raise. *)
Definition dict_loop {A V} (kf : A -> key) (step : A -> result (option V))
    (l : list A) (d0 : dict key V) : result (dict key V) :=
  for_each l (fun d x =>
    o ← step x;
    Ok (match o with Some v => dict_set d (kf x) v | None => d end)) d0.

(** Well-formed values: the keys of every dict are pairwise distinct, as
    they are in any Python dict. *)
Fixpoint wf_val (v : pyval) : bool :=
  match v with
  | VList l => forallb wf_val l
  | VDict d => bool_decide (NoDup (dict_keys d)) && forallb (fun kv => wf_val kv.2) d
  | _ => true
  end.

(** An object can be normalised along a schema when each attribute of the
    schema is present and its value is accepted by [converter]. *)
Definition convertible {T} `{PyObject T} (properties : dict string string) (o : T) : bool :=
  forallb (fun p => is_ok (raw ← getattr o p.1; converter raw p.2)) properties.

(** The attributes read along a schema hold well-formed values. *)
Definition wf_object {T} `{PyObject T} (properties : dict string string) (o : T) : bool :=
  forallb (fun p => match getattr o p.1 with Ok raw => wf_val raw | Err _ => true end)
          properties.

(** A catalog whose messages and signals can all be normalised. *)
Definition catalog_ok (c : dict string Message) : bool :=
  forallb (fun m =>
    convertible message_properties m
    && forallb (convertible signal_properties) (dict_values (msg_signals m)))
    (dict_values c).

Definition catalog_wf (c : dict string Message) : bool :=
  forallb (fun m =>
    wf_object message_properties m
    && forallb (wf_object signal_properties) (dict_values (msg_signals m)))
    (dict_values c).

(** A value that is no NaN and holds none. *)
Fixpoint nan_free (v : pyval) : bool :=
  match v with
  | VFloat SpecFloat.S754_nan => false
  | VList l => forallb nan_free l
  | VDict d => forallb (fun kv => nan_free kv.2) d
  | _ => true
  end.

(** The kinds of attribute that [converter] hands back as they are. *)
Definition kept_as_is (from_type : string) : bool :=
  negb (String.eqb from_type "hex" || String.eqb from_type "str"
        || String.eqb from_type "dict" || String.eqb from_type "list").

(** The attributes of a schema that are compared as they are hold no NaN. *)
Definition nan_free_object {T} `{PyObject T} (properties : dict string string) (o : T)
    : bool :=
  forallb (fun p => match getattr o p.1 with
                    | Ok raw => negb (kept_as_is p.2) || nan_free raw
                    | Err _ => true
                    end) properties.

Definition catalog_nan_free (c : dict string Message) : bool :=
  forallb (fun m =>
    nan_free_object message_properties m
    && forallb (nan_free_object signal_properties) (dict_values (msg_signals m)))
    (dict_values c).

(** The integer-key-to-label content of a choices table, item by item. *)
Fixpoint choice_items (d : list (key * pyval)) : result (list (Z * string)) :=
  match d with
  | [] => Ok []
  | item :: d' =>
      number ← py_int item.1;
      rest ← choice_items d';
      Ok ((number, py_str item.2) :: rest)
  end.

(** The shape shared by the loops that collect property-deltas: each
    element contributes at most one entry, appended to the list. *)
Definition list_loop {A B} (step : A -> result (option B)) (l : list A) (acc : list B)
  : result (list B) :=
  for_each l (fun acc x => o ← step x; Ok (acc ++ option_list o)) acc.

(** One turn of the loop of [compare_properties]. *)
Definition property_delta {T} `{PyObject T} (old_object new_object : T)
    (p : string * string) : result (option pyval) :=
  old_raw ← getattr old_object p.1;
  old_property ← converter old_raw p.2;
  new_raw ← getattr new_object p.1;
  new_property ← converter new_raw p.2;
  Ok (if negb (py_eqb old_property new_property)
      then Some (delta p.1 old_property new_property) else None).

(** One turn of the loop of [build_action]. *)
Definition inventory_delta {T} `{PyObject T} (action : string) (item : T)
    (p : string * string) : result (option pyval) :=
  raw ← getattr item p.1;
  value ← converter raw p.2;
  if String.eqb action "deleted" then
    Ok (if negb (is_none value) then Some (delta p.1 value VNone) else None)
  else if String.eqb action "added" then
    Ok (if negb (is_none value) then Some (delta p.1 VNone value) else None)
  else Err CriticalError.

(** The loop of [converter] over the items of a choices table. *)
Definition choices_loop (items : list (key * pyval)) : result (dict Z string) :=
  for_each items (fun (result : dict Z string) item =>
    number ← py_int item.1;
    Ok (dict_set result number (py_str item.2))) [].

(** The property-deltas of a list that bear a given attribute name. *)
Definition delta_name (d : pyval) : option string :=
  match d with
  | VDict r => match dict_get r (KStr "name") with Some (VStr n) => Some n | _ => None end
  | _ => None
  end.

Definition deltas_named (name : string) (deltas : list pyval) : list pyval :=
  List.filter (fun d => match delta_name d with
                        | Some n => String.eqb n name
                        | None => false
                        end) deltas.

(** One turn of each loop of [compare_messages], [message_signals],
    [compare_dbc] and [get_report]: what the turn stores under the name
    it handles, if anything. *)
Definition same_signal_step (old_message new_message : Message) (name : string)
  : result (option pyval) :=
  old_signal ← dict_index (msg_signals old_message) name;
  new_signal ← dict_index (msg_signals new_message) name;
  changed_list ← compare_properties old_signal new_signal signal_properties;
  Ok (if Nat.ltb 0 (length changed_list)
      then Some (VDict (build_change "changed" (VList changed_list) VNone))
      else None).

Definition signal_action_step (action : string) (signals : dict string Signal)
    (name : string) : result (option pyval) :=
  signal ← dict_index signals name;
  record ← build_action action signal signal_properties VNone;
  Ok (Some (VDict record)).

Definition signal_item_step (action : string) (item : string * Signal)
  : result (option pyval) :=
  record ← build_action action item.2 signal_properties VNone;
  Ok (Some (VDict record)).

Definition same_message_step (old_dbc new_dbc : dict string Message) (name : string)
  : result (option pyval) :=
  old_message ← dict_index old_dbc name;
  new_message ← dict_index new_dbc name;
  changes ← compare_messages old_message new_message;
  Ok (if Nat.ltb 0 (length changes.1) || Nat.ltb 0 (length changes.2)
      then Some (VDict (build_change "changed" (VList changes.1) (VDict changes.2)))
      else None).

Definition message_action_step (action : string) (dbc : dict string Message)
    (name : string) : result (option pyval) :=
  a_message ← dict_index dbc name;
  nested ← message_signals action (msg_signals a_message);
  record ← build_action action a_message message_properties (VDict nested);
  Ok (Some (VDict record)).

Definition file_added_step (new_files : dict string string) (file_added : string)
  : result (option pyval) :=
  new_path ← dict_index new_files file_added;
  diff ← compare_dbc None (Some new_path);
  Ok (Some (VDict (dict_union (build_change "added" (VDict diff.1) VNone) diff.2))).

Definition file_deleted_step (old_files : dict string string) (file_deleted : string)
  : result (option pyval) :=
  old_path ← dict_index old_files file_deleted;
  diff ← compare_dbc (Some old_path) None;
  Ok (Some (VDict (dict_union (build_change "deleted" (VDict diff.1) VNone) diff.2))).

Definition file_same_step (old_files new_files : dict string string) (unchanged : bool)
    (file_same : string) : result (option pyval) :=
  old_path ← dict_index old_files file_same;
  new_path ← dict_index new_files file_same;
  diff ← compare_dbc (Some old_path) (Some new_path);
  same_version ← pydict_index diff.2 (KStr "same_version");
  Ok (if Nat.ltb 0 (length diff.1) || negb (py_truthy same_version) then
        Some (VDict (dict_union (build_change "changed" (VDict diff.1) VNone) diff.2))
      else if unchanged then
        Some (VDict (dict_union (build_change "unchanged" (VDict diff.1) VNone) diff.2))
      else None).

(** The catalog and the version that [dbc_loader] derives from a loaded
    database. *)
Definition loaded_version (v : option string) : string :=
  match v with
  | None => "unknown"
  | Some v => if Nat.eqb (String.length v) 0 then "unknown" else v
  end.

(** The version metadata of [compare_dbc]. *)
Definition versions_of (old_path new_path : option string) (old_version new_version : pyval)
  : dict key pyval :=
  let versions : dict key pyval := [] in
  let versions :=
    if new_path is Some _
    then dict_set versions (KStr "new_version") new_version else versions in
  let versions :=
    if old_path is Some _
    then dict_set versions (KStr "old_version") old_version else versions in
  dict_set versions (KStr "same_version") (VBool (py_eqb old_version new_version)).

(** The loaded database of one side of a comparison, if the side is
    supplied and loads. *)
Definition side (path : option string) : option Database := path ≫= load_file.

(** The version string of one side: null for an absent side, otherwise
    the version of the catalog with "unknown" for a null or empty one. *)
Definition side_version (s : option Database) : option string :=
  db ← s; Some (loaded_version (version db)).

(** The version of a side as the specification words it: an absent side
    counts as "unknown". *)
Definition spec_side_version (s : option Database) : string :=
  match s with
  | None => "unknown"
  | Some db => loaded_version (version db)
  end.

(** An entry of the report wraps a catalog diff under an action tag: the
    record carries the tag, the diff under the key named like the tag, and
    every item of the version metadata. *)
Definition wrapped (action : string) (dbc_report versions : dict key pyval)
    (entry : option pyval) : Prop :=
  exists record,
    entry = Some (VDict record)
    /\ dict_get record (KStr "action") = Some (VStr action)
    /\ dict_get record (KStr action) = Some (VDict dbc_report)
    /\ forall k v, dict_get versions k = Some v -> dict_get record k = Some v.

(** The shapes of the Change Records.  A signal record has exactly two
    items: the action tag and the list of property-deltas under the key
    named like the tag.  A message record has a third item, [signals],
    that maps signal names to signal records. *)
Definition signal_record (v : pyval) : Prop :=
  exists action deltas,
    action ∈ ["changed"; "added"; "deleted"]
    /\ v = VDict [(KStr "action", VStr action); (KStr action, VList deltas)].

Definition message_record (v : pyval) : Prop :=
  exists action deltas nested,
    action ∈ ["changed"; "added"; "deleted"]
    /\ v = VDict [(KStr "action", VStr action); (KStr action, VList deltas);
                  (KStr "signals", VDict nested)]
    /\ Forall signal_record (dict_values nested).

Definition file_record (v : pyval) : Prop :=
  exists action record messages,
    action ∈ ["added"; "deleted"; "changed"; "unchanged"]
    /\ v = VDict record
    /\ dict_get record (KStr "action") = Some (VStr action)
    /\ dict_get record (KStr action) = Some (VDict messages)
    /\ Forall message_record (dict_values messages).

(** The action tags the program writes, and those the specification
    lists. *)
Definition code_actions : list string := ["added"; "deleted"; "changed"; "unchanged"].
Definition spec_actions : list string := ["added"; "removed"; "changed"; "unchanged"].

(** A record carries a tag of the given set under [action], and a key
    named like that tag. *)
Definition tagged (tags : list string) (v : pyval) : bool :=
  match v with
  | VDict record =>
      match dict_get record (KStr "action") with
      | Some (VStr action) =>
          existsb (String.eqb action) tags
          && bool_decide (is_Some (dict_get record (KStr action)))
      | _ => false
      end
  | _ => false
  end.

(** The same at the three levels of a report: every signal record under
    every message record under every file record. *)
Definition tagged_message (tags : list string) (v : pyval) : bool :=
  tagged tags v
  && match v with
     | VDict record =>
         match dict_get record (KStr "signals") with
         | Some (VDict nested) => forallb (tagged tags) (dict_values nested)
         | _ => false
         end
     | _ => false
     end.

Definition tagged_file (tags : list string) (v : pyval) : bool :=
  tagged tags v
  && match v with
     | VDict record =>
         match dict_get record (KStr "action") with
         | Some (VStr action) =>
             match dict_get record (KStr action) with
             | Some (VDict messages) =>
                 forallb (tagged_message tags) (dict_values messages)
             | _ => false
             end
         | _ => false
         end
     | _ => false
     end.

(** The full inventory of an entity.  An attribute of the schema is
    populated when its value on the entity is not null; the inventory
    lists, in the order of the schema, one property-delta per populated
    attribute, with the normalised value on the side of the entity (old
    for "deleted", new for "added") and null on the other side. *)
Definition non_null {T} `{PyObject T} (o : T) (p : string * string) : bool :=
  match getattr o p.1 with
  | Ok v => negb (is_none v)
  | Err _ => false
  end.

Definition inventory_delta_of {T} `{PyObject T} (action : string) (o : T)
    (p : string * string) (d : pyval) : Prop :=
  exists raw v,
    getattr o p.1 = Ok raw /\ converter raw p.2 = Ok v
    /\ d = if String.eqb action "deleted" then delta p.1 v VNone else delta p.1 VNone v.

Definition inventory_deltas {T} `{PyObject T} (action : string)
    (properties : dict string string) (o : T) (l : list pyval) : Prop :=
  Forall2 (inventory_delta_of action o) (List.filter (non_null o) properties) l.

Definition entity_record {T} `{PyObject T} (action : string)
    (properties : dict string string) (o : T) (record : dict key pyval) : Prop :=
  dict_get record (KStr "action") = Some (VStr action)
  /\ exists l, dict_get record (KStr action) = Some (VList l)
               /\ inventory_deltas action properties o l.

(** A report is the inventory of a catalog under an action when it has
    an entry for each message of the catalog and no other, each entry is
    the inventory of the message, and its [signals] map has an entry for
    each signal of the message and no other, the inventory of that
    signal. *)
Definition inventory (action : string) (catalog : dict string Message)
    (report : dict key pyval) : Prop :=
  forall name,
    match dict_get catalog name with
    | None => dict_get report (KStr name) = None
    | Some m =>
        exists record nested,
          dict_get report (KStr name) = Some (VDict record)
          /\ entity_record action message_properties m record
          /\ dict_get record (KStr "signals") = Some (VDict nested)
          /\ forall sname,
               match dict_get (msg_signals m) sname with
               | None => dict_get nested (KStr sname) = None
               | Some s =>
                   exists srecord,
                     dict_get nested (KStr sname) = Some (VDict srecord)
                     /\ entity_record action signal_properties s srecord
               end
    end.

(** Structural induction on values, through lists and dicts. *)
Section PyvalInd.
Variable P : pyval -> Prop.
Hypothesis HNone : P VNone.
Hypothesis HBool : forall b, P (VBool b).
Hypothesis HInt : forall z, P (VInt z).
Hypothesis HFloat : forall f, P (VFloat f).
Hypothesis HStr : forall s, P (VStr s).
Hypothesis HList : forall l, Forall P l -> P (VList l).
Hypothesis HDict : forall d, Forall (fun kv => P kv.2) d -> P (VDict d).

Fixpoint pyval_nested_ind (v : pyval) : P v :=
  match v with
  | VNone => HNone
  | VBool b => HBool b
  | VInt z => HInt z
  | VFloat f => HFloat f
  | VStr s => HStr s
  | VList l =>
      HList l ((fix go (l : list pyval) : Forall P l :=
                  match l with
                  | [] => List.Forall_nil P
                  | x :: l' => List.Forall_cons P x l' (pyval_nested_ind x) (go l')
                  end) l)
  | VDict d =>
      HDict d ((fix go (d : list (key * pyval)) : Forall (fun kv => P kv.2) d :=
                  match d with
                  | [] => List.Forall_nil _
                  | kv :: d' => List.Forall_cons _ kv d' (pyval_nested_ind kv.2) (go d')
                  end) d)
  end.
End PyvalInd.

(** ** Sample catalogs

      Two small databases, used to run the engine on concrete inputs: a
      catalog with one message [M1] (identifier 100) and one signal [S1],
      and a second version of it (identifier 101, one label of the choices
      table changed, one more signal, a version string). *)
Definition sample_signal_attrs (initial choices : pyval) : dict string pyval :=
  [("minimum", VInt 0); ("maximum", VInt 10); ("start", VInt 0); ("length", VInt 8);
   ("byte_order", VStr "little_endian"); ("is_signed", VBool false);
   ("initial", initial); ("invalid", VNone); ("unit", VStr "V"); ("scale", VInt 1);
   ("offset", VInt 0); ("is_float", VBool false); ("choices", choices);
   ("spn", VNone)].

Definition sample_choices : list (key * pyval) :=
  [(KInt 1, VStr "ON"); (KInt 0, VStr "OFF")].

Definition sample_choices_reordered : list (key * pyval) :=
  [(KStr " 0", VStr "OFF"); (KStr "+1", VStr "ON")].

Definition sample_choices_relabelled : list (key * pyval) :=
  [(KInt 1, VStr "RUN"); (KInt 0, VStr "OFF")].

Definition sample_S1 : Signal :=
  {| signal_name := "S1";
     signal_attrs := sample_signal_attrs VNone (VDict sample_choices) |}.

Definition sample_S1_reordered : Signal :=
  {| signal_name := "S1";
     signal_attrs := sample_signal_attrs VNone (VDict sample_choices_reordered) |}.

Definition sample_S1_relabelled : Signal :=
  {| signal_name := "S1";
     signal_attrs := sample_signal_attrs VNone (VDict sample_choices_relabelled) |}.

Definition sample_S2 : Signal :=
  {| signal_name := "S2"; signal_attrs := sample_signal_attrs (VInt 5) VNone |}.

Definition sample_message (frame_id : Z) (sigs : list Signal) : CanMessage :=
  {| message_name := "M1";
     message_attrs :=
       [("frame_id", VInt frame_id); ("is_extended_frame", VBool false);
        ("is_fd", VBool false); ("length", VInt 8); ("send_type", VNone);
        ("cycle_time", VInt 100); ("senders", VList [VStr "A"; VStr "B"]);
        ("receivers", VList [])];
     signals := sigs |}.

Definition sample_db_old : Database :=
  {| messages := [sample_message 100 [sample_S1]]; version := None |}.

Definition sample_db_new : Database :=
  {| messages := [sample_message 101 [sample_S1_relabelled; sample_S2]];
     version := Some "1.0" |}.

Definition sample_load (path : string) : option Database :=
  if String.eqb path "old/a.dbc" then Some sample_db_old
  else if String.eqb path "new/a.dbc" then Some sample_db_new
  else None.

Definition sample_repr (v : pyval) : string := "".

(** The file collections of two folders: [a.dbc] is in both, [gone.dbc]
    in the old one only, [fresh.dbc] in the new one only. *)
Definition sample_old_files : dict string string :=
  [("a.dbc", "old/a.dbc"); ("gone.dbc", "old/a.dbc")].

Definition sample_new_files : dict string string :=
  [("fresh.dbc", "new/a.dbc"); ("a.dbc", "new/a.dbc")].

(** A message as [dbc_loader] hands it over. *)
Definition sample_loaded (frame_id : Z) : Message :=
  {| message := sample_message frame_id [sample_S1];
     msg_signals := [("S1", sample_S1)] |}.

Definition sample_catalog : dict string Message := [("M1", sample_loaded 100)].

(** A name without comma and not empty, as node names are. *)
Fixpoint no_comma (s : string) : bool :=
  match s with
  | EmptyString => true
  | String c s' => negb (Ascii.eqb c ",") && no_comma s'
  end.

Definition plain_name (s : string) : bool :=
  negb (String.eqb s "") && no_comma s.

(** A step of a dict loop stores a value. *)
Definition stores {A V} (step : A -> result (option V)) (x : A) : bool :=
  match step x with
  | Ok (Some _) => true
  | _ => false
  end.

(** A record tagged "unchanged". *)
Definition is_unchanged (v : pyval) : bool :=
  match v with
  | VDict record =>
      match dict_get record (KStr "action") with
      | Some (VStr action) => String.eqb action "unchanged"
      | _ => false
      end
  | _ => false
  end.

(** The exceptions that come from the input: a file that does not load, an
    attribute that is missing or whose value has not the type its kind
    expects. *)
Definition input_error (e : exn) : Prop :=
  match e with
  | LoadError | AttributeError _ | TypeError | ValueError => True
  | CriticalError | KeyError _ => False
  end.

(** ** The file collections

    The file tree as the program observes it: [os.path.isdir],
    [os.path.isfile] and the triples [(current_path, folders, files)] that
    [os.walk] yields for a folder, in the order it yields them.  Paths are
    those of a POSIX system. *)
Record FileSystem : Type := {
  isdir : string -> bool;
  isfile : string -> bool;
  walk : string -> list (string * list string * list string)
}.

(** [s.endswith(suffix)] *)
Fixpoint endswith (s suffix : string) : bool :=
  String.eqb s suffix ||
  match s with
  | EmptyString => false
  | String _ s' => endswith s' suffix
  end.

(** ['/' in p] *)
Fixpoint has_sep (p : string) : bool :=
  match p with
  | EmptyString => false
  | String c p' => Ascii.eqb c "/" || has_sep p'
  end.

(** [os.path.join(a, b)] *)
Definition path_join (a b : string) : string :=
  if String.prefix "/" b then b
  else if String.eqb a "" || endswith a "/" then (a ++ b)%string
  else (a ++ "/" ++ b)%string.

(** [os.path.basename(p)]: what follows the last separator. *)
Fixpoint basename (p : string) : string :=
  match p with
  | EmptyString => EmptyString
  | String c p' =>
      if has_sep p' then basename p'
      else if Ascii.eqb c "/" then p' else p
  end.

(** [d.pop(k)]: the value and the dict without the key. *)
Definition dict_pop {V} (d : dict string V) (k : string) : result (V * dict string V) :=
  match dict_get d k with
  | Some v => Ok (v, List.filter (fun kv => negb (String.eqb (fst kv) k)) d)
  | None => Err (KeyError (KStr k))
  end.

(** [enum_files]: the files of a folder tree that bear the extension, by
    name.  The second component is what went to [logger.error]. *)
Definition enum_files (fs : FileSystem) (folder file_extension : string)
    : dict string string * list string :=
  fold_left (fun st '(current_path, folders, files) =>
    fold_left (fun (st : dict string string * list string) file =>
      let (populated_files, log) := st in
      if endswith file file_extension then
        let file_path := path_join current_path file in
        let log :=
          match dict_get populated_files file with
          | Some found =>
              log ++ [("error: same DBC file found more than once: "
                       ++ found ++ " and " ++ file_path)%string]
          | None => log
          end in
        (dict_set populated_files file file_path, log)
      else st) files st) (walk fs folder) ([], []).

(** The first part of [main]: the two collections that are handed to
    [get_report], with what was logged on the way. *)
Definition main_files (fs : FileSystem) (old new : string)
    : list string * result (dict string string * dict string string) :=
  let old_side :=
    if isdir fs old then
      let (old_files, log) := enum_files fs old ".dbc" in Ok (None, old_files, log)
    else if isfile fs old then
      let old_file_name := basename old in
      Ok (Some old_file_name, [(old_file_name, old)], [])
    else Err ValueError in
  match old_side with
  | Err e => ([], Err e)
  | Ok (old_file_name, old_files, log) =>
      if isdir fs new then
        let (new_files, log') := enum_files fs new ".dbc" in
        (log ++ log', Ok (old_files, new_files))
      else if isfile fs new then
        let new_file_name := basename new in
        match old_file_name with
        | Some old_file_name =>
            if negb (String.eqb old_file_name new_file_name) then
              let new_file_name := (old_file_name ++ " -> " ++ new_file_name)%string in
              (log,
               '(path, old_files) ← dict_pop old_files old_file_name;
               Ok (dict_set old_files new_file_name path, [(new_file_name, new)]))
            else (log, Ok (old_files, [(new_file_name, new)]))
        | None => (log, Ok (old_files, [(new_file_name, new)]))
        end
      else (log, Err ValueError)
  end.

(** [main] up to the report. *)
Definition main_report (fs : FileSystem) (old new : string) (unchanged : bool)
    : list string * result (dict key pyval) :=
  let (log, files) := main_files fs old new in
  (log, '(old_files, new_files) ← files; get_report old_files new_files unchanged).

(** The files that [enum_files] keeps, in the order it meets them. *)
Definition walk_matches (fs : FileSystem) (folder file_extension : string)
    : list (string * string) :=
  flat_map (fun '(current_path, folders, files) =>
    (fun file => (file, path_join current_path file))
      <$> List.filter (fun file => endswith file file_extension) files)
    (walk fs folder).

(** A tree with one sub-folder that holds a file of the same name, and a
    tree with one file. *)
Definition sample_fs : FileSystem :=
  {| isdir p := String.eqb p "old" || String.eqb p "new";
     isfile p := String.eqb p "old/a.dbc" || String.eqb p "new/a.dbc"
                 || String.eqb p "new/b.dbc";
     walk p :=
       if String.eqb p "old" then
         [("old", ["sub"], ["a.dbc"; "notes.txt"]); ("old/sub", [], ["a.dbc"])]
       else if String.eqb p "new" then [("new", [], ["a.dbc"])]
       else [] |}.

(** A loader that knows [new/b.dbc] as well. *)
Definition sample_load_all (path : string) : option Database :=
  if String.eqb path "new/b.dbc" then Some sample_db_new else sample_load path.

(** A choices table with two keys that both read as the integer 1, and
    the same table with its first label changed. *)
Definition sample_choices_clash : list (key * pyval) :=
  [(KStr "1", VStr "a"); (KStr "01", VStr "b")].

Definition sample_choices_clash_relabelled : list (key * pyval) :=
  [(KStr "1", VStr "x"); (KStr "01", VStr "b")].

Definition sample_S1_clash : Signal :=
  {| signal_name := "S1";
     signal_attrs := sample_signal_attrs VNone (VDict sample_choices_clash) |}.

Definition sample_S1_clash_relabelled : Signal :=
  {| signal_name := "S1";
     signal_attrs := sample_signal_attrs VNone (VDict sample_choices_clash_relabelled) |}.

(** The signal [S1] with a NaN for its scale, and a catalog that holds
    it. *)
Definition sample_S1_nan (choices : list (key * pyval)) : Signal :=
  {| signal_name := "S1";
     signal_attrs :=
       dict_set (sample_signal_attrs VNone (VDict choices)) "scale"
                (VFloat SpecFloat.S754_nan) |}.

Definition sample_db_nan : Database :=
  {| messages := [sample_message 100 [sample_S1_nan sample_choices]]; version := None |}.

Definition sample_load_nan (path : string) : option Database :=
  if String.eqb path "nan.dbc" then Some sample_db_nan else None.

(* ================================================================== *)
(** * Properties *)

(** ** The result monad and loops *)

Lemma bind_Ok {A B} (m : result A) (f : A -> result B) (b : B) :
  m ≫= f = Ok b -> exists a, m = Ok a /\ f a = Ok b.
Proof. destruct m as [a|e]; simpl; [eauto | discriminate]. Qed.

Lemma bind_Err {A B} (m : result A) (f : A -> result B) (e : exn) :
  m ≫= f = Err e -> m = Err e \/ exists a, m = Ok a /\ f a = Err e.
Proof. destruct m as [a|e']; simpl; [eauto | intros [= ->]; auto]. Qed.

(** The general loop invariant: [P] is told which prefix of the list has
    been consumed. *)
Lemma for_each_ind {A S} (P : list A -> S -> Prop) (body : S -> A -> result S)
    (l : list A) (s0 s : S) :
  P [] s0 ->
  (forall pre x s1 s2, P pre s1 -> x ∈ l -> body s1 x = Ok s2 -> P (pre ++ [x]) s2) ->
  for_each l body s0 = Ok s -> P l s.
Proof.
  intros H0 Hstep.
  assert (G : forall suf pre s1, pre ++ suf = l -> P pre s1 ->
            for_each suf body s1 = Ok s -> P l s).
  { induction suf as [|x suf IH]; intros pre s1 Hl HP Hrun; simpl in Hrun.
    - rewrite app_nil_r in Hl. subst pre. by injection Hrun as ->.
    - apply bind_Ok in Hrun as (s2 & Hb & Hrun).
      apply (IH (pre ++ [x]) s2); [by rewrite <- app_assoc | | done].
      eapply Hstep; [done | | done].
      rewrite <- Hl. set_solver. }
  by apply (G l [] s0).
Qed.

Lemma for_each_ok {A S} (body : S -> A -> result S) (l : list A) (s0 : S) :
  (forall s x, x ∈ l -> is_ok (body s x) = true) ->
  is_ok (for_each l body s0) = true.
Proof.
  revert s0. induction l as [|x l IH]; intros s0 H; simpl; [done|].
  assert (Hx : is_ok (body s0 x) = true) by (apply H; set_solver).
  destruct (body s0 x) as [s1|e]; simpl; [|done].
  apply IH. intros. apply H. set_solver.
Qed.

Lemma for_each_Err {A S} (body : S -> A -> result S) (l : list A) (s0 : S) e :
  for_each l body s0 = Err e -> exists s x, x ∈ l /\ body s x = Err e.
Proof.
  revert s0. induction l as [|x l IH]; intros s0; simpl; [discriminate|].
  intros H. apply bind_Err in H as [H|(s1 & _ & H)].
  - exists s0, x. split; [set_solver | done].
  - destruct (IH _ H) as (s & y & Hy & Hb). exists s, y. split; [set_solver | done].
Qed.

Lemma for_each_ext {A S} (body1 body2 : S -> A -> result S) (l : list A) (s0 : S) :
  (forall s x, x ∈ l -> body1 s x = body2 s x) ->
  for_each l body1 s0 = for_each l body2 s0.
Proof.
  revert s0. induction l as [|x l IH]; intros s0 H; simpl; [done|].
  rewrite H by set_solver. destruct (body2 s0 x); simpl; [|done].
  apply IH. intros. apply H. set_solver.
Qed.

(** ** The order of strings *)

Lemma ascii_compare_refl c : Ascii.compare c c = Eq.
Proof. unfold Ascii.compare. apply N.compare_refl. Qed.

Lemma string_compare_refl s : String.compare s s = Eq.
Proof. induction s as [|c s IH]; simpl; [done|]. by rewrite ascii_compare_refl. Qed.

Lemma string_compare_lt_trans a b c :
  String.compare a b = Lt -> String.compare b c = Lt -> String.compare a c = Lt.
Proof.
  revert b c. induction a as [|x a IH]; intros [|y b] [|z c]; simpl; try done.
  unfold Ascii.compare.
  destruct (N.compare_spec (N_of_ascii x) (N_of_ascii y)) as [Exy|Lxy|Gxy];
    destruct (N.compare_spec (N_of_ascii y) (N_of_ascii z)) as [Eyz|Lyz|Gyz];
    try done; intros H1 H2.
  - rewrite Exy, Eyz, N.compare_refl. eauto.
  - rewrite Exy. by apply N.compare_lt_iff in Lyz as ->.
  - rewrite <- Eyz. by apply N.compare_lt_iff in Lxy as ->.
  - assert (L : (N_of_ascii x < N_of_ascii z)%N) by lia.
    by apply N.compare_lt_iff in L as ->.
Qed.

Global Instance str_le_refl : Reflexive str_le.
Proof. intros s. unfold str_le, String.leb. by rewrite string_compare_refl. Qed.

Global Instance str_le_total : Total str_le.
Proof. intros a b. apply String.leb_total. Qed.

Global Instance str_le_antisym : AntiSymm (=) str_le.
Proof. intros a b. apply String.leb_antisym. Qed.

Global Instance str_le_trans : Transitive str_le.
Proof.
  intros a b c. unfold str_le, String.leb.
  destruct (String.compare a b) eqn:Eab; [| |done].
  - apply String.compare_eq_iff in Eab as ->. done.
  - intros _. destruct (String.compare b c) eqn:Ebc; [| |done].
    + apply String.compare_eq_iff in Ebc as <-. by rewrite Eab.
    + by rewrite (string_compare_lt_trans _ _ _ Eab Ebc).
Qed.

Lemma sorted_Permutation l : sorted l ≡ₚ l.
Proof. apply merge_sort_Permutation. Qed.

Lemma sorted_Sorted l : Sorted str_le (sorted l).
Proof. apply (Sorted_merge_sort str_le). Qed.

Lemma elem_of_sorted x l : x ∈ sorted l <-> x ∈ l.
Proof. by rewrite sorted_Permutation. Qed.

Lemma sorted_NoDup l : NoDup l -> NoDup (sorted l).
Proof. by rewrite sorted_Permutation. Qed.

(** [sorted] depends on the elements only, not on the order they come in. *)
Lemma sorted_unique l1 l2 : l1 ≡ₚ l2 -> sorted l1 = sorted l2.
Proof.
  intros Hp. apply (Sorted_unique str_le); [apply sorted_Sorted..|].
  by rewrite !sorted_Permutation.
Qed.

(** ** The Set Reconciler *)

Lemma list_to_set_ext (l1 l2 : list string) :
  (forall k, k ∈ l1 <-> k ∈ l2) -> (list_to_set l1 : gset string) = list_to_set l2.
Proof. intros H. apply set_eq. intros k. by rewrite !elem_of_list_to_set. Qed.

Section Reconciler.
Context {A B : Type} (old : dict string A) (new : dict string B).

Lemma elem_of_cd_added k :
  k ∈ (compare_dictionaries old new).1.1 <-> k ∈ dict_keys new /\ k ∉ dict_keys old.
Proof.
  clear py_repr load_file. unfold compare_dictionaries; simpl.
  rewrite elem_of_sorted. set_solver.
Qed.

Lemma elem_of_cd_same k :
  k ∈ (compare_dictionaries old new).1.2 <-> k ∈ dict_keys old /\ k ∈ dict_keys new.
Proof.
  clear py_repr load_file. unfold compare_dictionaries; simpl.
  rewrite elem_of_sorted. set_solver.
Qed.

Lemma elem_of_cd_deleted k :
  k ∈ (compare_dictionaries old new).2 <-> k ∈ dict_keys old /\ k ∉ dict_keys new.
Proof.
  clear py_repr load_file. unfold compare_dictionaries; simpl.
  rewrite elem_of_sorted. set_solver.
Qed.

Lemma cd_NoDup :
  NoDup ((compare_dictionaries old new).1.1 ++ (compare_dictionaries old new).1.2
         ++ (compare_dictionaries old new).2).
Proof. clear py_repr load_file.
  rewrite !NoDup_app. repeat split.
  - apply sorted_NoDup, NoDup_elements.
  - intros k Ha [Hs|Hd]%elem_of_app.
    + apply elem_of_cd_added in Ha. apply elem_of_cd_same in Hs. tauto.
    + apply elem_of_cd_added in Ha. apply elem_of_cd_deleted in Hd. tauto.
  - apply sorted_NoDup, NoDup_elements.
  - intros k Hs Hd. apply elem_of_cd_same in Hs. apply elem_of_cd_deleted in Hd. tauto.
  - apply sorted_NoDup, NoDup_elements.
Qed.
End Reconciler.

(** C1.  For every pair of mappings the reconciler returns [added] (the
    keys of [new] only), [common] (the keys of both) and [removed] (the keys
    of [old] only); together they hold every key of either mapping, no key
    is listed twice (so the three are pairwise disjoint), each is in
    ascending lexicographic order, and the answer is the same whenever the
    two key sets are the same, whatever order the keys were inserted in.
    The function only reads the keys of its arguments: it is a pure
    function of the two mappings and returns nothing but the three lists. *)
Theorem compare_dictionaries_partition {A B} (old : dict string A) (new : dict string B) :
  let '(added, common, removed) := compare_dictionaries old new in
  (forall k, k ∈ added <-> k ∈ dict_keys new /\ k ∉ dict_keys old) /\
  (forall k, k ∈ common <-> k ∈ dict_keys old /\ k ∈ dict_keys new) /\
  (forall k, k ∈ removed <-> k ∈ dict_keys old /\ k ∉ dict_keys new) /\
  (forall k, k ∈ added ++ common ++ removed <-> k ∈ dict_keys old \/ k ∈ dict_keys new) /\
  NoDup (added ++ common ++ removed) /\
  (forall k, ~ (k ∈ added /\ k ∈ common) /\ ~ (k ∈ added /\ k ∈ removed)
             /\ ~ (k ∈ common /\ k ∈ removed)) /\
  Sorted str_le added /\ Sorted str_le common /\ Sorted str_le removed /\
  (forall (old' : dict string A) (new' : dict string B),
      (forall k, k ∈ dict_keys old' <-> k ∈ dict_keys old) ->
      (forall k, k ∈ dict_keys new' <-> k ∈ dict_keys new) ->
      compare_dictionaries old' new' = (added, common, removed)).
Proof. clear py_repr load_file.
  pose proof (elem_of_cd_added old new) as Ha.
  pose proof (elem_of_cd_same old new) as Hs.
  pose proof (elem_of_cd_deleted old new) as Hd.
  pose proof (cd_NoDup old new) as Hn.
  destruct (compare_dictionaries old new) as [[added common] removed] eqn:E.
  simpl in *. split_and!; try done.
  - intros k. rewrite !elem_of_app, Ha, Hs, Hd.
    destruct (decide (k ∈ dict_keys old)), (decide (k ∈ dict_keys new)); tauto.
  - intros k. rewrite Ha, Hs, Hd. tauto.
  - injection E as <- _ _. apply sorted_Sorted.
  - injection E as _ <- _. apply sorted_Sorted.
  - injection E as _ _ <-. apply sorted_Sorted.
  - intros old' new' Ho Hn'. rewrite <- E. unfold compare_dictionaries.
    by rewrite (list_to_set_ext (dict_keys old') (dict_keys old)),
               (list_to_set_ext (dict_keys new') (dict_keys new)).
Qed.

(** ** Dictionaries *)

Section DictFacts.
Context {K V : Type} `{EqDecision K}.
Implicit Types (d : dict K V) (k : K) (v : V).

Lemma dict_get_set d k v k' :
  dict_get (dict_set d k v) k' = if decide (k = k') then Some v else dict_get d k'.
Proof.
  induction d as [|[k0 v0] d IH]; simpl.
  - by destruct (decide (k = k')).
  - destruct (decide (k0 = k)) as [->|Hne]; simpl.
    + by destruct (decide (k = k')).
    + rewrite IH. destruct (decide (k0 = k')) as [->|]; [|done].
      by destruct (decide (k = k')).
Qed.

Lemma dict_get_set_eq d k v : dict_get (dict_set d k v) k = Some v.
Proof. rewrite dict_get_set. by destruct (decide (k = k)). Qed.

Lemma dict_get_set_ne d k v k' : k ≠ k' -> dict_get (dict_set d k v) k' = dict_get d k'.
Proof. intros. rewrite dict_get_set. by destruct (decide (k = k')). Qed.

Lemma dict_get_Some_elem d k v : dict_get d k = Some v -> (k, v) ∈ d.
Proof.
  induction d as [|[k0 v0] d IH]; simpl; [done|].
  destruct (decide (k0 = k)) as [->|]; [intros [= ->]; set_solver|].
  intros. apply elem_of_cons. right. auto.
Qed.

Lemma dict_get_None d k : dict_get d k = None <-> k ∉ dict_keys d.
Proof.
  unfold dict_keys. induction d as [|[k0 v0] d IH]; simpl.
  - split; [set_solver | done].
  - destruct (decide (k0 = k)) as [->|Hne].
    + split; [done | set_solver].
    + rewrite IH. set_solver.
Qed.

Lemma dict_get_is_Some d k : is_Some (dict_get d k) <-> k ∈ dict_keys d.
Proof.
  destruct (dict_get d k) eqn:E.
  - split; [|eauto]. intros _. destruct (decide (k ∈ dict_keys d)); [done|].
    apply dict_get_None in n. congruence.
  - apply dict_get_None in E. split; [by intros [? [=]] | done].
Qed.

Lemma dict_get_NoDup d k v : NoDup (dict_keys d) -> (k, v) ∈ d -> dict_get d k = Some v.
Proof.
  unfold dict_keys. induction d as [|[k0 v0] d IH]; simpl; [set_solver|].
  intros [Hk Hd]%NoDup_cons [Heq|Hin]%elem_of_cons.
  - injection Heq as -> ->. by destruct (decide (k0 = k0)).
  - destruct (decide (k0 = k)) as [->|]; [|auto].
    exfalso. apply Hk. apply list_elem_of_fmap. by exists (k, v).
Qed.

Lemma dict_keys_set d k v :
  dict_keys (dict_set d k v)
  = if decide (k ∈ dict_keys d) then dict_keys d else dict_keys d ++ [k].
Proof.
  unfold dict_keys. induction d as [|[k0 v0] d IH]; simpl.
  - done.
  - destruct (decide (k0 = k)) as [->|Hne]; simpl.
    + rewrite decide_True; [done | set_solver].
    + rewrite IH. destruct (decide (k ∈ map fst d)) as [Hin|Hnin].
      * rewrite decide_True; [done | set_solver].
      * rewrite decide_False; [done | set_solver].
Qed.

Lemma dict_set_NoDup d k v : NoDup (dict_keys d) -> NoDup (dict_keys (dict_set d k v)).
Proof.
  intros Hd. rewrite dict_keys_set. case_decide; [done|].
  apply NoDup_app. split_and!; [done | set_solver | apply NoDup_singleton].
Qed.

Lemma dict_set_values (P : V -> Prop) d k v :
  Forall P (dict_values d) -> P v -> Forall P (dict_values (dict_set d k v)).
Proof.
  unfold dict_values. induction d as [|[k0 v0] d IH]; simpl; intros Hd Hv.
  - by constructor.
  - apply Forall_cons in Hd as [H0 Hd].
    destruct (decide (k0 = k)); simpl; constructor; auto.
Qed.

Lemma dict_union_NoDup d1 d2 : NoDup (dict_keys d1) -> NoDup (dict_keys (dict_union d1 d2)).
Proof.
  unfold dict_union. revert d1. induction d2 as [|[k v] d2 IH]; intros d1 Hd; simpl; [done|].
  by apply IH, dict_set_NoDup.
Qed.

Lemma dict_get_union d1 d2 k :
  NoDup (dict_keys d2) ->
  dict_get (dict_union d1 d2) k
  = match dict_get d2 k with Some v => Some v | None => dict_get d1 k end.
Proof.
  unfold dict_union, dict_keys. revert d1.
  induction d2 as [|[k0 v0] d2 IH]; intros d1 Hd; simpl; [done|].
  apply NoDup_cons in Hd as [Hk Hd]. rewrite IH by done.
  destruct (decide (k0 = k)) as [->|Hne].
  - assert (dict_get d2 k = None) as -> by by apply dict_get_None.
    apply dict_get_set_eq.
  - destruct (dict_get d2 k); [done|]. by apply dict_get_set_ne.
Qed.

Lemma dict_lit_NoDup (items : list (K * V)) : NoDup (dict_keys (dict_lit items)).
Proof. apply dict_union_NoDup. constructor. Qed.
End DictFacts.

(** ** Loops that fill a dict *)

Section DictLoop.
Context {A V : Type} (kf : A -> key) (step : A -> result (option V)).
Implicit Types (l : list A) (d : dict key V).

Lemma dict_loop_steps l d0 d x :
  dict_loop kf step l d0 = Ok d -> x ∈ l -> exists o, step x = Ok o.
Proof.
  unfold dict_loop. revert d0. induction l as [|y l IH]; intros d0; simpl; [set_solver|].
  intros (d1 & Hb & Hrun)%bind_Ok [->|Hin]%elem_of_cons.
  - apply bind_Ok in Hb as (o & Ho & _). eauto.
  - eauto.
Qed.

Lemma dict_loop_ok l d0 :
  (forall x, x ∈ l -> is_ok (step x) = true) -> is_ok (dict_loop kf step l d0) = true.
Proof.
  intros H. apply for_each_ok. intros d x Hx. specialize (H x Hx).
  by destruct (step x).
Qed.

Lemma dict_loop_Err l d0 e :
  dict_loop kf step l d0 = Err e -> exists x, x ∈ l /\ step x = Err e.
Proof.
  intros (d & x & Hx & Hb)%for_each_Err. exists x. split; [done|].
  by apply bind_Err in Hb as [?|(o & ? & [=])].
Qed.

Lemma dict_loop_skip l d0 :
  (forall x, x ∈ l -> step x = Ok None) -> dict_loop kf step l d0 = Ok d0.
Proof.
  unfold dict_loop. induction l as [|y l IH]; intros H; simpl; [done|].
  rewrite (H y) by set_solver. simpl. apply IH. intros. apply H. set_solver.
Qed.

Lemma dict_loop_other l d0 d k :
  dict_loop kf step l d0 = Ok d -> (forall x, x ∈ l -> kf x ≠ k) ->
  dict_get d k = dict_get d0 k.
Proof.
  intros Hrun Hk. revert Hrun. unfold dict_loop.
  apply (for_each_ind (fun _ d => dict_get d k = dict_get d0 k)); [done|].
  intros pre x d1 d2 IH Hx (o & Ho & [= <-])%bind_Ok.
  destruct o; [|done]. rewrite dict_get_set_ne; auto.
Qed.

Lemma dict_loop_values (P : V -> Prop) l d0 d :
  dict_loop kf step l d0 = Ok d ->
  Forall P (dict_values d0) ->
  (forall x v, x ∈ l -> step x = Ok (Some v) -> P v) ->
  Forall P (dict_values d).
Proof.
  intros Hrun H0 Hstep. revert Hrun. unfold dict_loop.
  apply (for_each_ind (fun _ d => Forall P (dict_values d))); [done|].
  intros pre x d1 d2 IH Hx (o & Ho & [= <-])%bind_Ok.
  destruct o; [|done]. apply dict_set_values; eauto.
Qed.

Lemma dict_loop_keys (P : key -> Prop) l d0 d :
  dict_loop kf step l d0 = Ok d ->
  Forall P (dict_keys d0) -> (forall x, x ∈ l -> P (kf x)) -> Forall P (dict_keys d).
Proof.
  intros Hrun H0 Hstep. revert Hrun. unfold dict_loop.
  apply (for_each_ind (fun _ d => Forall P (dict_keys d))); [done|].
  intros pre x d1 d2 IH Hx (o & Ho & [= <-])%bind_Ok.
  destruct o; [|done]. rewrite dict_keys_set. case_decide; [done|].
  apply Forall_app. split; [done|]. constructor; auto.
Qed.

Lemma dict_loop_NoDup l d0 d :
  dict_loop kf step l d0 = Ok d -> NoDup (dict_keys d0) -> NoDup (dict_keys d).
Proof.
  intros Hrun H0. revert Hrun. unfold dict_loop.
  apply (for_each_ind (fun _ d => NoDup (dict_keys d))); [done|].
  intros pre x d1 d2 IH Hx (o & Ho & [= <-])%bind_Ok.
  destruct o; [|done]. by apply dict_set_NoDup.
Qed.

(** What the loop leaves under the key of an element of the list, when
    elements with the same key take the same step. *)
Lemma dict_loop_lookup l d0 d x :
  dict_loop kf step l d0 = Ok d ->
  (forall y z, y ∈ l -> z ∈ l -> kf y = kf z -> step y = step z) ->
  x ∈ l ->
  exists o, step x = Ok o /\
    dict_get d (kf x) = match o with Some v => Some v | None => dict_get d0 (kf x) end.
Proof.
  intros Hrun Hsame Hx.
  destruct (dict_loop_steps _ _ _ _ Hrun Hx) as [o Ho]. exists o. split; [done|].
  set (P := fun (pre : list A) (d : dict key V) =>
    (forall y, y ∈ pre -> y ∈ l) /\
    ((exists y, y ∈ pre /\ kf y = kf x) ->
      dict_get d (kf x) = match o with Some v => Some v | None => dict_get d0 (kf x) end)
    /\ ((forall y, y ∈ pre -> kf y ≠ kf x) -> dict_get d (kf x) = dict_get d0 (kf x))).
  assert (G : P l d).
  { revert Hrun. unfold dict_loop. apply (for_each_ind P).
    - unfold P. split_and!; [set_solver | intros (y & Hy & _); set_solver | done].
    - intros pre y d1 d2 (Hpre & IH1 & IH2) Hy (o' & Ho' & [= <-])%bind_Ok.
      assert (Hdec : (exists z, z ∈ pre /\ kf z = kf x)
                     \/ (forall z, z ∈ pre -> kf z ≠ kf x)).
      { destruct (decide (kf x ∈ kf <$> pre)) as [Hin|Hnin].
        - left. apply list_elem_of_fmap in Hin as (z & Hz & Hin). eauto.
        - right. intros z Hz Heq. apply Hnin. apply list_elem_of_fmap. eauto. }
      assert (Hpre' : forall z, z ∈ pre ++ [y] -> z ∈ l).
      { intros z [Hz| ->%list_elem_of_singleton]%elem_of_app; auto. }
      unfold P. split_and!; [done| |].
      + intros (z & Hz & Hkz). destruct (decide (kf y = kf x)) as [Heq|Hne].
        * assert (step y = step x) as Hyx by (apply Hsame; auto).
          rewrite Hyx, Ho in Ho'. injection Ho' as <-.
          destruct o as [v|]; [by rewrite Heq, dict_get_set_eq|].
          destruct Hdec; auto.
        * assert (dict_get (match o' with Some v => dict_set d1 (kf y) v | None => d1 end)
                    (kf x) = dict_get d1 (kf x)) as ->.
          { destruct o'; [by apply dict_get_set_ne | done]. }
          destruct Hdec as [Hd|Hd]; [auto|]. exfalso.
          apply elem_of_app in Hz as [Hz| ->%list_elem_of_singleton]; [|done].
          by apply (Hd z).
      + intros Hall.
        assert (dict_get (match o' with Some v => dict_set d1 (kf y) v | None => d1 end)
                    (kf x) = dict_get d1 (kf x)) as ->.
        { destruct o'; [|done]. apply dict_get_set_ne, Hall. set_solver. }
        apply IH2. intros z Hz. apply Hall. set_solver. }
  destruct G as (_ & H1 & _). apply H1. eauto.
Qed.
End DictLoop.

(** ** Python values and equality *)


(** A float that is no NaN is equal to itself. *)
Lemma SFeqb_refl f : f ≠ SpecFloat.S754_nan -> SpecFloat.SFeqb f f = true.
Proof.
  unfold SpecFloat.SFeqb, SpecFloat.SFcompare.
  destruct f as [s|s| |s m e]; intros Hf; [done| by destruct s |done|].
  destruct s; rewrite Z.compare_refl, Pos.compare_cont_refl; done.
Qed.

Lemma py_eqb_refl v : wf_val v = true -> nan_free v = true -> py_eqb v v = true.
Proof.
  induction v as [| b | z | f | s | l IH | d IH] using pyval_nested_ind; simpl;
    intros Hwf Hnan.
  - done.
  - by destruct b.
  - apply Z.eqb_refl.
  - apply SFeqb_refl. by intros ->.
  - apply String.eqb_refl.
  - induction IH as [|x l Hx _ IHl]; [done|]. simpl in Hwf, Hnan.
    apply andb_prop in Hwf as [Hwx Hwl]. apply andb_prop in Hnan as [Hnx Hnl].
    rewrite Hx by done. simpl. auto.
  - apply andb_prop in Hwf as [Hnd Hwf]. apply bool_decide_eq_true in Hnd.
    rewrite Nat.eqb_refl. simpl.
    assert (G : forall d', Forall (fun kv => kv ∈ d) d' ->
              Forall (fun kv => wf_val kv.2 = true -> nan_free kv.2 = true ->
                                py_eqb kv.2 kv.2 = true) d' ->
              forallb (fun kv => wf_val kv.2) d' = true ->
              forallb (fun kv => nan_free kv.2) d' = true ->
              (fix items_eqb (d0 : list (key * pyval)) : bool :=
                 match d0 with
                 | [] => true
                 | (k, v) :: d'0 =>
                     match dict_get d k with
                     | Some v' => py_eqb v v'
                     | None => false
                     end && items_eqb d'0
                 end) d' = true).
    { induction d' as [|[k v] d' IHd]; [done|].
      intros [Hin Hsub]%Forall_cons [Hv Hrest]%Forall_cons [Hwv Hwd]%andb_prop
             [Hnv Hnd']%andb_prop.
      rewrite (dict_get_NoDup d k v Hnd Hin). simpl in Hv. rewrite Hv by done.
      simpl. auto. }
    apply G; [|done|done|done]. by apply Forall_forall.
Qed.

(** A table of strings holds no NaN. *)
Lemma normal_choices_nan_free (l : list (Z * string)) :
  nan_free (VDict (pydict_of_items l)) = true.
Proof. simpl. unfold pydict_of_items. induction l; simpl; auto. Qed.

(** ** The normaliser *)

Lemma converter_dict d :
  converter (VDict d) "dict"
  = (result ← choices_loop d; Ok (VDict (pydict_of_items (sorted_items result)))).
Proof. done. Qed.

Lemma choices_loop_NoDup items result :
  choices_loop items = Ok result -> NoDup (dict_keys result).
Proof.
  unfold choices_loop.
  apply (for_each_ind (fun _ (r : dict Z string) => NoDup (dict_keys r))); [constructor|].
  intros pre x r1 r2 IH _ (n & _ & [= <-])%bind_Ok. by apply dict_set_NoDup.
Qed.

Lemma sorted_items_Permutation l : sorted_items l ≡ₚ l.
Proof. apply merge_sort_Permutation. Qed.

Lemma pydict_of_items_keys l : dict_keys (pydict_of_items l) = KInt <$> l.*1.
Proof. induction l as [|x l IH]; simpl; [done|]. f_equal. apply IH. Qed.

Lemma normal_choices_wf result :
  NoDup (dict_keys result) -> wf_val (VDict (pydict_of_items (sorted_items result))) = true.
Proof.
  intros Hnd. simpl. apply andb_true_intro. split.
  - apply bool_decide_eq_true. rewrite pydict_of_items_keys.
    apply NoDup_fmap; [by intros ?? [=]|]. by rewrite sorted_items_Permutation.
  - unfold pydict_of_items. induction (sorted_items result); simpl; auto.
Qed.

Lemma converter_None from_type : converter VNone from_type = Ok VNone.
Proof. done. Qed.

Lemma converter_is_none value from_type w :
  converter value from_type = Ok w -> is_none w = is_none value.
Proof.
  unfold converter. destruct (is_none value) eqn:En; [by intros [= <-]|].
  repeat case_match; try by (intros [= <-]).
  - by intros (? & _ & [= <-])%bind_Ok.
  - intros (? & _ & (? & _ & [= <-])%bind_Ok)%bind_Ok. done.
  - by intros (? & _ & [= <-])%bind_Ok.
Qed.

Lemma converter_refl value from_type w :
  wf_val value = true -> negb (kept_as_is from_type) || nan_free value = true ->
  converter value from_type = Ok w -> py_eqb w w = true.
Proof.
  intros Hwf Hnan. unfold converter. destruct (is_none value) eqn:En; [by intros [= <-]|].
  unfold kept_as_is in Hnan. repeat case_match.
  - intros (? & _ & [= <-])%bind_Ok. apply String.eqb_refl.
  - intros [= <-]. apply String.eqb_refl.
  - intros (d & Hd & (r & Hr & [= <-])%bind_Ok)%bind_Ok.
    apply py_eqb_refl; [|apply normal_choices_nan_free].
    apply normal_choices_wf. by apply (choices_loop_NoDup d).
  - intros (? & _ & [= <-])%bind_Ok. apply String.eqb_refl.
  - intros [= <-]. simpl in Hnan. by apply py_eqb_refl.
Qed.

Lemma py_int_no_critical k : py_int k ≠ Err CriticalError.
Proof.
  destruct k as [z|s]; simpl; [done|]. unfold int_of_string.
  by repeat case_match.
Qed.

Lemma choices_loop_no_critical items : choices_loop items ≠ Err CriticalError.
Proof.
  intros (r & [k v] & _ & Hb)%for_each_Err. simpl in Hb.
  apply bind_Err in Hb as [Hb|(? & _ & [=])]. by apply py_int_no_critical in Hb.
Qed.

Lemma strs_of_list_no_critical l : strs_of_list l ≠ Err CriticalError.
Proof.
  induction l as [|x l IH]; simpl; [done|].
  destruct x; try done. by intros [Hq|(? & _ & [=])]%bind_Err.
Qed.

Lemma py_join_no_critical sep value : py_join sep value ≠ Err CriticalError.
Proof.
  destruct value; simpl; try done.
  - intros [Hq|(? & _ & [=])]%bind_Err. by apply strs_of_list_no_critical in Hq.
  - intros [Hq|(? & _ & [=])]%bind_Err. by apply strs_of_list_no_critical in Hq.
Qed.

Lemma converter_no_critical value from_type : converter value from_type ≠ Err CriticalError.
Proof.
  unfold converter. repeat case_match; try done.
  - intros [Hq|(? & _ & [=])]%bind_Err. by destruct value.
  - intros [Hq|(d & Hd & Hq)]%bind_Err; [by destruct value|].
    apply bind_Err in Hq as [Hq|(? & _ & [=])].
    by apply (choices_loop_no_critical d).
  - intros [Hq|(? & _ & [=])]%bind_Err. by apply py_join_no_critical in Hq.
Qed.

(** ** Loops that collect a list *)

Section ListLoop.
Context {A B : Type} (step : A -> result (option B)).

Lemma list_loop_acc l acc :
  list_loop step l acc = (r ← list_loop step l []; Ok (acc ++ r)).
Proof.
  unfold list_loop. revert acc. induction l as [|x l IH]; intros acc; simpl.
  - by rewrite app_nil_r.
  - destruct (step x) as [o|e]; simpl; [|done].
    rewrite (IH (acc ++ option_list o)), (IH (option_list o)).
    destruct (for_each l _ []); simpl; [|done]. by rewrite app_assoc.
Qed.

Lemma list_loop_cons x l :
  list_loop step (x :: l) []
  = (o ← step x; r ← list_loop step l []; Ok (option_list o ++ r)).
Proof.
  unfold list_loop at 1. simpl. destruct (step x) as [o|e]; simpl; [|done].
  apply list_loop_acc.
Qed.

Lemma list_loop_nil : list_loop step [] [] = Ok [].
Proof. done. Qed.

Lemma list_loop_ok l :
  (forall x, x ∈ l -> is_ok (step x) = true) -> is_ok (list_loop step l []) = true.
Proof.
  intros H. apply for_each_ok. intros acc x Hx. specialize (H x Hx). by destruct (step x).
Qed.

Lemma list_loop_skip l :
  (forall x, x ∈ l -> step x = Ok None) -> list_loop step l [] = Ok [].
Proof.
  induction l as [|x l IH]; intros H; [done|].
  rewrite list_loop_cons, (H x), IH by set_solver. done.
Qed.

Lemma list_loop_Err l e :
  list_loop step l [] = Err e -> exists x, x ∈ l /\ step x = Err e.
Proof.
  intros (d & x & Hx & Hb)%for_each_Err. exists x. split; [done|].
  by apply bind_Err in Hb as [?|(o & ? & [=])].
Qed.

Lemma list_loop_steps l r x :
  list_loop step l [] = Ok r -> x ∈ l -> exists o, step x = Ok o.
Proof.
  revert r. induction l as [|y l IH]; intros r; [set_solver|].
  rewrite list_loop_cons.
  intros (o & Ho & (r' & Hr' & _)%bind_Ok)%bind_Ok [->|Hin]%elem_of_cons; eauto.
Qed.

Lemma list_loop_Forall (P : B -> Prop) l r :
  list_loop step l [] = Ok r ->
  (forall x b, x ∈ l -> step x = Ok (Some b) -> P b) -> Forall P r.
Proof.
  revert r. induction l as [|x l IH]; intros r.
  - intros [= <-] _. constructor.
  - rewrite list_loop_cons.
    intros (o & Ho & (r' & Hr' & [= <-])%bind_Ok)%bind_Ok Hstep.
    apply Forall_app. split.
    + destruct o; simpl; [|constructor]. repeat constructor. apply (Hstep x); [set_solver|done].
    + apply IH; [done|]. intros y b Hy. apply Hstep. set_solver.
Qed.
End ListLoop.

(** [compare_properties] and [build_action] are such loops. *)
Lemma compare_properties_loop {T} `{PyObject T} (old_object new_object : T) properties :
  compare_properties old_object new_object properties
  = list_loop (property_delta old_object new_object) properties [].
Proof.
  unfold compare_properties, list_loop. apply for_each_ext.
  intros acc [name from_type] _. unfold property_delta. simpl.
  destruct (getattr old_object name); simpl; [|done].
  destruct (converter _ from_type); simpl; [|done].
  destruct (getattr new_object name); simpl; [|done].
  destruct (converter _ from_type); simpl; [|done].
  destruct (py_eqb _ _); simpl; [by rewrite app_nil_r | done].
Qed.

Lemma build_action_loop {T} `{PyObject T} action (item : T) properties signals :
  build_action action item properties signals
  = (properties_list ← list_loop (inventory_delta action item) properties [];
     Ok (build_change action (VList properties_list) signals)).
Proof.
  unfold build_action, list_loop. f_equal. apply for_each_ext.
  intros acc [name from_type] _. unfold inventory_delta. simpl.
  destruct (getattr item name); simpl; [|done].
  destruct (converter _ from_type) as [value|]; simpl; [|done].
  destruct (String.eqb action "deleted"); [|destruct (String.eqb action "added")];
    try done; destruct (is_none value); simpl; by rewrite ?app_nil_r.
Qed.

(** ** The Property Differ *)

Lemma delta_name_delta name old new : delta_name (delta name old new) = Some name.
Proof. done. Qed.

Section PropertyDiffer.
Context {T : Type} `{PyObject T}.
Implicit Types (o n : T) (p : string * string) (properties : dict string string).

Lemma convertible_elem properties o p :
  convertible properties o = true -> p ∈ properties ->
  exists raw v, getattr o p.1 = Ok raw /\ converter raw p.2 = Ok v.
Proof.
  unfold convertible. rewrite forallb_forall.
  intros Hall Hin%list_elem_of_In. specialize (Hall p Hin).
  destruct (getattr o p.1) as [raw|]; [|done]. simpl in Hall.
  destruct (converter raw p.2) as [v|] eqn:E; [|done]. eauto.
Qed.

Lemma wf_object_elem properties o p raw :
  wf_object properties o = true -> p ∈ properties -> getattr o p.1 = Ok raw ->
  wf_val raw = true.
Proof.
  unfold wf_object. rewrite forallb_forall.
  intros Hall Hin%list_elem_of_In Hraw. specialize (Hall p Hin). by rewrite Hraw in Hall.
Qed.

Lemma nan_free_object_elem properties o p raw :
  nan_free_object properties o = true -> p ∈ properties -> getattr o p.1 = Ok raw ->
  negb (kept_as_is p.2) || nan_free raw = true.
Proof.
  unfold nan_free_object. rewrite forallb_forall.
  intros Hall Hin%list_elem_of_In Hraw. specialize (Hall p Hin). by rewrite Hraw in Hall.
Qed.

Lemma property_delta_ok properties o n p :
  convertible properties o = true -> convertible properties n = true -> p ∈ properties ->
  is_ok (property_delta o n p) = true.
Proof.
  intros Ho Hn Hp.
  destruct (convertible_elem _ _ _ Ho Hp) as (r1 & v1 & Hr1 & Hv1).
  destruct (convertible_elem _ _ _ Hn Hp) as (r2 & v2 & Hr2 & Hv2).
  unfold property_delta. rewrite Hr1. simpl. rewrite Hv1. simpl.
  rewrite Hr2. simpl. by rewrite Hv2.
Qed.

Lemma compare_properties_ok properties o n :
  convertible properties o = true -> convertible properties n = true ->
  exists r, compare_properties o n properties = Ok r.
Proof.
  intros Ho Hn. rewrite compare_properties_loop.
  pose proof (list_loop_ok (property_delta o n) properties) as Hok.
  destruct (list_loop _ _ _) as [r|e]; [eauto|].
  discriminate Hok. intros p Hp. by apply (property_delta_ok properties).
Qed.

(** Every step of [compare_properties] yields nothing or a delta that
    bears the name of the attribute. *)
Lemma property_delta_name o n p d :
  property_delta o n p = Ok (Some d) -> delta_name d = Some p.1.
Proof.
  unfold property_delta.
  intros (r1 & _ & (v1 & _ & (r2 & _ & (v2 & _ & Hd)%bind_Ok)%bind_Ok)%bind_Ok)%bind_Ok.
  destruct (py_eqb v1 v2); simpl in Hd; [done|]. by injection Hd as <-.
Qed.

Lemma compare_properties_unnamed properties o n r name :
  list_loop (property_delta o n) properties [] = Ok r ->
  name ∉ map fst properties ->
  deltas_named name r = [].
Proof. clear load_file.
  revert r. induction properties as [|q properties IH]; intros r.
  - by intros [= <-].
  - rewrite list_loop_cons.
    intros (o2 & Ho2 & (r2 & Hr2 & [= <-])%bind_Ok)%bind_Ok Hq.
    unfold deltas_named. rewrite List.filter_app. fold (deltas_named name r2).
    rewrite IH; [|done|set_solver]. rewrite app_nil_r.
    destruct o2 as [d|]; [|done]. simpl.
    rewrite (property_delta_name _ _ _ _ Ho2).
    destruct (String.eqb_spec q.1 name) as [Heq|]; [|done].
    exfalso. apply Hq. rewrite <- Heq. set_solver.
Qed.

(** The deltas that bear one attribute name are those of the turn of
    the loop for that attribute. *)
Lemma compare_properties_named properties o n r name from_type :
  compare_properties o n properties = Ok r ->
  NoDup (dict_keys properties) -> (name, from_type) ∈ properties ->
  exists od, property_delta o n (name, from_type) = Ok od
             /\ deltas_named name r = option_list od.
Proof.
  rewrite compare_properties_loop. unfold dict_keys.
  revert r. induction properties as [|p properties IH]; intros r; [set_solver|].
  rewrite list_loop_cons.
  intros (o1 & Ho1 & (r' & Hr' & [= <-])%bind_Ok)%bind_Ok.
  simpl. intros [Hp Hnd]%NoDup_cons Hin. unfold deltas_named.
  rewrite List.filter_app. fold (deltas_named name r').
  apply elem_of_cons in Hin as [<-|Hin].
  - exists o1. split; [done|].
    rewrite (compare_properties_unnamed properties o n r' name) by done.
    rewrite app_nil_r. destruct o1 as [d|]; [|done]. simpl.
    rewrite (property_delta_name _ _ _ _ Ho1). simpl. by rewrite String.eqb_refl.
  - destruct (IH r' Hr' Hnd Hin) as (od & Hod & Hnamed). exists od. split; [done|].
    rewrite Hnamed.
    assert (List.filter (fun d => match delta_name d with
                                  | Some n0 => String.eqb n0 name
                                  | None => false
                                  end) (option_list o1) = []) as ->; [|done].
    destruct o1 as [d|]; [|done]. simpl.
    rewrite (property_delta_name _ _ _ _ Ho1).
    destruct (String.eqb_spec p.1 name) as [Heq|]; [|done].
    exfalso. apply Hp. rewrite Heq. apply list_elem_of_fmap. by exists (name, from_type).
Qed.

(** Comparing an object with one that has the same normalised values
    yields no delta. *)
Lemma property_delta_same properties o n p :
  convertible properties o = true -> wf_object properties o = true ->
  nan_free_object properties o = true -> p ∈ properties ->
  getattr n p.1 = getattr o p.1 ->
  property_delta o n p = Ok None.
Proof.
  intros Ho Hwf Hnan Hp Hsame.
  destruct (convertible_elem _ _ _ Ho Hp) as (raw & v & Hraw & Hv).
  unfold property_delta. rewrite Hsame, Hraw. simpl. rewrite Hv. simpl.
  rewrite (converter_refl raw p.2 v); [done| | |done].
  - by apply (wf_object_elem properties o p).
  - by apply (nan_free_object_elem properties o p).
Qed.

Lemma compare_properties_same properties o :
  convertible properties o = true -> wf_object properties o = true ->
  nan_free_object properties o = true ->
  compare_properties o o properties = Ok [].
Proof.
  intros Ho Hwf Hnan. rewrite compare_properties_loop. apply list_loop_skip.
  intros p Hp. by apply (property_delta_same properties).
Qed.
End PropertyDiffer.

Lemma message_properties_NoDup : NoDup (dict_keys message_properties).
Proof. apply dict_lit_NoDup. Qed.

Lemma signal_properties_NoDup : NoDup (dict_keys signal_properties).
Proof. apply dict_lit_NoDup. Qed.

(** C8.  Hex normalisation of the message identifier.  Two messages whose
    [frame_id] is the integer 100 on both sides yield no property-delta named
    [frame_id]; identifiers 100 and 101 yield exactly one, whose old value
    is the string "0x64" and whose new value is the string "0x65". *)
Theorem frame_id_hex_delta (old_message new_message : Message) :
  convertible message_properties old_message = true ->
  convertible message_properties new_message = true ->
  getattr old_message "frame_id" = Ok (VInt 100) ->
  (getattr new_message "frame_id" = Ok (VInt 100) ->
   exists r, compare_properties old_message new_message message_properties = Ok r
             /\ deltas_named "frame_id" r = [])
  /\
  (getattr new_message "frame_id" = Ok (VInt 101) ->
   exists r, compare_properties old_message new_message message_properties = Ok r
             /\ deltas_named "frame_id" r
                = [delta "frame_id" (VStr "0x64") (VStr "0x65")]).
Proof.
  intros Ho Hn Hold.
  destruct (compare_properties_ok _ _ _ Ho Hn) as [r Hr].
  assert (Hin : ("frame_id", "hex") ∈ message_properties) by (apply list_elem_of_In; simpl; auto).
  destruct (compare_properties_named _ _ _ _ _ _ Hr message_properties_NoDup Hin)
    as (od & Hod & Hnamed).
  unfold property_delta in Hod. simpl in Hod. rewrite Hold in Hod.
  split; intros Hnew; rewrite Hnew in Hod; injection Hod as <-; exists r; by split.
Qed.

(** ** Choice tables *)

Global Instance item_le_total : Total item_le.
Proof.
  intros [k1 s1] [k2 s2]. unfold item_le. simpl.
  destruct (Z.lt_trichotomy k1 k2) as [?|[->|?]]; [auto| |auto].
  destruct (str_le_total s1 s2); auto.
Qed.

Global Instance item_le_trans : Transitive item_le.
Proof.
  intros [k1 s1] [k2 s2] [k3 s3]. unfold item_le. simpl.
  intros [?|[-> H12]] [?|[-> H23]]; [left; lia | auto | auto |].
  right. split; [done|]. by transitivity s2.
Qed.

Global Instance item_le_antisym : AntiSymm (=) item_le.
Proof.
  intros [k1 s1] [k2 s2]. unfold item_le. simpl.
  intros [?|[-> H12]] [?|[? H21]]; try lia. f_equal. by apply str_le_antisym.
Qed.

Lemma sorted_items_Sorted l : Sorted item_le (sorted_items l).
Proof. apply (Sorted_merge_sort item_le). Qed.

Lemma sorted_items_unique l1 l2 : l1 ≡ₚ l2 -> sorted_items l1 = sorted_items l2.
Proof.
  intros Hp. apply (Sorted_unique item_le); [apply sorted_items_Sorted..|].
  by rewrite !sorted_items_Permutation.
Qed.

(** With pairwise distinct keys, the sorted items are in strictly
    ascending order of their keys. *)
Lemma sorted_items_keys l : NoDup l.*1 -> StronglySorted Z.lt (sorted_items l).*1.
Proof.
  intros Hnd.
  assert (Hs : StronglySorted item_le (sorted_items l)).
  { apply Sorted_StronglySorted; [apply _ | apply sorted_items_Sorted]. }
  assert (Hnd' : NoDup (sorted_items l).*1) by by rewrite sorted_items_Permutation.
  induction Hs as [|x l' Hs IH Hx]; simpl; [constructor|].
  simpl in Hnd'. apply NoDup_cons in Hnd' as [Hx' Hnd'].
  constructor; [auto|]. apply Forall_fmap. apply Forall_forall.
  intros y Hy. rewrite Forall_forall in Hx. destruct (Hx y Hy) as [?|[Heq _]]; [done|].
  exfalso. apply Hx'. rewrite Heq. apply list_elem_of_fmap. eauto.
Qed.

Lemma dict_set_fresh {K V} `{EqDecision K} (d : dict K V) k v :
  k ∉ dict_keys d -> dict_set d k v = d ++ [(k, v)].
Proof.
  unfold dict_keys. induction d as [|[k0 v0] d IH]; simpl; [done|].
  intros Hk. destruct (decide (k0 = k)) as [->|]; [set_solver|].
  f_equal. apply IH. set_solver.
Qed.

(** A table whose integer keys are pairwise distinct is normalised item
    by item. *)
Lemma choices_loop_items d items :
  choice_items d = Ok items -> NoDup items.*1 -> choices_loop d = Ok items.
Proof.
  unfold choices_loop.
  assert (G : forall acc, choice_items d = Ok items -> NoDup (acc.*1 ++ items.*1) ->
            for_each d (fun (result : dict Z string) item =>
              number ← py_int item.1;
              Ok (dict_set result number (py_str item.2))) acc = Ok (acc ++ items)).
  2: { intros Hc Hnd. by rewrite (G []). }
  revert items. induction d as [|[k v] d IH]; intros items acc.
  - intros [= <-] _. by rewrite app_nil_r.
  - simpl. intros (n & Hn & (rest & Hrest & [= <-])%bind_Ok)%bind_Ok Hnd.
    rewrite Hn. simpl. rewrite dict_set_fresh.
    + rewrite (IH rest _ Hrest); [by rewrite <- app_assoc|].
      rewrite fmap_app. simpl. by rewrite <- app_assoc.
    + unfold dict_keys. simpl in Hnd. apply NoDup_app in Hnd as (_ & Hd & _).
      intros Hin. apply (Hd n); [done | set_solver].
Qed.

Lemma choice_items_insert d items i k v v' :
  choice_items d = Ok items -> d !! i = Some (k, v) ->
  exists n, py_int k = Ok n /\ items !! i = Some (n, py_str v)
            /\ choice_items (<[i := (k, v')]> d) = Ok (<[i := (n, py_str v')]> items).
Proof.
  revert items i. induction d as [|[k0 v0] d IH]; intros items i; [done|].
  simpl. intros (n & Hn & (rest & Hrest & [= <-])%bind_Ok)%bind_Ok.
  destruct i as [|i]; simpl.
  - intros [= -> ->]. exists n. split_and!; [done..|]. by rewrite Hn, Hrest.
  - intros Hi. destruct (IH rest i Hrest Hi) as (m & Hm & Hl & Hins).
    exists m. split_and!; [done..|]. by rewrite Hn, Hins.
Qed.

Lemma py_eqb_VDict d1 d2 :
  py_eqb (VDict d1) (VDict d2)
  = Nat.eqb (length d1) (length d2)
    && forallb (fun kv => match dict_get d2 kv.1 with
                          | Some v' => py_eqb kv.2 v'
                          | None => false
                          end) d1.
Proof. simpl. f_equal. induction d1 as [|[k v] d1 IH]; simpl; congruence. Qed.

Lemma py_eqb_VDict_differ d1 d2 k v v' :
  (k, v) ∈ d1 -> dict_get d2 k = Some v' -> py_eqb v v' = false ->
  py_eqb (VDict d1) (VDict d2) = false.
Proof.
  intros Hin Hget Hne. rewrite py_eqb_VDict. apply andb_false_intro2.
  apply not_true_is_false. rewrite forallb_forall. intros Hall.
  apply list_elem_of_In in Hin. specialize (Hall _ Hin). simpl in Hall.
  rewrite Hget in Hall. congruence.
Qed.

Local Arguments py_eqb : simpl never.

Lemma list_loop_single {A B} (step : A -> result (option B)) l1 x l2 b :
  (forall y, y ∈ l1 ++ l2 -> step y = Ok None) -> step x = Ok (Some b) ->
  list_loop step (l1 ++ x :: l2) [] = Ok [b].
Proof.
  intros Hnone Hx. induction l1 as [|y l1 IH]; simpl.
  - rewrite list_loop_cons, Hx. simpl. rewrite list_loop_skip; [done|].
    intros. apply Hnone. set_solver.
  - rewrite list_loop_cons, (Hnone y) by set_solver. simpl.
    rewrite IH; [done|]. intros. apply Hnone. set_solver.
Qed.

(** C7 (as amended).  Normalisation of choice tables whose keys, read as
    integers, are pairwise distinct.  Two signals whose choices tables
    have the same integer-key-to-label content (the items of one are a
    rearrangement of the items of the other once every key is read as an
    integer and every label as a string) yield no property-delta named
    [choices].  When the new signal differs from the old one in exactly one
    label of its choices table, and the attributes that are compared as
    they are hold no NaN, the comparison yields exactly one
    property-delta, named [choices], whose old and new values are the two
    tables with integer keys and string labels in strictly ascending order
    of the keys. *)
Theorem choices_normalization (old_signal new_signal : Signal)
    (d1 d2 : list (key * pyval)) (items1 items2 : list (Z * string)) :
  convertible signal_properties old_signal = true ->
  getattr old_signal "choices" = Ok (VDict d1) ->
  getattr new_signal "choices" = Ok (VDict d2) ->
  choice_items d1 = Ok items1 ->
  choice_items d2 = Ok items2 ->
  NoDup items1.*1 ->
  (convertible signal_properties new_signal = true -> items1 ≡ₚ items2 ->
   exists r, compare_properties old_signal new_signal signal_properties = Ok r
             /\ deltas_named "choices" r = [])
  /\
  (forall i k v v',
     wf_object signal_properties old_signal = true ->
     nan_free_object signal_properties old_signal = true ->
     (forall a, a ≠ "choices" -> getattr new_signal a = getattr old_signal a) ->
     d1 !! i = Some (k, v) -> d2 = <[i := (k, v')]> d1 -> py_str v ≠ py_str v' ->
     exists s1 s2,
       compare_properties old_signal new_signal signal_properties
       = Ok [delta "choices" (VDict (pydict_of_items s1)) (VDict (pydict_of_items s2))]
       /\ s1 ≡ₚ items1 /\ s2 ≡ₚ items2
       /\ StronglySorted Z.lt s1.*1 /\ StronglySorted Z.lt s2.*1).
Proof. clear load_file.
  intros Ho Hc1 Hc2 Hi1 Hi2 Hnd1.
  pose proof (choices_loop_items _ _ Hi1 Hnd1) as Hl1.
  assert (Hin : ("choices", "dict") ∈ signal_properties)
    by (apply list_elem_of_In; simpl; tauto).
  split.
  - intros Hn Hperm.
    assert (Hnd2 : NoDup items2.*1) by by rewrite <- Hperm.
    pose proof (choices_loop_items _ _ Hi2 Hnd2) as Hl2.
    destruct (compare_properties_ok _ _ _ Ho Hn) as [r Hr]. exists r. split; [done|].
    destruct (compare_properties_named _ _ _ _ _ _ Hr signal_properties_NoDup Hin)
      as (od & Hod & ->).
    unfold property_delta in Hod. simpl in Hod. rewrite Hc1, Hc2 in Hod. simpl in Hod.
    rewrite !converter_dict, Hl1, Hl2 in Hod. simpl in Hod.
    rewrite (sorted_items_unique items2 items1) in Hod by done.
    rewrite (py_eqb_refl (VDict _)) in Hod;
      [by injection Hod as <-| |apply normal_choices_nan_free].
    apply normal_choices_wf. by apply (choices_loop_NoDup d1).
  - intros i k v v' Hwf Hnan Hsame Hi -> Hne.
    destruct (choice_items_insert _ _ _ _ _ v' Hi1 Hi) as (n & Hn & Hit & Hins).
    rewrite Hins in Hi2. injection Hi2 as <-.
    assert (Hkeys : (<[i := (n, py_str v')]> items1).*1 = items1.*1).
    { rewrite list_fmap_insert. simpl. apply list_insert_id.
      by rewrite list_lookup_fmap, Hit. }
    assert (Hnd2 : NoDup (<[i := (n, py_str v')]> items1).*1) by by rewrite Hkeys.
    pose proof (choices_loop_items _ _ Hins Hnd2) as Hl2.
    exists (sorted_items items1), (sorted_items (<[i := (n, py_str v')]> items1)).
    split_and!; [|apply sorted_items_Permutation|apply sorted_items_Permutation
                 |by apply sorted_items_keys|by apply sorted_items_keys].
    rewrite compare_properties_loop.
    change signal_properties with
      (dict_lit [("minimum", "basic"); ("maximum", "basic"); ("start", "basic");
                 ("length", "basic"); ("byte_order", "basic"); ("is_signed", "basic");
                 ("initial", "str"); ("invalid", "basic"); ("unit", "basic");
                 ("scale", "basic"); ("offset", "basic"); ("is_float", "basic")]
       ++ ("choices", "dict") :: [("spn", "basic")]).
    apply list_loop_single.
    + intros p Hp. apply (property_delta_same signal_properties); [done..| |].
      * apply list_elem_of_In. apply list_elem_of_In in Hp. simpl in *. tauto.
      * apply Hsame. apply list_elem_of_In in Hp. simpl in Hp.
        intuition (subst; simpl; discriminate).
    + unfold property_delta. simpl. rewrite Hc1, Hc2. simpl.
      rewrite !converter_dict, Hl1, Hl2. simpl.
      rewrite (py_eqb_VDict_differ _ _ (KInt n) (VStr (py_str v)) (VStr (py_str v'))); [done| | |].
      * apply (list_elem_of_fmap_2 (fun kv : Z * string => (KInt kv.1, VStr kv.2)) _ (n, py_str v)).
        rewrite sorted_items_Permutation. by apply list_elem_of_lookup_2 in Hit.
      * apply dict_get_NoDup.
        { rewrite pydict_of_items_keys. apply NoDup_fmap; [by intros ?? [=]|].
          by rewrite sorted_items_Permutation. }
        apply (list_elem_of_fmap_2 (fun kv : Z * string => (KInt kv.1, VStr kv.2)) _ (n, py_str v')).
        rewrite sorted_items_Permutation. apply list_elem_of_lookup.
        exists i. apply list_lookup_insert_eq. by apply lookup_lt_Some in Hit.
      * simpl. by apply String.eqb_neq.
Qed.

(** ** The orchestration layers as dict loops *)

Lemma message_signals_loop action (sigs : dict string Signal) :
  message_signals action sigs
  = dict_loop (fun item => KStr item.1) (signal_item_step action) sigs [].
Proof.
  unfold message_signals, dict_loop. apply for_each_ext.
  intros d [name signal] _. unfold signal_item_step. simpl.
  by destruct (build_action action signal signal_properties VNone).
Qed.

Lemma bind_congr {A B} (m1 m2 : result A) (f g : A -> result B) :
  m1 = m2 -> (forall a, f a = g a) -> m1 ≫= f = m2 ≫= g.
Proof. intros -> Hfg. destruct m2; simpl; auto. Qed.

Lemma for_each_dict_loop {A V} (kf : A -> key) (step : A -> result (option V))
    (body : dict key V -> A -> result (dict key V)) l d0 :
  (forall d x, body d x
     = (o ← step x; Ok (match o with Some v => dict_set d (kf x) v | None => d end))) ->
  for_each l body d0 = dict_loop kf step l d0.
Proof. intros Hb. unfold dict_loop. apply for_each_ext. intros. apply Hb. Qed.

Lemma compare_messages_loops old_message new_message :
  compare_messages old_message new_message
  = (message_changes_list ←
       compare_properties old_message new_message message_properties;
     let cd := compare_dictionaries (msg_signals old_message) (msg_signals new_message) in
     c1 ← dict_loop KStr (same_signal_step old_message new_message) cd.1.2 [];
     c2 ← dict_loop KStr (signal_action_step "deleted" (msg_signals old_message)) cd.2 c1;
     c3 ← dict_loop KStr (signal_action_step "added" (msg_signals new_message)) cd.1.1 c2;
     Ok (message_changes_list, c3)).
Proof.
  unfold compare_messages. apply bind_congr; [done|]. intros mcl.
  destruct (compare_dictionaries _ _) as [[added same] deleted]. simpl.
  apply bind_congr; [|intros c1; apply bind_congr; [|intros c2; apply bind_congr; [|done]]].
  - apply for_each_dict_loop. intros d name. unfold same_signal_step.
    destruct (dict_index (msg_signals old_message) name); simpl; [|done].
    destruct (dict_index (msg_signals new_message) name); simpl; [|done].
    destruct (compare_properties _ _ _) as [cl|]; simpl; [|done].
    by destruct (Nat.ltb 0 (length cl)).
  - apply for_each_dict_loop. intros d name. unfold signal_action_step.
    destruct (dict_index (msg_signals old_message) name); simpl; [|done].
    by destruct (build_action _ _ _ _).
  - apply for_each_dict_loop. intros d name. unfold signal_action_step.
    destruct (dict_index (msg_signals new_message) name); simpl; [|done].
    by destruct (build_action _ _ _ _).
Qed.

Lemma compare_dbc_loops old_path new_path :
  compare_dbc old_path new_path
  = (old ← dbc_loader old_path;
     new ← dbc_loader new_path;
     let cd := compare_dictionaries old.1 new.1 in
     r1 ← dict_loop KStr (same_message_step old.1 new.1) cd.1.2 [];
     r2 ← dict_loop KStr (message_action_step "deleted" old.1) cd.2 r1;
     r3 ← dict_loop KStr (message_action_step "added" new.1) cd.1.1 r2;
     Ok (r3, versions_of old_path new_path old.2 new.2)).
Proof.
  unfold compare_dbc. apply bind_congr; [done|]. intros [old_dbc old_version].
  apply bind_congr; [done|]. intros [new_dbc new_version].
  cbn [fst snd]. destruct (compare_dictionaries old_dbc new_dbc) as [[added same] deleted].
  simpl.
  apply bind_congr; [|intros c1; apply bind_congr; [|intros c2; apply bind_congr; [|done]]].
  - apply for_each_dict_loop. intros d name. unfold same_message_step.
    destruct (dict_index old_dbc name); simpl; [|done].
    destruct (dict_index new_dbc name); simpl; [|done].
    destruct (compare_messages _ _) as [[ml sc]|]; simpl; [|done].
    by destruct (_ || _).
  - apply for_each_dict_loop. intros d name. unfold message_action_step.
    destruct (dict_index old_dbc name); simpl; [|done].
    destruct (message_signals _ _); simpl; [|done].
    by destruct (build_action _ _ _ _).
  - apply for_each_dict_loop. intros d name. unfold message_action_step.
    destruct (dict_index new_dbc name); simpl; [|done].
    destruct (message_signals _ _); simpl; [|done].
    by destruct (build_action _ _ _ _).
Qed.

Lemma get_report_loops old_files new_files unchanged :
  get_report old_files new_files unchanged
  = (let cd := compare_dictionaries old_files new_files in
     r1 ← dict_loop KStr (file_added_step new_files) cd.1.1 [];
     r2 ← dict_loop KStr (file_deleted_step old_files) cd.2 r1;
     dict_loop KStr (file_same_step old_files new_files unchanged) cd.1.2 r2).
Proof.
  unfold get_report.
  destruct (compare_dictionaries _ _) as [[added same] deleted]. simpl.
  apply bind_congr; [|intros c1; apply bind_congr; [|intros c2]].
  - apply for_each_dict_loop. intros d name. unfold file_added_step.
    destruct (dict_index new_files name); simpl; [|done].
    by destruct (compare_dbc _ _) as [[r vs]|].
  - apply for_each_dict_loop. intros d name. unfold file_deleted_step.
    destruct (dict_index old_files name); simpl; [|done].
    by destruct (compare_dbc _ _) as [[r vs]|].
  - apply for_each_dict_loop. intros d name. unfold file_same_step.
    destruct (dict_index old_files name); simpl; [|done].
    destruct (dict_index new_files name); simpl; [|done].
    destruct (compare_dbc _ _) as [[r vs]|]; simpl; [|done].
    destruct (pydict_index vs _); simpl; [|done].
    destruct (_ || _); [done|]. by destruct unchanged.
Qed.

(** ** The fatal branch of the builder *)

Local Arguments compare_dictionaries : simpl never.

(** Splits a failed chain of binds into the step that failed. *)
Ltac split_failure H :=
  repeat (cbv beta zeta in H;
          match type of H with
          | mbind _ _ = Err _ =>
              let a := fresh "a" in let Ha := fresh "Ha" in
              apply bind_Err in H as [H|(a & Ha & H)]
          end).

Lemma dict_index_no_critical {V} (d : dict string V) k : dict_index d k ≠ Err CriticalError.
Proof. unfold dict_index. by destruct (dict_get d k). Qed.

Lemma pydict_index_no_critical {V} (d : dict key V) k : pydict_index d k ≠ Err CriticalError.
Proof. unfold pydict_index. by destruct (dict_get d k). Qed.

Lemma getattr_no_critical {T} `{PyObject T} (o : T) name : getattr o name ≠ Err CriticalError.
Proof. unfold getattr. by destruct (dict_get _ _). Qed.

Section Builder.
Context {T : Type} `{PyObject T}.
Implicit Types (item : T) (p : string * string) (properties : dict string string).

Lemma inventory_delta_no_critical action item p :
  action = "added" \/ action = "deleted" ->
  inventory_delta action item p ≠ Err CriticalError.
Proof.
  intros Ha Hq. unfold inventory_delta in Hq.
  apply bind_Err in Hq as [Hq|(raw & _ & Hq)]; [by apply getattr_no_critical in Hq|].
  apply bind_Err in Hq as [Hq|(v & _ & Hq)]; [by apply converter_no_critical in Hq|].
  by destruct Ha as [-> | ->].
Qed.

Lemma build_action_no_critical action item properties sigs :
  action = "added" \/ action = "deleted" ->
  build_action action item properties sigs ≠ Err CriticalError.
Proof.
  intros Ha Hq. rewrite build_action_loop in Hq.
  apply bind_Err in Hq as [Hq|(l & _ & [=])].
  apply list_loop_Err in Hq as (p & _ & Hq). by apply inventory_delta_no_critical in Hq.
Qed.

(** With a schema that is not empty, any other action never gives a
    record, and raises the critical error as soon as the first attribute
    of the schema has been read and normalised. *)
Lemma build_action_unknown action item p properties sigs :
  action ≠ "added" -> action ≠ "deleted" ->
  is_ok (build_action action item (p :: properties) sigs) = false
  /\ (is_ok (raw ← getattr item p.1; converter raw p.2) = true ->
      build_action action item (p :: properties) sigs = Err CriticalError).
Proof.
  intros Hadd Hdel. rewrite build_action_loop, list_loop_cons.
  unfold inventory_delta.
  apply String.eqb_neq in Hadd, Hdel. rewrite Hadd, Hdel.
  destruct (getattr item p.1) as [raw|]; simpl; [|done].
  by destruct (converter raw p.2).
Qed.

Lemma property_delta_no_critical (o n : T) p : property_delta o n p ≠ Err CriticalError.
Proof.
  intros Hq. unfold property_delta in Hq. split_failure Hq; try done.
  - by apply getattr_no_critical in Hq.
  - by apply converter_no_critical in Hq.
  - by apply getattr_no_critical in Hq.
  - by apply converter_no_critical in Hq.
Qed.

Lemma compare_properties_no_critical (o n : T) properties :
  compare_properties o n properties ≠ Err CriticalError.
Proof.
  rewrite compare_properties_loop. intros (p & _ & Hq)%list_loop_Err.
  by apply property_delta_no_critical in Hq.
Qed.
End Builder.

Lemma message_signals_no_critical action sigs :
  action = "added" \/ action = "deleted" ->
  message_signals action sigs ≠ Err CriticalError.
Proof.
  intros Ha. rewrite message_signals_loop. intros (item & _ & Hq)%dict_loop_Err.
  unfold signal_item_step in Hq. split_failure Hq; [|done].
  by apply build_action_no_critical in Hq.
Qed.

Lemma signal_action_step_no_critical action sigs name :
  action = "added" \/ action = "deleted" ->
  signal_action_step action sigs name ≠ Err CriticalError.
Proof.
  intros Ha Hq. unfold signal_action_step in Hq. split_failure Hq; [| |done].
  - by apply dict_index_no_critical in Hq.
  - by apply build_action_no_critical in Hq.
Qed.

Lemma compare_messages_no_critical old_message new_message :
  compare_messages old_message new_message ≠ Err CriticalError.
Proof.
  rewrite compare_messages_loops. intros Hq. split_failure Hq; [| | | |done].
  - by apply compare_properties_no_critical in Hq.
  - apply dict_loop_Err in Hq as (name & _ & Hq). unfold same_signal_step in Hq.
    split_failure Hq; [| | |done].
    + by apply dict_index_no_critical in Hq.
    + by apply dict_index_no_critical in Hq.
    + by apply compare_properties_no_critical in Hq.
  - apply dict_loop_Err in Hq as (name & _ & Hq).
    apply signal_action_step_no_critical in Hq; auto.
  - apply dict_loop_Err in Hq as (name & _ & Hq).
    apply signal_action_step_no_critical in Hq; auto.
Qed.

Lemma dbc_loader_no_critical path : dbc_loader path ≠ Err CriticalError.
Proof. destruct path as [path|]; simpl; [|done]. by destruct (load_file path). Qed.

Lemma message_action_step_no_critical action dbc name :
  action = "added" \/ action = "deleted" ->
  message_action_step action dbc name ≠ Err CriticalError.
Proof.
  intros Ha Hq. unfold message_action_step in Hq. split_failure Hq; [| | |done].
  - by apply dict_index_no_critical in Hq.
  - by apply message_signals_no_critical in Hq.
  - by apply build_action_no_critical in Hq.
Qed.

Lemma compare_dbc_no_critical old_path new_path :
  compare_dbc old_path new_path ≠ Err CriticalError.
Proof.
  rewrite compare_dbc_loops. intros Hq. split_failure Hq; [| | | | |done].
  - by apply dbc_loader_no_critical in Hq.
  - by apply dbc_loader_no_critical in Hq.
  - apply dict_loop_Err in Hq as (name & _ & Hq). unfold same_message_step in Hq.
    split_failure Hq; [| | |done].
    + by apply dict_index_no_critical in Hq.
    + by apply dict_index_no_critical in Hq.
    + by apply compare_messages_no_critical in Hq.
  - apply dict_loop_Err in Hq as (name & _ & Hq).
    apply message_action_step_no_critical in Hq; auto.
  - apply dict_loop_Err in Hq as (name & _ & Hq).
    apply message_action_step_no_critical in Hq; auto.
Qed.

Lemma get_report_no_critical old_files new_files unchanged :
  get_report old_files new_files unchanged ≠ Err CriticalError.
Proof.
  rewrite get_report_loops. intros Hq. split_failure Hq.
  - apply dict_loop_Err in Hq as (name & _ & Hq). unfold file_added_step in Hq.
    split_failure Hq; [| |done].
    + by apply dict_index_no_critical in Hq.
    + by apply compare_dbc_no_critical in Hq.
  - apply dict_loop_Err in Hq as (name & _ & Hq). unfold file_deleted_step in Hq.
    split_failure Hq; [| |done].
    + by apply dict_index_no_critical in Hq.
    + by apply compare_dbc_no_critical in Hq.
  - apply dict_loop_Err in Hq as (name & _ & Hq). unfold file_same_step in Hq.
    split_failure Hq; [| | | |done].
    + by apply dict_index_no_critical in Hq.
    + by apply dict_index_no_critical in Hq.
    + by apply compare_dbc_no_critical in Hq.
    + by apply pydict_index_no_critical in Hq.
Qed.

(** C9.  The fatal branch of the entity-change builder.  With either schema
    table of the program, an action other than "added" and "deleted" never
    yields a record: [build_action] raises, and what it raises is the
    critical error whenever the first attribute of the schema can be read
    and normalised.  No call the program makes reaches that branch: the
    property differ, the message differ, the catalog differ and the
    file-set differ never end in the critical error, whatever their
    inputs. *)
Theorem unknown_action_fatal_and_unreachable :
  (forall (action : string) (m : Message) (s : Signal) (sigs : pyval),
      action ≠ "added" -> action ≠ "deleted" ->
      is_ok (build_action action m message_properties sigs) = false
      /\ is_ok (build_action action s signal_properties sigs) = false
      /\ (convertible message_properties m = true ->
          build_action action m message_properties sigs = Err CriticalError)
      /\ (convertible signal_properties s = true ->
          build_action action s signal_properties sigs = Err CriticalError))
  /\ (forall old_message new_message,
        compare_messages old_message new_message ≠ Err CriticalError)
  /\ (forall action sigs, action = "added" \/ action = "deleted" ->
        message_signals action sigs ≠ Err CriticalError)
  /\ (forall old_path new_path, compare_dbc old_path new_path ≠ Err CriticalError)
  /\ (forall old_files new_files unchanged,
        get_report old_files new_files unchanged ≠ Err CriticalError).
Proof.
  split_and!.
  - intros action m s sigs Hadd Hdel.
    destruct (build_action_unknown action m ("frame_id", "hex")
                (tail message_properties) sigs Hadd Hdel) as [Hm1 Hm2].
    destruct (build_action_unknown action s ("minimum", "basic")
                (tail signal_properties) sigs Hadd Hdel) as [Hs1 Hs2].
    split_and!; [done|done| |].
    + intros Hc. apply Hm2. unfold convertible in Hc. simpl in Hc.
      by apply andb_prop in Hc as [Hc _].
    + intros Hc. apply Hs2. unfold convertible in Hc. simpl in Hc.
      by apply andb_prop in Hc as [Hc _].
  - apply compare_messages_no_critical.
  - apply message_signals_no_critical.
  - apply compare_dbc_no_critical.
  - apply get_report_no_critical.
Qed.

(** ** Three loops in a row over disjoint lists of names *)

Section ThreeLoops.
Context {V : Type} (s1 s2 s3 : string -> result (option V)).
Context (l1 l2 l3 : list string) (r1 r2 r3 : dict key V).
Hypothesis Hrun1 : dict_loop KStr s1 l1 [] = Ok r1.
Hypothesis Hrun2 : dict_loop KStr s2 l2 r1 = Ok r2.
Hypothesis Hrun3 : dict_loop KStr s3 l3 r2 = Ok r3.
Hypothesis Hdisj : NoDup (l1 ++ l2 ++ l3).

Local Lemma KStr_same (s : string -> result (option V)) (l : list string) :
  forall y z : string, y ∈ l -> z ∈ l -> KStr y = KStr z -> s y = s z.
Proof. by intros y z _ _ [= ->]. Qed.

Lemma three_loops_first name :
  name ∈ l1 -> exists o, s1 name = Ok o /\ dict_get r3 (KStr name) = o.
Proof using Hrun1 Hrun2 Hrun3 Hdisj. clear load_file.
  intros Hin.
  destruct (dict_loop_lookup _ _ _ _ _ name Hrun1 (KStr_same s1 l1) Hin) as (o & Ho & Hget).
  exists o. split; [done|].
  apply NoDup_app in Hdisj as (_ & Hd1 & Hd23). specialize (Hd1 name Hin).
  rewrite (dict_loop_other _ _ _ _ _ (KStr name) Hrun3).
  2: { intros x Hx [= ->]. apply Hd1. set_solver. }
  rewrite (dict_loop_other _ _ _ _ _ (KStr name) Hrun2).
  2: { intros x Hx [= ->]. apply Hd1. set_solver. }
  rewrite Hget. by destruct o.
Qed.

Lemma three_loops_absent name :
  name ∉ l1 ++ l2 ++ l3 -> dict_get r3 (KStr name) = None.
Proof using Hrun1 Hrun2 Hrun3. clear Hdisj load_file py_repr.
  intros Hnin.
  rewrite (dict_loop_other _ _ _ _ _ (KStr name) Hrun3) by (intros x Hx [= ->]; set_solver).
  rewrite (dict_loop_other _ _ _ _ _ (KStr name) Hrun2) by (intros x Hx [= ->]; set_solver).
  rewrite (dict_loop_other _ _ _ _ _ (KStr name) Hrun1) by (intros x Hx [= ->]; set_solver).
  done.
Qed.

Lemma three_loops_second name :
  name ∈ l2 -> exists o, s2 name = Ok o /\ dict_get r3 (KStr name) = o.
Proof using Hrun1 Hrun2 Hrun3 Hdisj. clear load_file.
  intros Hin.
  destruct (dict_loop_lookup _ _ _ _ _ name Hrun2 (KStr_same s2 l2) Hin) as (o & Ho & Hget).
  exists o. split; [done|].
  apply NoDup_app in Hdisj as (_ & Hd1 & Hd23).
  apply NoDup_app in Hd23 as (_ & Hd2 & _). specialize (Hd2 name Hin).
  rewrite (dict_loop_other _ _ _ _ _ (KStr name) Hrun3).
  2: { intros x Hx [= ->]. by apply Hd2. }
  rewrite Hget. destruct o; [done|].
  apply (dict_loop_other _ _ _ _ _ (KStr name) Hrun1).
  intros x Hx [= ->]. apply (Hd1 name Hx). set_solver.
Qed.

Lemma three_loops_third name :
  name ∈ l3 -> exists o, s3 name = Ok o /\ dict_get r3 (KStr name) = o.
Proof using Hrun1 Hrun2 Hrun3 Hdisj. clear load_file.
  intros Hin.
  destruct (dict_loop_lookup _ _ _ _ _ name Hrun3 (KStr_same s3 l3) Hin) as (o & Ho & Hget).
  exists o. split; [done|].
  apply NoDup_app in Hdisj as (_ & Hd1 & Hd23).
  apply NoDup_app in Hd23 as (_ & Hd2 & _).
  rewrite Hget. destruct o; [done|].
  rewrite (dict_loop_other _ _ _ _ _ (KStr name) Hrun2).
  2: { intros x Hx [= ->]. by apply (Hd2 name Hx). }
  apply (dict_loop_other _ _ _ _ _ (KStr name) Hrun1).
  intros x Hx [= ->]. apply (Hd1 name Hx). set_solver.
Qed.

Lemma three_loops_values (P : V -> Prop) :
  (forall x v, x ∈ l1 -> s1 x = Ok (Some v) -> P v) ->
  (forall x v, x ∈ l2 -> s2 x = Ok (Some v) -> P v) ->
  (forall x v, x ∈ l3 -> s3 x = Ok (Some v) -> P v) ->
  Forall P (dict_values r3).
Proof using Hrun1 Hrun2 Hrun3.
  intros H1 H2 H3.
  apply (dict_loop_values _ _ P _ _ _ Hrun3); [|done].
  apply (dict_loop_values _ _ P _ _ _ Hrun2); [|done].
  apply (dict_loop_values _ _ P _ _ _ Hrun1); [constructor|done].
Qed.

Lemma three_loops_keys :
  Forall (fun k => exists name, k = KStr name /\ name ∈ l1 ++ l2 ++ l3) (dict_keys r3).
Proof using Hrun1 Hrun2 Hrun3. clear load_file Hdisj.
  apply (dict_loop_keys _ _ _ _ _ _ Hrun3); [|intros x Hx; exists x; set_solver].
  apply (dict_loop_keys _ _ _ _ _ _ Hrun2); [|intros x Hx; exists x; set_solver].
  apply (dict_loop_keys _ _ _ _ _ _ Hrun1); [constructor|intros x Hx; exists x; set_solver].
Qed.
End ThreeLoops.

(** ** The Catalog Differ *)

Lemma cd_NoDup_sda {A B} (old : dict string A) (new : dict string B) :
  let cd := compare_dictionaries old new in NoDup (cd.1.2 ++ cd.2 ++ cd.1.1).
Proof.
  intros cd. pose proof (cd_NoDup old new) as Hn. fold cd in Hn.
  by rewrite (app_assoc cd.1.2), (Permutation_app_comm (cd.1.2 ++ cd.2)).
Qed.

Lemma cd_NoDup_ads {A B} (old : dict string A) (new : dict string B) :
  let cd := compare_dictionaries old new in NoDup (cd.1.1 ++ cd.2 ++ cd.1.2).
Proof.
  intros cd. pose proof (cd_NoDup old new) as Hn. fold cd in Hn.
  by rewrite (Permutation_app_comm cd.2).
Qed.

Lemma dbc_loader_None : dbc_loader None = Ok ([], VNone).
Proof. done. Qed.

Lemma dbc_loader_version path catalog v :
  dbc_loader path = Ok (catalog, v) ->
  (is_Some (side path) <-> is_Some path)
  /\ v = match side_version (side path) with Some s => VStr s | None => VNone end.
Proof.
  destruct path as [path|]; simpl.
  - destruct (load_file path) as [db|]; simpl; [|done]. intros [= _ <-].
    split; [|done]. split; eauto.
  - intros [= _ <-]. split; [|done]. split; by intros [? [=]].
Qed.

Lemma compare_dbc_inv old_path new_path r vs :
  compare_dbc old_path new_path = Ok (r, vs) ->
  exists old_dbc old_version new_dbc new_version r1 r2,
    dbc_loader old_path = Ok (old_dbc, old_version)
    /\ dbc_loader new_path = Ok (new_dbc, new_version)
    /\ dict_loop KStr (same_message_step old_dbc new_dbc)
         (compare_dictionaries old_dbc new_dbc).1.2 [] = Ok r1
    /\ dict_loop KStr (message_action_step "deleted" old_dbc)
         (compare_dictionaries old_dbc new_dbc).2 r1 = Ok r2
    /\ dict_loop KStr (message_action_step "added" new_dbc)
         (compare_dictionaries old_dbc new_dbc).1.1 r2 = Ok r
    /\ vs = versions_of old_path new_path old_version new_version.
Proof.
  rewrite compare_dbc_loops.
  intros ([old_dbc ov] & Ho & ([new_dbc nv] & Hn & Hq)%bind_Ok)%bind_Ok.
  cbv beta zeta in Hq. cbn [fst snd] in Hq.
  apply bind_Ok in Hq as (r1 & H1 & Hq). apply bind_Ok in Hq as (r2 & H2 & Hq).
  apply bind_Ok in Hq as (r3 & H3 & [= <- <-]).
  exists old_dbc, ov, new_dbc, nv, r1, r2. by split_and!.
Qed.

Lemma versions_of_same_version old_path new_path ov nv :
  dict_get (versions_of old_path new_path ov nv) (KStr "same_version")
  = Some (VBool (py_eqb ov nv)).
Proof. unfold versions_of. apply dict_get_set_eq. Qed.

Lemma versions_of_old old_path new_path ov nv :
  dict_get (versions_of old_path new_path ov nv) (KStr "old_version")
  = if old_path is Some _ then Some ov else None.
Proof. by destruct old_path, new_path. Qed.

Lemma versions_of_new old_path new_path ov nv :
  dict_get (versions_of old_path new_path ov nv) (KStr "new_version")
  = if new_path is Some _ then Some nv else None.
Proof. by destruct old_path, new_path. Qed.

Lemma versions_of_NoDup old_path new_path ov nv :
  NoDup (dict_keys (versions_of old_path new_path ov nv)).
Proof. unfold versions_of. destruct old_path, new_path; repeat apply dict_set_NoDup; constructor. Qed.

Lemma versions_of_keys old_path new_path ov nv k :
  is_Some (dict_get (versions_of old_path new_path ov nv) k) ->
  k = KStr "new_version" \/ k = KStr "old_version" \/ k = KStr "same_version".
Proof. clear py_repr load_file.
  rewrite dict_get_is_Some.
  destruct old_path, new_path; cbn; rewrite ?elem_of_cons; set_solver.
Qed.

Lemma version_eqb (a b : option string) :
  py_eqb (match a with Some s => VStr s | None => VNone end)
         (match b with Some s => VStr s | None => VNone end)
  = bool_decide (a = b).
Proof.
  destruct a as [a|], b as [b|]; try done. unfold py_eqb.
  destruct (String.eqb_spec a b) as [->|Hne].
  - by rewrite bool_decide_eq_true_2.
  - rewrite bool_decide_eq_false_2; [done|]. by intros [= ->].
Qed.

Lemma versions_of_side path v :
  (is_Some (side path) <-> is_Some path) ->
  v = match side_version (side path) with Some s => VStr s | None => VNone end ->
  (if path is Some _ then Some v else None) = VStr <$> side_version (side path).
Proof.
  intros Hs ->. destruct path as [path|]; [|done].
  destruct (side (Some path)) as [db|]; [done|].
  destruct Hs as [_ Hs]. by destruct Hs as [? [=]]; eauto.
Qed.

(** C5 (as amended).  Whenever a catalog comparison returns, its version
    metadata holds [same_version], which tells whether the two sides have the
    same version, where the version of a supplied side is the version string
    of its catalog, "unknown" standing for a null or empty one, and the
    version of an absent side is null (equal to the version of another
    absent side only); [old_version] (resp. [new_version]) is present, with
    the version of that side, exactly when the old (resp. new) side was
    supplied. *)
Theorem version_metadata old_path new_path r vs :
  compare_dbc old_path new_path = Ok (r, vs) ->
  let old_side := side old_path in
  let new_side := side new_path in
  (is_Some old_side <-> is_Some old_path)
  /\ (is_Some new_side <-> is_Some new_path)
  /\ dict_get vs (KStr "same_version")
     = Some (VBool (bool_decide (side_version old_side = side_version new_side)))
  /\ dict_get vs (KStr "old_version") = VStr <$> side_version old_side
  /\ dict_get vs (KStr "new_version") = VStr <$> side_version new_side
  /\ (is_Some (dict_get vs (KStr "old_version")) <-> is_Some old_path)
  /\ (is_Some (dict_get vs (KStr "new_version")) <-> is_Some new_path).
Proof.
  intros (X & ov & Y & nv & r1 & r2 & Ho & Hn & _ & _ & _ & ->)%compare_dbc_inv.
  apply dbc_loader_version in Ho as [Hso Hov], Hn as [Hsn Hnv]. cbv zeta.
  rewrite versions_of_same_version, versions_of_old, versions_of_new.
  rewrite (versions_of_side old_path ov Hso Hov).
  rewrite (versions_of_side new_path nv Hsn Hnv).
  split_and!; try done.
  - by rewrite Hov, Hnv, version_eqb.
  - rewrite <- Hso. destruct (side old_path); simpl; split; intros [? [=]]; eauto.
  - rewrite <- Hsn. destruct (side new_path); simpl; split; intros [? [=]]; eauto.
Qed.

(** ** The File-Set Differ *)

Lemma versions_of_absent old_path new_path ov nv k :
  k ≠ KStr "new_version" -> k ≠ KStr "old_version" -> k ≠ KStr "same_version" ->
  dict_get (versions_of old_path new_path ov nv) k = None.
Proof.
  intros H1 H2 H3. destruct (dict_get _ k) eqn:E; [|done].
  destruct (versions_of_keys old_path new_path ov nv k) as [?|[?|?]]; [eauto|done..].
Qed.

Lemma wrapped_union action dr old_path new_path ov nv :
  action ∈ ["added"; "deleted"; "changed"; "unchanged"] ->
  wrapped action dr (versions_of old_path new_path ov nv)
    (Some (VDict (dict_union (build_change action (VDict dr) VNone)
                             (versions_of old_path new_path ov nv)))).
Proof.
  intros Ha. eexists. split; [done|].
  assert (Hact : dict_get (versions_of old_path new_path ov nv) (KStr "action") = None)
    by by apply versions_of_absent.
  assert (Hk : dict_get (versions_of old_path new_path ov nv) (KStr action) = None).
  { apply versions_of_absent; intros [= ->];
      repeat (apply elem_of_cons in Ha as [?|Ha]; [done|]); by apply elem_of_nil in Ha. }
  split_and!.
  - rewrite dict_get_union, Hact by apply versions_of_NoDup.
    repeat (apply elem_of_cons in Ha as [->|Ha]; [done|]). by apply elem_of_nil in Ha.
  - rewrite dict_get_union, Hk by apply versions_of_NoDup.
    repeat (apply elem_of_cons in Ha as [->|Ha]; [done|]). by apply elem_of_nil in Ha.
  - intros k v Hkv. by rewrite dict_get_union, Hkv by apply versions_of_NoDup.
Qed.

Lemma get_report_inv old_files new_files unchanged report :
  get_report old_files new_files unchanged = Ok report ->
  exists r1 r2,
    dict_loop KStr (file_added_step new_files)
      (compare_dictionaries old_files new_files).1.1 [] = Ok r1
    /\ dict_loop KStr (file_deleted_step old_files)
         (compare_dictionaries old_files new_files).2 r1 = Ok r2
    /\ dict_loop KStr (file_same_step old_files new_files unchanged)
         (compare_dictionaries old_files new_files).1.2 r2 = Ok report.
Proof.
  rewrite get_report_loops. cbv zeta.
  intros (r1 & H1 & (r2 & H2 & H3)%bind_Ok)%bind_Ok. eauto.
Qed.

Lemma dict_index_Ok {V} (d : dict string V) k v : dict_index d k = Ok v -> dict_get d k = Some v.
Proof. unfold dict_index. destruct (dict_get d k); by intros [= ->]. Qed.

Lemma dict_index_elem {V} (d : dict string V) k :
  k ∈ dict_keys d -> exists v, dict_index d k = Ok v /\ dict_get d k = Some v.
Proof.
  intros [v Hv]%dict_get_is_Some. exists v. unfold dict_index. by rewrite Hv.
Qed.

(** C6 (as amended).  For every pair of file collections and every value of
    the include-unchanged flag, whenever the file-set differ returns a
    report: a file of the new collection only is diffed with the old side
    absent and wrapped "added"; a file of the old collection only is diffed
    with the new side absent and wrapped "deleted"; a file of both is
    diffed on its two paths and wrapped "changed" exactly when the catalog
    diff is not empty or the versions differ, otherwise wrapped "unchanged"
    if the caller opted in and left out if not; no other name has an
    entry. *)
Theorem file_set_report old_files new_files unchanged report :
  get_report old_files new_files unchanged = Ok report ->
  forall file,
    (file ∉ dict_keys old_files -> file ∈ dict_keys new_files ->
     exists new_path dr vs,
       dict_get new_files file = Some new_path
       /\ compare_dbc None (Some new_path) = Ok (dr, vs)
       /\ wrapped "added" dr vs (dict_get report (KStr file)))
    /\ (file ∈ dict_keys old_files -> file ∉ dict_keys new_files ->
        exists old_path dr vs,
          dict_get old_files file = Some old_path
          /\ compare_dbc (Some old_path) None = Ok (dr, vs)
          /\ wrapped "deleted" dr vs (dict_get report (KStr file)))
    /\ (file ∈ dict_keys old_files -> file ∈ dict_keys new_files ->
        exists old_path new_path dr vs same_version,
          dict_get old_files file = Some old_path
          /\ dict_get new_files file = Some new_path
          /\ compare_dbc (Some old_path) (Some new_path) = Ok (dr, vs)
          /\ dict_get vs (KStr "same_version") = Some (VBool same_version)
          /\ if Nat.ltb 0 (length dr) || negb same_version
             then wrapped "changed" dr vs (dict_get report (KStr file))
             else if unchanged
                  then wrapped "unchanged" dr vs (dict_get report (KStr file))
                  else dict_get report (KStr file) = None)
    /\ (file ∉ dict_keys old_files -> file ∉ dict_keys new_files ->
        dict_get report (KStr file) = None).
Proof.
  intros (r1 & r2 & H1 & H2 & H3)%get_report_inv file.
  pose proof (cd_NoDup_ads old_files new_files) as Hnd. cbv zeta in Hnd.
  split_and!.
  - intros Ho Hn.
    destruct (three_loops_first _ _ _ _ _ _ _ _ _ H1 H2 H3 Hnd file) as (o & Ho' & ->).
    { apply elem_of_cd_added. auto. }
    unfold file_added_step in Ho'.
    apply bind_Ok in Ho' as (path & Hp%dict_index_Ok & Hq).
    apply bind_Ok in Hq as ([dr vs] & Hd & [= <-]).
    exists path, dr, vs. split_and!; [done..|].
    apply compare_dbc_inv in Hd as (? & ? & ? & ? & ? & ? & _ & _ & _ & _ & _ & ->).
    apply wrapped_union. set_solver.
  - intros Ho Hn.
    destruct (three_loops_second _ _ _ _ _ _ _ _ _ H1 H2 H3 Hnd file) as (o & Ho' & ->).
    { apply elem_of_cd_deleted. auto. }
    unfold file_deleted_step in Ho'.
    apply bind_Ok in Ho' as (path & Hp%dict_index_Ok & Hq).
    apply bind_Ok in Hq as ([dr vs] & Hd & [= <-]).
    exists path, dr, vs. split_and!; [done..|].
    apply compare_dbc_inv in Hd as (? & ? & ? & ? & ? & ? & _ & _ & _ & _ & _ & ->).
    apply wrapped_union. set_solver.
  - intros Ho Hn.
    destruct (three_loops_third _ _ _ _ _ _ _ _ _ H1 H2 H3 Hnd file) as (o & Ho' & ->).
    { apply elem_of_cd_same. auto. }
    unfold file_same_step in Ho'.
    apply bind_Ok in Ho' as (po & Hpo%dict_index_Ok & Hq).
    apply bind_Ok in Hq as (pn & Hpn%dict_index_Ok & Hq).
    apply bind_Ok in Hq as ([dr vs] & Hd & Hq).
    apply bind_Ok in Hq as (sv & Hsv & [= <-]).
    pose proof Hd as Hd'.
    apply compare_dbc_inv in Hd' as (? & ov & ? & nv & ? & ? & _ & _ & _ & _ & _ & ->).
    simpl in Hsv. unfold pydict_index in Hsv. rewrite versions_of_same_version in Hsv.
    injection Hsv as <-.
    exists po, pn, dr, (versions_of (Some po) (Some pn) ov nv), (py_eqb ov nv). split_and!; [done..|apply versions_of_same_version|].
    simpl. destruct (Nat.ltb 0 (length dr) || negb (py_eqb ov nv)).
    + apply wrapped_union. set_solver.
    + destruct unchanged; [|done]. apply wrapped_union. set_solver.
  - intros Ho Hn. apply (three_loops_absent _ _ _ _ _ _ _ _ _ H1 H2 H3).
    intros Hin. rewrite !elem_of_app in Hin.
    rewrite elem_of_cd_added, elem_of_cd_deleted, elem_of_cd_same in Hin. tauto.
Qed.

(** ** The shape of the records *)

Lemma build_action_Ok {T} `{PyObject T} action (item : T) properties sigs record :
  build_action action item properties sigs = Ok record ->
  exists l, list_loop (inventory_delta action item) properties [] = Ok l
            /\ record = build_change action (VList l) sigs.
Proof.
  rewrite build_action_loop. intros (l & Hl & [= <-])%bind_Ok. eauto.
Qed.

Lemma same_signal_step_record old_message new_message name v :
  same_signal_step old_message new_message name = Ok (Some v) ->
  exists deltas, v = VDict [(KStr "action", VStr "changed"); (KStr "changed", VList deltas)].
Proof.
  unfold same_signal_step.
  intros (so & _ & (sn & _ & (cl & _ & Hq)%bind_Ok)%bind_Ok)%bind_Ok.
  destruct (Nat.ltb 0 (length cl)); [|done]. injection Hq as <-. by exists cl.
Qed.

Lemma signal_build_action_record action (s : Signal) record :
  action = "added" \/ action = "deleted" ->
  build_action action s signal_properties VNone = Ok record ->
  exists deltas, record = [(KStr "action", VStr action); (KStr action, VList deltas)].
Proof.
  intros Ha (l & _ & ->)%build_action_Ok. exists l. by destruct Ha as [-> | ->].
Qed.

Lemma signal_action_step_record action sigs name v :
  action = "added" \/ action = "deleted" ->
  signal_action_step action sigs name = Ok (Some v) -> signal_record v.
Proof. clear load_file.
  intros Ha. unfold signal_action_step.
  intros (s & _ & (record & Hr & [= <-])%bind_Ok)%bind_Ok.
  destruct (signal_build_action_record _ _ _ Ha Hr) as [l ->].
  exists action, l. split; [|done]. destruct Ha as [-> | ->]; set_solver.
Qed.

Lemma compare_messages_inv old_message new_message ml sc :
  compare_messages old_message new_message = Ok (ml, sc) ->
  exists c1 c2,
    compare_properties old_message new_message message_properties = Ok ml
    /\ dict_loop KStr (same_signal_step old_message new_message)
         (compare_dictionaries (msg_signals old_message) (msg_signals new_message)).1.2 []
       = Ok c1
    /\ dict_loop KStr (signal_action_step "deleted" (msg_signals old_message))
         (compare_dictionaries (msg_signals old_message) (msg_signals new_message)).2 c1
       = Ok c2
    /\ dict_loop KStr (signal_action_step "added" (msg_signals new_message))
         (compare_dictionaries (msg_signals old_message) (msg_signals new_message)).1.1 c2
       = Ok sc.
Proof.
  rewrite compare_messages_loops. intros (ml' & Hml & Hq)%bind_Ok. cbv beta zeta in Hq.
  apply bind_Ok in Hq as (c1 & H1 & Hq). apply bind_Ok in Hq as (c2 & H2 & Hq).
  apply bind_Ok in Hq as (c3 & H3 & [= <- <-]). eauto 10.
Qed.

Lemma compare_messages_records old_message new_message ml sc :
  compare_messages old_message new_message = Ok (ml, sc) ->
  Forall signal_record (dict_values sc).
Proof. clear load_file.
  intros (c1 & c2 & _ & H1 & H2 & H3)%compare_messages_inv.
  apply (three_loops_values _ _ _ _ _ _ _ _ _ H1 H2 H3).
  - intros name v _ [l ->]%same_signal_step_record. exists "changed", l. split; [set_solver|done].
  - intros name v _. apply signal_action_step_record. auto.
  - intros name v _. apply signal_action_step_record. auto.
Qed.

Lemma message_signals_records action sigs nested :
  action = "added" \/ action = "deleted" ->
  message_signals action sigs = Ok nested -> Forall signal_record (dict_values nested).
Proof. clear load_file.
  intros Ha. rewrite message_signals_loop. intros Hrun.
  apply (dict_loop_values _ _ _ _ _ _ Hrun); [constructor|].
  intros [name s] v _. unfold signal_item_step. simpl.
  intros (record & Hr & [= <-])%bind_Ok.
  destruct (signal_build_action_record _ _ _ Ha Hr) as [l ->].
  exists action, l. split; [|done]. destruct Ha as [-> | ->]; set_solver.
Qed.

Lemma same_message_step_record old_dbc new_dbc name v :
  same_message_step old_dbc new_dbc name = Ok (Some v) -> message_record v.
Proof. clear load_file.
  unfold same_message_step.
  intros (mo & _ & (mn & _ & ([ml sc] & Hc & Hq)%bind_Ok)%bind_Ok)%bind_Ok.
  simpl in Hq. destruct (_ || _); [|done]. injection Hq as <-.
  exists "changed", ml, sc. split_and!; [set_solver|done|].
  by apply (compare_messages_records mo mn ml).
Qed.

Lemma message_action_step_record action dbc name v :
  action = "added" \/ action = "deleted" ->
  message_action_step action dbc name = Ok (Some v) -> message_record v.
Proof. clear load_file.
  intros Ha. unfold message_action_step.
  intros (m & _ & (nested & Hn & (record & Hr & [= <-])%bind_Ok)%bind_Ok)%bind_Ok.
  apply build_action_Ok in Hr as (l & _ & ->).
  exists action, l, nested. split_and!.
  - destruct Ha as [-> | ->]; set_solver.
  - by destruct Ha as [-> | ->].
  - by apply (message_signals_records action (msg_signals m)).
Qed.

Lemma compare_dbc_records old_path new_path r vs :
  compare_dbc old_path new_path = Ok (r, vs) -> Forall message_record (dict_values r).
Proof.
  intros (X & ov & Y & nv & r1 & r2 & _ & _ & H1 & H2 & H3 & _)%compare_dbc_inv.
  apply (three_loops_values _ _ _ _ _ _ _ _ _ H1 H2 H3).
  - intros name v _. apply same_message_step_record.
  - intros name v _. apply message_action_step_record. auto.
  - intros name v _. apply message_action_step_record. auto.
Qed.

(** C10.  The records of the signals of a compared message have exactly two
    items, the action tag and the payload under the key named like the tag,
    and so no [signals] key; for a signal common to both messages the tag is
    "changed".  Every record the catalog differ emits for a message has
    exactly three items, the third being [signals], which holds the mapping
    (possibly empty) from signal names to such two-item signal records. *)
Theorem signals_key_by_level :
  (forall old_message new_message ml sc,
      compare_messages old_message new_message = Ok (ml, sc) ->
      Forall signal_record (dict_values sc)
      /\ forall name v,
           name ∈ dict_keys (msg_signals old_message) ->
           name ∈ dict_keys (msg_signals new_message) ->
           dict_get sc (KStr name) = Some v ->
           exists deltas,
             v = VDict [(KStr "action", VStr "changed"); (KStr "changed", VList deltas)]
             /\ dict_get [(KStr "action", VStr "changed"); (KStr "changed", VList deltas)]
                         (KStr "signals") = None)
  /\ (forall old_path new_path r vs,
        compare_dbc old_path new_path = Ok (r, vs) ->
        Forall message_record (dict_values r)
        /\ forall k v, dict_get r k = Some v ->
             exists record nested,
               v = VDict record
               /\ dict_get record (KStr "signals") = Some (VDict nested)
               /\ Forall signal_record (dict_values nested)).
Proof.
  split.
  - intros mo mn ml sc Hc. split; [by apply (compare_messages_records mo mn ml)|].
    intros name v Ho Hn Hget.
    apply compare_messages_inv in Hc as (c1 & c2 & _ & H1 & H2 & H3).
    pose proof (cd_NoDup_sda (msg_signals mo) (msg_signals mn)) as Hnd. cbv zeta in Hnd.
    destruct (three_loops_first _ _ _ _ _ _ _ _ _ H1 H2 H3 Hnd name) as (o & Hstep & Ho').
    { apply elem_of_cd_same. auto. }
    rewrite Hget in Ho'. subst o.
    apply same_signal_step_record in Hstep as [l ->]. by exists l.
  - intros old_path new_path r vs Hc.
    pose proof (compare_dbc_records _ _ _ _ Hc) as Hall. split; [done|].
    intros k v Hget. apply dict_get_Some_elem in Hget.
    rewrite Forall_forall in Hall.
    destruct (Hall v) as (a & l & nested & Ha & -> & Hn).
    { apply list_elem_of_fmap. by exists (k, v). }
    eexists _, nested. split_and!; [done| |done].
    repeat (apply elem_of_cons in Ha as [->|Ha]; [done|]). by apply elem_of_nil in Ha.
Qed.

(** ** Action tags at every level *)

Lemma file_step_record action old_path new_path dr vs :
  action ∈ ["added"; "deleted"; "changed"; "unchanged"] ->
  compare_dbc old_path new_path = Ok (dr, vs) ->
  file_record (VDict (dict_union (build_change action (VDict dr) VNone) vs)).
Proof.
  intros Ha Hd. pose proof (compare_dbc_records _ _ _ _ Hd) as Hrec.
  apply compare_dbc_inv in Hd as (? & ov & ? & nv & ? & ? & _ & _ & _ & _ & _ & ->).
  destruct (wrapped_union action dr old_path new_path ov nv Ha) as (record & Hr & H1 & H2 & _).
  injection Hr as <-. eexists action, _, dr. by split_and!.
Qed.

Lemma get_report_records old_files new_files unchanged report :
  get_report old_files new_files unchanged = Ok report ->
  Forall file_record (dict_values report).
Proof.
  intros (r1 & r2 & H1 & H2 & H3)%get_report_inv.
  apply (three_loops_values _ _ _ _ _ _ _ _ _ H1 H2 H3).
  - intros name v _. unfold file_added_step.
    intros (path & _ & ([dr vs] & Hd & [= <-])%bind_Ok)%bind_Ok.
    apply (file_step_record _ None (Some path)); [set_solver|done].
  - intros name v _. unfold file_deleted_step.
    intros (path & _ & ([dr vs] & Hd & [= <-])%bind_Ok)%bind_Ok.
    apply (file_step_record _ (Some path) None); [set_solver|done].
  - intros name v _. unfold file_same_step.
    intros (po & _ & (pn & _ & ([dr vs] & Hd & (sv & _ & Hq)%bind_Ok)%bind_Ok)%bind_Ok)%bind_Ok.
    simpl in Hq. destruct (_ || _).
    + injection Hq as <-. apply (file_step_record _ (Some po) (Some pn)); [set_solver|done].
    + destruct unchanged; [|done]. injection Hq as <-.
      apply (file_step_record _ (Some po) (Some pn)); [set_solver|done].
Qed.

Lemma signal_record_tagged v : signal_record v -> tagged code_actions v = true.
Proof.
  intros (a & l & Ha & ->).
  repeat (apply elem_of_cons in Ha as [->|Ha]; [done|]). by apply elem_of_nil in Ha.
Qed.

Lemma Forall_forallb {A} (P : A -> Prop) (f : A -> bool) (l : list A) :
  (forall x, P x -> f x = true) -> Forall P l -> forallb f l = true.
Proof.
  intros Hf Hl. apply forallb_forall. intros x Hx%list_elem_of_In.
  rewrite Forall_forall in Hl. auto.
Qed.

Lemma message_record_tagged v : message_record v -> tagged_message code_actions v = true.
Proof.
  intros (a & l & nested & Ha & -> & Hn). unfold tagged_message.
  apply andb_true_intro. split.
  - repeat (apply elem_of_cons in Ha as [->|Ha]; [done|]). by apply elem_of_nil in Ha.
  - assert (dict_get [(KStr "action", VStr a); (KStr a, VList l); (KStr "signals", VDict nested)]
              (KStr "signals") = Some (VDict nested)) as ->.
    { repeat (apply elem_of_cons in Ha as [->|Ha]; [done|]). by apply elem_of_nil in Ha. }
    apply (Forall_forallb signal_record); [apply signal_record_tagged | done].
Qed.

Lemma file_record_tagged v : file_record v -> tagged_file code_actions v = true.
Proof.
  intros (a & record & messages & Ha & -> & Hact & Hpay & Hm). unfold tagged_file, tagged.
  rewrite Hact, Hpay. apply andb_true_intro. split.
  - apply andb_true_intro. split; [|by apply bool_decide_eq_true; eauto].
    repeat (apply elem_of_cons in Ha as [->|Ha]; [done|]). by apply elem_of_nil in Ha.
  - apply (Forall_forallb message_record); [apply message_record_tagged | done].
Qed.

(** C4 (as amended).  Every Change Record of a report carries, at the file
    level, at the message level and at the signal level, an [action] tag
    drawn from "added", "deleted", "changed", "unchanged", together with a
    key named like the tag that holds its payload; the same holds of the
    records of a catalog comparison and of a message comparison taken
    alone. *)
Theorem action_tag_everywhere :
  (forall old_files new_files unchanged report,
      get_report old_files new_files unchanged = Ok report ->
      forallb (tagged_file code_actions) (dict_values report) = true)
  /\ (forall old_path new_path r vs,
        compare_dbc old_path new_path = Ok (r, vs) ->
        forallb (tagged_message code_actions) (dict_values r) = true)
  /\ (forall old_message new_message ml sc,
        compare_messages old_message new_message = Ok (ml, sc) ->
        forallb (tagged code_actions) (dict_values sc) = true).
Proof.
  split_and!.
  - intros old_files new_files unchanged report Hr.
    apply (Forall_forallb file_record); [apply file_record_tagged|].
    by apply (get_report_records old_files new_files unchanged).
  - intros old_path new_path r vs Hr.
    apply (Forall_forallb message_record); [apply message_record_tagged|].
    by apply (compare_dbc_records old_path new_path r vs).
  - intros mo mn ml sc Hr.
    apply (Forall_forallb signal_record); [apply signal_record_tagged|].
    by apply (compare_messages_records mo mn ml).
Qed.

(** ** Catalogs that can be normalised *)

Lemma catalog_ok_message catalog name m :
  catalog_ok catalog = true -> dict_get catalog name = Some m ->
  convertible message_properties m = true
  /\ forall sname s, dict_get (msg_signals m) sname = Some s ->
       convertible signal_properties s = true.
Proof.
  unfold catalog_ok. rewrite forallb_forall. intros Hall Hget%dict_get_Some_elem.
  destruct (andb_prop _ _ (Hall m ltac:(apply list_elem_of_In, list_elem_of_fmap;
                                       by exists (name, m)))) as [Hm Hs].
  split; [done|]. intros sname s Hs'%dict_get_Some_elem.
  rewrite forallb_forall in Hs. apply Hs.
  apply list_elem_of_In, list_elem_of_fmap. by exists (sname, s).
Qed.

Lemma catalog_wf_message catalog name m :
  catalog_wf catalog = true -> dict_get catalog name = Some m ->
  wf_object message_properties m = true
  /\ forall sname s, dict_get (msg_signals m) sname = Some s ->
       wf_object signal_properties s = true.
Proof.
  unfold catalog_wf. rewrite forallb_forall. intros Hall Hget%dict_get_Some_elem.
  destruct (andb_prop _ _ (Hall m ltac:(apply list_elem_of_In, list_elem_of_fmap;
                                       by exists (name, m)))) as [Hm Hs].
  split; [done|]. intros sname s Hs'%dict_get_Some_elem.
  rewrite forallb_forall in Hs. apply Hs.
  apply list_elem_of_In, list_elem_of_fmap. by exists (sname, s).
Qed.

Lemma catalog_nan_free_message catalog name m :
  catalog_nan_free catalog = true -> dict_get catalog name = Some m ->
  nan_free_object message_properties m = true
  /\ forall sname s, dict_get (msg_signals m) sname = Some s ->
       nan_free_object signal_properties s = true.
Proof.
  unfold catalog_nan_free. rewrite forallb_forall. intros Hall Hget%dict_get_Some_elem.
  destruct (andb_prop _ _ (Hall m ltac:(apply list_elem_of_In, list_elem_of_fmap;
                                       by exists (name, m)))) as [Hm Hs].
  split; [done|]. intros sname s Hs'%dict_get_Some_elem.
  rewrite forallb_forall in Hs. apply Hs.
  apply list_elem_of_In, list_elem_of_fmap. by exists (sname, s).
Qed.

Lemma cd_self_same {A} (d : dict string A) name :
  name ∈ (compare_dictionaries d d).1.2 <-> name ∈ dict_keys d.
Proof. clear load_file. rewrite elem_of_cd_same. tauto. Qed.

Lemma cd_self_deleted {A} (d : dict string A) name : name ∉ (compare_dictionaries d d).2.
Proof. clear load_file. rewrite elem_of_cd_deleted. tauto. Qed.

Lemma cd_self_added {A} (d : dict string A) name : name ∉ (compare_dictionaries d d).1.1.
Proof. clear load_file. rewrite elem_of_cd_added. tauto. Qed.

(** A message compared with itself shows no difference. *)
Lemma compare_messages_same m :
  convertible message_properties m = true ->
  wf_object message_properties m = true ->
  nan_free_object message_properties m = true ->
  (forall sname s, dict_get (msg_signals m) sname = Some s ->
     convertible signal_properties s = true /\ wf_object signal_properties s = true
     /\ nan_free_object signal_properties s = true) ->
  compare_messages m m = Ok ([], []).
Proof.
  intros Hc Hw Hnan Hs. rewrite compare_messages_loops.
  rewrite compare_properties_same by done. simpl.
  rewrite dict_loop_skip; simpl.
  2: { intros name Hin%cd_self_same. unfold same_signal_step.
       destruct (dict_index_elem _ _ Hin) as (s & -> & Hget). simpl.
       destruct (Hs name s Hget) as (Hcs & Hws & Hns).
       by rewrite compare_properties_same. }
  rewrite dict_loop_skip; simpl.
  2: { intros name Hin. by apply cd_self_deleted in Hin. }
  rewrite dict_loop_skip; simpl; [done|].
  intros name Hin. by apply cd_self_added in Hin.
Qed.

(** C2 (as amended).  Diffing a catalog against itself (the same catalog
    loaded on both sides, with attributes that can be normalised,
    well-formed values, and no NaN in the attributes that are compared as
    they are) yields an empty map of changed messages and [same_version]
    true.  More
    generally, in any catalog comparison a message present on both sides
    whose message-level delta list and signal-change map are both empty has
    no entry in the report. *)
Theorem self_diff_is_empty :
  (forall old_path new_path catalog v,
      dbc_loader (Some old_path) = Ok (catalog, v) ->
      dbc_loader (Some new_path) = Ok (catalog, v) ->
      catalog_ok catalog = true -> catalog_wf catalog = true ->
      catalog_nan_free catalog = true ->
      exists vs, compare_dbc (Some old_path) (Some new_path) = Ok ([], vs)
                 /\ dict_get vs (KStr "same_version") = Some (VBool true))
  /\ (forall old_path new_path old_dbc old_version new_dbc new_version r vs
             name old_message new_message,
        compare_dbc old_path new_path = Ok (r, vs) ->
        dbc_loader old_path = Ok (old_dbc, old_version) ->
        dbc_loader new_path = Ok (new_dbc, new_version) ->
        dict_get old_dbc name = Some old_message ->
        dict_get new_dbc name = Some new_message ->
        compare_messages old_message new_message = Ok ([], []) ->
        dict_get r (KStr name) = None).
Proof.
  split.
  - intros old_path new_path catalog v Ho Hn Hok Hwf Hnan.
    exists (versions_of (Some old_path) (Some new_path) v v). split.
    + rewrite compare_dbc_loops, Ho, Hn. cbn [mbind result_bind fst snd].
      rewrite dict_loop_skip; cbn [mbind result_bind].
      2: { intros name Hin%cd_self_same. unfold same_message_step.
           destruct (dict_index_elem _ _ Hin) as (m & -> & Hget). simpl.
           destruct (catalog_ok_message _ _ _ Hok Hget) as [Hc Hcs].
           destruct (catalog_wf_message _ _ _ Hwf Hget) as [Hw Hws].
           destruct (catalog_nan_free_message _ _ _ Hnan Hget) as [Hf Hfs].
           rewrite compare_messages_same; [done..|]. intros sname s Hs.
           split_and!; eauto. }
      rewrite dict_loop_skip; cbn [mbind result_bind].
      2: { intros name Hin. by apply cd_self_deleted in Hin. }
      rewrite dict_loop_skip; cbn [mbind result_bind]; [done|].
      intros name Hin. by apply cd_self_added in Hin.
    + rewrite versions_of_same_version. do 2 f_equal.
      apply dbc_loader_version in Ho as [_ ->].
      apply py_eqb_refl; by destruct (side_version _).
  - intros old_path new_path X ov Y nv r vs name mo mn Hc Ho Hn Hgo Hgn Hcm.
    apply compare_dbc_inv in Hc as (X' & ov' & Y' & nv' & r1 & r2 & Ho' & Hn' & H1 & H2 & H3 & _).
    rewrite Ho in Ho'. rewrite Hn in Hn'. injection Ho' as <- <-. injection Hn' as <- <-.
    pose proof (cd_NoDup_sda X Y) as Hnd. cbv zeta in Hnd.
    destruct (three_loops_first _ _ _ _ _ _ _ _ _ H1 H2 H3 Hnd name) as (o & Hstep & ->).
    { apply elem_of_cd_same. split; apply dict_get_is_Some; eauto. }
    unfold same_message_step, dict_index in Hstep. rewrite Hgo, Hgn in Hstep.
    simpl in Hstep. rewrite Hcm in Hstep. simpl in Hstep. by injection Hstep as <-.
Qed.

(** ** Full inventories *)

Section Inventory.
Context {T : Type} `{PyObject T}.
Implicit Types (o : T) (properties : dict string string).

Lemma inventory_loop action o properties l :
  action = "added" \/ action = "deleted" ->
  list_loop (inventory_delta action o) properties [] = Ok l ->
  inventory_deltas action properties o l.
Proof.
  intros Ha. unfold inventory_deltas.
  revert l. induction properties as [|p properties IH]; intros l.
  - intros [= <-]. constructor.
  - rewrite list_loop_cons.
    intros (o1 & Ho1 & (l' & Hl' & [= <-])%bind_Ok)%bind_Ok.
    specialize (IH l' Hl'). unfold inventory_delta in Ho1.
    apply bind_Ok in Ho1 as (raw & Hraw & Ho1).
    apply bind_Ok in Ho1 as (v & Hv & Ho1).
    pose proof (converter_is_none _ _ _ Hv) as Hnone.
    simpl. unfold non_null at 1. rewrite Hraw, <- Hnone.
    assert (o1 = if negb (is_none v)
                 then Some (if String.eqb action "deleted"
                            then delta p.1 v VNone else delta p.1 VNone v)
                 else None) as ->.
    { destruct Ha as [-> | ->]; simpl in Ho1; injection Ho1 as <-; by destruct (is_none v). }
    destruct (is_none v); simpl; [done|].
    constructor; [|done]. by exists raw, v.
Qed.

Lemma inventory_loop_ok action o properties :
  action = "added" \/ action = "deleted" ->
  convertible properties o = true ->
  exists l, list_loop (inventory_delta action o) properties [] = Ok l.
Proof.
  intros Ha Hc.
  pose proof (list_loop_ok (inventory_delta action o) properties) as Hok.
  destruct (list_loop _ _ _) as [l|e]; [eauto|].
  discriminate Hok. intros p Hp.
  destruct (convertible_elem _ _ _ Hc Hp) as (raw & v & Hraw & Hv).
  unfold inventory_delta. rewrite Hraw. simpl. rewrite Hv. simpl.
  by destruct Ha as [-> | ->].
Qed.

Lemma build_action_record action o properties sigs record :
  action = "added" \/ action = "deleted" ->
  build_action action o properties sigs = Ok record ->
  entity_record action properties o record
  /\ (is_none sigs = false -> dict_get record (KStr "signals") = Some sigs).
Proof.
  intros Ha (l & Hl & ->)%build_action_Ok.
  apply (inventory_loop _ _ _ _ Ha) in Hl.
  unfold entity_record, build_change.
  destruct (is_none sigs) eqn:En; simpl.
  - split; [|done]. destruct Ha as [-> | ->]; (split; [done|]); by exists l.
  - split; [|by destruct Ha as [-> | ->]].
    destruct Ha as [-> | ->]; (split; [done|]); by exists l.
Qed.

Lemma build_action_ok action o properties sigs :
  action = "added" \/ action = "deleted" ->
  convertible properties o = true ->
  exists record, build_action action o properties sigs = Ok record.
Proof.
  intros Ha Hc. destruct (inventory_loop_ok _ _ _ Ha Hc) as [l Hl].
  rewrite build_action_loop, Hl. simpl. eauto.
Qed.
End Inventory.

Lemma fold_dict_set_NoDup {A K V} `{EqDecision K} (kf : A -> K) (vf : A -> V)
    (l : list A) (d0 : dict K V) :
  NoDup (dict_keys d0) ->
  NoDup (dict_keys (fold_left (fun d x => dict_set d (kf x) (vf x)) l d0)).
Proof.
  revert d0. induction l as [|x l IH]; intros d0 Hd; simpl; [done|].
  by apply IH, dict_set_NoDup.
Qed.

Lemma fold_dict_set_values {A K V} `{EqDecision K} (P : V -> Prop) (kf : A -> K)
    (vf : A -> V) (l : list A) (d0 : dict K V) :
  Forall P (dict_values d0) -> (forall x, P (vf x)) ->
  Forall P (dict_values (fold_left (fun d x => dict_set d (kf x) (vf x)) l d0)).
Proof.
  revert d0. induction l as [|x l IH]; intros d0 Hd Hv; simpl; [done|].
  apply IH; [|done]. by apply dict_set_values.
Qed.

(** The dicts built by the loader have pairwise distinct keys. *)
Lemma dbc_loader_NoDup path catalog v :
  dbc_loader path = Ok (catalog, v) ->
  NoDup (dict_keys catalog)
  /\ forall name m, dict_get catalog name = Some m -> NoDup (dict_keys (msg_signals m)).
Proof.
  destruct path as [path|]; simpl.
  - destruct (load_file path) as [db|]; simpl; [|done]. intros [= <- _]. split.
    + apply (fold_dict_set_NoDup message_name
               (fun dbc_message => {| message := dbc_message; msg_signals := _ |})).
      constructor.
    + intros name m Hget%dict_get_Some_elem.
      assert (Hall : Forall (fun m => NoDup (dict_keys (msg_signals m)))
                (dict_values (fold_left (fun messages dbc_message =>
                   dict_set messages (message_name dbc_message)
                     {| message := dbc_message;
                        msg_signals := fold_left (fun sigs signal =>
                                         dict_set sigs (signal_name signal) signal)
                                       (signals dbc_message) [] |})
                   (messages db) []))).
      { apply (fold_dict_set_values _ message_name
                 (fun dbc_message => {| message := dbc_message; msg_signals := _ |}));
          [constructor|].
        intros x. simpl. apply (fold_dict_set_NoDup signal_name id). constructor. }
      rewrite Forall_forall in Hall. apply Hall.
      apply list_elem_of_fmap. by exists (name, m).
  - intros [= <- _]. split; [constructor | done].
Qed.

Lemma message_signals_lookup action sigs nested :
  message_signals action sigs = Ok nested -> NoDup (dict_keys sigs) ->
  forall sname,
    match dict_get sigs sname with
    | None => dict_get nested (KStr sname) = None
    | Some s =>
        exists srecord,
          build_action action s signal_properties VNone = Ok srecord
          /\ dict_get nested (KStr sname) = Some (VDict srecord)
    end.
Proof.
  rewrite message_signals_loop. intros Hrun Hnd sname.
  destruct (dict_get sigs sname) as [s|] eqn:Hget.
  - apply dict_get_Some_elem in Hget.
    destruct (dict_loop_lookup _ _ _ _ _ (sname, s) Hrun) as (o & Ho & Hl); [|done|].
    { intros [n1 v1] [n2 v2] H1 H2 [= Heq]. simpl in Heq. subst n2.
      apply (dict_get_NoDup _ _ _ Hnd) in H1, H2. congruence. }
    unfold signal_item_step in Ho. simpl in Ho.
    apply bind_Ok in Ho as (srecord & Hs & [= <-]). eauto.
  - rewrite (dict_loop_other _ _ _ _ _ (KStr sname) Hrun); [done|].
    intros [n v] Hin [= Heq]. simpl in Heq. subst n.
    apply dict_get_None in Hget. apply Hget. apply list_elem_of_fmap. by exists (sname, v).
Qed.

Lemma message_signals_ok action sigs :
  action = "added" \/ action = "deleted" ->
  (forall sname s, dict_get sigs sname = Some s -> convertible signal_properties s = true) ->
  NoDup (dict_keys sigs) ->
  exists nested, message_signals action sigs = Ok nested.
Proof.
  intros Ha Hc Hnd. rewrite message_signals_loop.
  pose proof (dict_loop_ok (fun item : string * Signal => KStr item.1)
                (signal_item_step action) sigs []) as Hok.
  destruct (dict_loop _ _ _ _) as [nested|e]; [eauto|].
  discriminate Hok. intros [sname s] Hin. unfold signal_item_step. simpl.
  destruct (build_action_ok action s signal_properties VNone Ha) as [record ->]; [|done].
  apply (Hc sname). by apply dict_get_NoDup.
Qed.

(** What [compare_dbc] stores for a message of one side only. *)
Lemma message_action_step_inventory action catalog name m :
  action = "added" \/ action = "deleted" ->
  dict_get catalog name = Some m ->
  NoDup (dict_keys (msg_signals m)) ->
  convertible message_properties m = true ->
  (forall sname s, dict_get (msg_signals m) sname = Some s ->
     convertible signal_properties s = true) ->
  exists record nested,
    message_action_step action catalog name = Ok (Some (VDict record))
    /\ entity_record action message_properties m record
    /\ dict_get record (KStr "signals") = Some (VDict nested)
    /\ forall sname,
         match dict_get (msg_signals m) sname with
         | None => dict_get nested (KStr sname) = None
         | Some s =>
             exists srecord,
               dict_get nested (KStr sname) = Some (VDict srecord)
               /\ entity_record action signal_properties s srecord
         end.
Proof.
  intros Ha Hget Hnd Hc Hcs.
  destruct (message_signals_ok action (msg_signals m) Ha Hcs Hnd) as [nested Hn].
  destruct (build_action_ok action m message_properties (VDict nested) Ha Hc) as [record Hr].
  exists record, nested. unfold message_action_step, dict_index.
  rewrite Hget. simpl. rewrite Hn. simpl. rewrite Hr. simpl.
  destruct (build_action_record _ _ _ _ _ Ha Hr) as [Hent Hsig].
  split_and!; [done|done|by apply Hsig|].
  intros sname. pose proof (message_signals_lookup _ _ _ Hn Hnd sname) as Hl.
  destruct (dict_get (msg_signals m) sname) as [s|]; [|done].
  destruct Hl as (srecord & Hs & Hl). exists srecord. split; [done|].
  by destruct (build_action_record _ _ _ _ _ Ha Hs).
Qed.

Lemma one_side_inventory action catalog (l : list string) :
  action = "added" \/ action = "deleted" ->
  (forall name, name ∈ l <-> name ∈ dict_keys catalog) ->
  catalog_ok catalog = true ->
  (forall name m, dict_get catalog name = Some m -> NoDup (dict_keys (msg_signals m))) ->
  exists r, dict_loop KStr (message_action_step action catalog) l [] = Ok r
            /\ inventory action catalog r.
Proof.
  intros Ha Hl Hok Hnd.
  assert (Hstep : forall name m, dict_get catalog name = Some m ->
            exists record nested,
              message_action_step action catalog name = Ok (Some (VDict record))
              /\ entity_record action message_properties m record
              /\ dict_get record (KStr "signals") = Some (VDict nested)
              /\ forall sname,
                   match dict_get (msg_signals m) sname with
                   | None => dict_get nested (KStr sname) = None
                   | Some s =>
                       exists srecord,
                         dict_get nested (KStr sname) = Some (VDict srecord)
                         /\ entity_record action signal_properties s srecord
                   end).
  { intros name m Hget. destruct (catalog_ok_message _ _ _ Hok Hget) as [Hc Hcs].
    apply message_action_step_inventory; eauto. }
  pose proof (dict_loop_ok KStr (message_action_step action catalog) l []) as Hrun.
  destruct (dict_loop _ _ _ _) as [r|e] eqn:Er.
  2: { discriminate Hrun. intros name [m Hget]%Hl%dict_get_is_Some.
       by destruct (Hstep name m Hget) as (record & nested & -> & _). }
  exists r. split; [done|]. intros name.
  destruct (dict_get catalog name) as [m|] eqn:Hget.
  - destruct (Hstep name m Hget) as (record & nested & Hs & Hent & Hsig & Hsigs).
    exists record, nested. split_and!; [|done..].
    destruct (dict_loop_lookup _ _ _ _ _ name Er) as (o & Ho & Hlook).
    { by intros y z _ _ [= ->]. }
    { apply Hl, dict_get_is_Some. eauto. }
    rewrite Hs in Ho. injection Ho as <-. done.
  - rewrite (dict_loop_other _ _ _ _ _ (KStr name) Er); [done|].
    intros x Hx%Hl [= ->]. by apply dict_get_None in Hget.
Qed.

(** C3 (as amended).  For every catalog whose attributes can be normalised,
    diffing it against an absent new side returns a report that has an
    entry for every message of the catalog and no other; each entry is
    tagged "deleted" and lists, under the key "deleted", exactly one
    property-delta per attribute of the message schema whose value is not
    null, in the order of the schema, with the normalised value as [old] and
    null as [new]; its [signals] map has an entry for every signal of the
    message and no other, tagged "deleted" and built the same way over the
    signal schema.  Diffing an absent old side against the catalog is the
    mirror: the tag is "added", the normalised value is [new] and [old] is
    null. *)
Theorem full_inventory_capture path catalog v :
  dbc_loader (Some path) = Ok (catalog, v) ->
  catalog_ok catalog = true ->
  (exists r vs, compare_dbc (Some path) None = Ok (r, vs)
                /\ inventory "deleted" catalog r)
  /\ (exists r vs, compare_dbc None (Some path) = Ok (r, vs)
                   /\ inventory "added" catalog r).
Proof.
  intros Hload Hok. destruct (dbc_loader_NoDup _ _ _ Hload) as [_ Hnd].
  split.
  - destruct (one_side_inventory "deleted" catalog
                (compare_dictionaries catalog ([] : dict string Message)).2)
      as (r & Hr & Hinv); [auto| |done|done|].
    { intros name. rewrite elem_of_cd_deleted. simpl. set_solver. }
    exists r, (versions_of (Some path) None v VNone). split; [|done].
    rewrite compare_dbc_loops, Hload, dbc_loader_None. cbn [mbind result_bind fst snd].
    rewrite dict_loop_skip; cbn [mbind result_bind].
    2: { intros name [_ Hin]%elem_of_cd_same. by apply elem_of_nil in Hin. }
    rewrite Hr. cbn [mbind result_bind].
    rewrite dict_loop_skip; cbn [mbind result_bind]; [done|].
    intros name [Hin _]%elem_of_cd_added. by apply elem_of_nil in Hin.
  - destruct (one_side_inventory "added" catalog
                (compare_dictionaries ([] : dict string Message) catalog).1.1)
      as (r & Hr & Hinv); [auto| |done|done|].
    { intros name. rewrite elem_of_cd_added. simpl. set_solver. }
    exists r, (versions_of None (Some path) VNone v). split; [|done].
    rewrite compare_dbc_loops, Hload, dbc_loader_None. cbn [mbind result_bind fst snd].
    rewrite dict_loop_skip; cbn [mbind result_bind].
    2: { intros name [Hin _]%elem_of_cd_same. by apply elem_of_nil in Hin. }
    rewrite dict_loop_skip; cbn [mbind result_bind].
    2: { intros name [Hin _]%elem_of_cd_deleted. by apply elem_of_nil in Hin. }
    by rewrite Hr.
Qed.

(** ** The layers return a result on catalogs that can be normalised *)

Lemma dict_loop_returns {A V} (kf : A -> key) (step : A -> result (option V)) l d0 :
  (forall x, x ∈ l -> is_ok (step x) = true) -> exists d, dict_loop kf step l d0 = Ok d.
Proof.
  intros H. pose proof (dict_loop_ok kf step l d0 H) as Hok.
  destruct (dict_loop kf step l d0) as [d|e]; [eauto | discriminate Hok].
Qed.

Lemma compare_messages_returns old_message new_message :
  convertible message_properties old_message = true ->
  convertible message_properties new_message = true ->
  (forall sname s, dict_get (msg_signals old_message) sname = Some s ->
     convertible signal_properties s = true) ->
  (forall sname s, dict_get (msg_signals new_message) sname = Some s ->
     convertible signal_properties s = true) ->
  exists changes, compare_messages old_message new_message = Ok changes.
Proof.
  intros Ho Hn Hso Hsn. rewrite compare_messages_loops.
  destruct (compare_properties_ok _ _ _ Ho Hn) as [ml ->]. cbn [mbind result_bind]. cbv zeta.
  destruct (dict_loop_returns KStr (same_signal_step old_message new_message)
              (compare_dictionaries (msg_signals old_message) (msg_signals new_message)).1.2 [])
    as [c1 ->].
  { intros name [Hio Hin]%elem_of_cd_same. unfold same_signal_step.
    destruct (dict_index_elem _ _ Hio) as (so & -> & Hgo).
    destruct (dict_index_elem _ _ Hin) as (sn & -> & Hgn). simpl.
    destruct (compare_properties_ok signal_properties so sn) as [cl ->]; eauto. }
  cbn [mbind result_bind].
  destruct (dict_loop_returns KStr (signal_action_step "deleted" (msg_signals old_message))
              (compare_dictionaries (msg_signals old_message) (msg_signals new_message)).2 c1)
    as [c2 ->].
  { intros name [Hio _]%elem_of_cd_deleted. unfold signal_action_step.
    destruct (dict_index_elem _ _ Hio) as (so & -> & Hgo). simpl.
    destruct (build_action_ok "deleted" so signal_properties VNone) as [record ->]; eauto. }
  cbn [mbind result_bind].
  destruct (dict_loop_returns KStr (signal_action_step "added" (msg_signals new_message))
              (compare_dictionaries (msg_signals old_message) (msg_signals new_message)).1.1 c2)
    as [c3 ->].
  { intros name [Hin _]%elem_of_cd_added. unfold signal_action_step.
    destruct (dict_index_elem _ _ Hin) as (sn & -> & Hgn). simpl.
    destruct (build_action_ok "added" sn signal_properties VNone) as [record ->]; eauto. }
  cbn [mbind result_bind]. eauto.
Qed.

Lemma message_action_step_returns action catalog name :
  action = "added" \/ action = "deleted" ->
  catalog_ok catalog = true ->
  (forall name m, dict_get catalog name = Some m -> NoDup (dict_keys (msg_signals m))) ->
  name ∈ dict_keys catalog ->
  is_ok (message_action_step action catalog name) = true.
Proof.
  intros Ha Hok Hnd [m Hget]%dict_get_is_Some.
  destruct (catalog_ok_message _ _ _ Hok Hget) as [Hc Hcs].
  destruct (message_action_step_inventory action catalog name m) as (? & ? & -> & _); eauto.
Qed.

(** Any two sides that load into catalogs that can be normalised are
    compared to the end. *)
Lemma compare_dbc_returns old_path new_path old_dbc old_version new_dbc new_version :
  dbc_loader old_path = Ok (old_dbc, old_version) ->
  dbc_loader new_path = Ok (new_dbc, new_version) ->
  catalog_ok old_dbc = true -> catalog_ok new_dbc = true ->
  exists r, compare_dbc old_path new_path
            = Ok (r, versions_of old_path new_path old_version new_version).
Proof.
  intros Ho Hn Hoko Hokn.
  destruct (dbc_loader_NoDup _ _ _ Ho) as [_ Hndo].
  destruct (dbc_loader_NoDup _ _ _ Hn) as [_ Hndn].
  rewrite compare_dbc_loops, Ho, Hn. cbn [mbind result_bind fst snd]. cbv zeta.
  destruct (dict_loop_returns KStr (same_message_step old_dbc new_dbc)
              (compare_dictionaries old_dbc new_dbc).1.2 []) as [r1 ->].
  { intros name [Hio Hin]%elem_of_cd_same. unfold same_message_step.
    destruct (dict_index_elem _ _ Hio) as (mo & -> & Hgo).
    destruct (dict_index_elem _ _ Hin) as (mn & -> & Hgn). simpl.
    destruct (catalog_ok_message _ _ _ Hoko Hgo) as [Hco Hcso].
    destruct (catalog_ok_message _ _ _ Hokn Hgn) as [Hcn Hcsn].
    by destruct (compare_messages_returns mo mn Hco Hcn Hcso Hcsn) as [changes ->]. }
  cbn [mbind result_bind].
  destruct (dict_loop_returns KStr (message_action_step "deleted" old_dbc)
              (compare_dictionaries old_dbc new_dbc).2 r1) as [r2 ->].
  { intros name [Hio _]%elem_of_cd_deleted. apply message_action_step_returns; auto. }
  cbn [mbind result_bind].
  destruct (dict_loop_returns KStr (message_action_step "added" new_dbc)
              (compare_dictionaries old_dbc new_dbc).1.1 r2) as [r3 ->].
  { intros name [Hin _]%elem_of_cd_added. apply message_action_step_returns; auto. }
  cbn [mbind result_bind]. eauto.
Qed.

(** When every file of the two collections loads into a catalog that can
    be normalised, the file-set differ returns a report. *)
Lemma get_report_returns old_files new_files unchanged :
  (forall file path,
      dict_get old_files file = Some path \/ dict_get new_files file = Some path ->
      exists catalog v, dbc_loader (Some path) = Ok (catalog, v)
                        /\ catalog_ok catalog = true) ->
  exists report, get_report old_files new_files unchanged = Ok report.
Proof.
  intros Hload.
  assert (Hnone : catalog_ok ([] : dict string Message) = true) by done.
  rewrite get_report_loops. cbv zeta.
  destruct (dict_loop_returns KStr (file_added_step new_files)
              (compare_dictionaries old_files new_files).1.1 []) as [r1 ->].
  { intros name [Hin _]%elem_of_cd_added. unfold file_added_step.
    destruct (dict_index_elem _ _ Hin) as (pn & -> & Hgn). simpl.
    destruct (Hload name pn) as (Y & nv & Hn & Hokn); [auto|].
    by destruct (compare_dbc_returns None (Some pn) _ _ _ _ dbc_loader_None Hn Hnone Hokn)
      as [r ->]. }
  cbn [mbind result_bind].
  destruct (dict_loop_returns KStr (file_deleted_step old_files)
              (compare_dictionaries old_files new_files).2 r1) as [r2 ->].
  { intros name [Hio _]%elem_of_cd_deleted. unfold file_deleted_step.
    destruct (dict_index_elem _ _ Hio) as (po & -> & Hgo). simpl.
    destruct (Hload name po) as (X & ov & Ho & Hoko); [auto|].
    by destruct (compare_dbc_returns (Some po) None _ _ _ _ Ho dbc_loader_None Hoko Hnone)
      as [r ->]. }
  cbn [mbind result_bind].
  apply dict_loop_returns.
  intros name [Hio Hin]%elem_of_cd_same. unfold file_same_step.
  destruct (dict_index_elem _ _ Hio) as (po & -> & Hgo).
  destruct (dict_index_elem _ _ Hin) as (pn & -> & Hgn). simpl.
  destruct (Hload name po) as (X & ov & Ho & Hoko); [auto|].
  destruct (Hload name pn) as (Y & nv & Hn & Hokn); [auto|].
  destruct (compare_dbc_returns (Some po) (Some pn) _ _ _ _ Ho Hn Hoko Hokn) as [r ->].
  cbn [mbind result_bind fst snd]. unfold pydict_index.
  rewrite versions_of_same_version. cbn [mbind result_bind].
  destruct (_ || _); [done|]. by destruct unchanged.
Qed.

(* ================================================================== *)
(** * Further properties of the engine *)

(** ** The reconciler, with its arguments exchanged *)

(** Exchanging the two mappings exchanges [added] and [removed] and keeps
    [common]. *)
Theorem compare_dictionaries_swap {A B} (old : dict string A) (new : dict string B) :
  compare_dictionaries new old
  = ((compare_dictionaries old new).2, (compare_dictionaries old new).1.2,
     (compare_dictionaries old new).1.1).
Proof.
  clear py_repr load_file. unfold compare_dictionaries. simpl.
  by rewrite (comm_L (∩) (list_to_set (dict_keys new) : gset string)).
Qed.

(** ** The loader: names that occur more than once *)

Lemma find_app_last {A} (f : A -> bool) (l1 l2 : list A) :
  find f (l1 ++ l2) = match find f l1 with Some x => Some x | None => find f l2 end.
Proof.
  clear py_repr load_file. induction l1 as [|x l1 IH]; simpl; [done|].
  by destruct (f x).
Qed.

Lemma fold_dict_set_get {A K V} `{EqDecision K} (kf : A -> K) (vf : A -> V)
    (l : list A) (d0 : dict K V) (k : K) :
  dict_get (fold_left (fun d x => dict_set d (kf x) (vf x)) l d0) k
  = match find (fun x => bool_decide (kf x = k)) (reverse l) with
    | Some x => Some (vf x)
    | None => dict_get d0 k
    end.
Proof.
  clear py_repr load_file. revert d0. induction l as [|x l IH]; intros d0; [done|].
  simpl. rewrite IH, reverse_cons, find_app_last.
  destruct (find _ (reverse l)) as [y|]; [done|]. simpl.
  rewrite dict_get_set. by case_bool_decide; case_decide.
Qed.

Lemma fold_dict_set_keys {A K V} `{EqDecision K} (kf : A -> K) (vf : A -> V)
    (l : list A) (d0 : dict K V) (k : K) :
  k ∈ dict_keys (fold_left (fun d x => dict_set d (kf x) (vf x)) l d0)
  <-> k ∈ dict_keys d0 \/ k ∈ kf <$> l.
Proof.
  clear py_repr load_file. revert d0. induction l as [|x l IH]; intros d0; simpl.
  - set_solver.
  - rewrite IH, dict_keys_set. case_decide; set_solver.
Qed.

(** The catalog built by [dbc_loader] has one entry per message name of the
    database; when a name occurs more than once, the last message bearing
    it is the one kept, and likewise for the signals of each message.  The
    version is the version of the database, "unknown" standing for a null
    or empty one. *)
Theorem dbc_loader_last_wins path db catalog v :
  load_file path = Some db ->
  dbc_loader (Some path) = Ok (catalog, v) ->
  v = VStr (loaded_version (version db))
  /\ (forall name, name ∈ dict_keys catalog <-> name ∈ message_name <$> messages db)
  /\ NoDup (dict_keys catalog)
  /\ forall name,
       match find (fun m => bool_decide (message_name m = name)) (reverse (messages db)) with
       | None => dict_get catalog name = None
       | Some m =>
           exists loaded,
             dict_get catalog name = Some loaded
             /\ message loaded = m
             /\ NoDup (dict_keys (msg_signals loaded))
             /\ forall sname,
                  dict_get (msg_signals loaded) sname
                  = find (fun s => bool_decide (signal_name s = sname)) (reverse (signals m))
       end.
Proof.
  intros Hload Hrun. pose proof (dbc_loader_NoDup _ _ _ Hrun) as [Hnd Hnds].
  simpl in Hrun. rewrite Hload in Hrun. simpl in Hrun. injection Hrun as <- <-.
  split_and!; [done| |done|].
  - intros name.
    rewrite (fold_dict_set_keys message_name
               (fun dbc_message => {| message := dbc_message; msg_signals := _ |})).
    set_solver.
  - intros name.
    rewrite (fold_dict_set_get message_name
               (fun dbc_message => {| message := dbc_message; msg_signals := _ |})).
    destruct (find _ _) as [m|]; [|done].
    eexists. split_and!; [done|done| |].
    + apply (fold_dict_set_NoDup signal_name id). constructor.
    + intros sname. simpl. rewrite (fold_dict_set_get signal_name id).
      by destruct (find _ _).
Qed.

(** ** The property differ *)

Lemma property_delta_shape {T} `{PyObject T} (o n : T) p d :
  property_delta o n p = Ok (Some d) ->
  exists old_raw new_raw old new,
    getattr o p.1 = Ok old_raw /\ converter old_raw p.2 = Ok old
    /\ getattr n p.1 = Ok new_raw /\ converter new_raw p.2 = Ok new
    /\ py_eqb old new = false /\ d = delta p.1 old new.
Proof.
  unfold property_delta.
  intros (r1 & H1 & (v1 & H2 & (r2 & H3 & (v2 & H4 & Hd)%bind_Ok)%bind_Ok)%bind_Ok)%bind_Ok.
  destruct (py_eqb v1 v2) eqn:E; simpl in Hd; [done|]. injection Hd as <-.
  exists r1, r2, v1, v2. by split_and!.
Qed.

(** Every property-delta of a comparison comes from an attribute of the
    schema, holds the two normalised values of that attribute, and these
    two differ; the deltas come in the order of the schema, at most one per
    attribute; an attribute that is null on both sides yields none,
    whatever its kind. *)
Theorem compare_properties_deltas {T} `{PyObject T} (old_object new_object : T)
    (properties : dict string string) (r : list pyval) :
  compare_properties old_object new_object properties = Ok r ->
  Forall (fun d =>
            exists p old_raw new_raw old new,
              p ∈ properties
              /\ getattr old_object p.1 = Ok old_raw /\ converter old_raw p.2 = Ok old
              /\ getattr new_object p.1 = Ok new_raw /\ converter new_raw p.2 = Ok new
              /\ py_eqb old new = false
              /\ d = delta p.1 old new) r
  /\ omap delta_name r `sublist_of` dict_keys properties
  /\ length (omap delta_name r) = length r
  /\ (NoDup (dict_keys properties) ->
      forall name from_type,
        (name, from_type) ∈ properties ->
        getattr old_object name = Ok VNone -> getattr new_object name = Ok VNone ->
        deltas_named name r = []).
Proof.
  intros Hr. split_and!.
  - rewrite compare_properties_loop in Hr.
    apply (list_loop_Forall _ _ _ _ Hr). intros p d Hp Hd.
    apply property_delta_shape in Hd as (r1 & r2 & v1 & v2 & ?). exists p, r1, r2, v1, v2.
    by intuition.
  - rewrite compare_properties_loop in Hr. unfold dict_keys. revert r Hr.
    induction properties as [|p properties IH]; intros r.
    + by intros [= <-].
    + rewrite list_loop_cons.
      intros (o1 & Ho1 & (r' & Hr' & [= <-])%bind_Ok)%bind_Ok.
      rewrite omap_app. simpl. destruct o1 as [d|]; simpl.
      * rewrite (property_delta_name _ _ _ _ Ho1). simpl. apply sublist_skip. by apply IH.
      * apply sublist_cons. by apply IH.
  - rewrite compare_properties_loop in Hr. revert r Hr.
    induction properties as [|p properties IH]; intros r.
    + by intros [= <-].
    + rewrite list_loop_cons.
      intros (o1 & Ho1 & (r' & Hr' & [= <-])%bind_Ok)%bind_Ok.
      rewrite omap_app, !length_app, (IH r' Hr'). f_equal.
      destruct o1 as [d|]; simpl; [|done]. by rewrite (property_delta_name _ _ _ _ Ho1).
  - intros Hnd name from_type Hin Ho Hn.
    destruct (compare_properties_named _ _ _ _ _ _ Hr Hnd Hin) as (od & Hod & ->).
    unfold property_delta in Hod. simpl in Hod. rewrite Ho, Hn in Hod. simpl in Hod.
    by injection Hod as <-.
Qed.

(** ** Identifiers in hexadecimal *)

Lemma hex_digits_inj (a b : N) :
  HexadecimalString.NilZero.string_of_uint (N.to_hex_uint a)
  = HexadecimalString.NilZero.string_of_uint (N.to_hex_uint b) -> a = b.
Proof.
  clear py_repr load_file. intros Heq.
  assert (Hnn : forall n, N.to_hex_uint n <> Hexadecimal.Nil).
  { intros [|p]; [done|]. apply HexadecimalPos.Unsigned.to_uint_nonnil. }
  apply HexadecimalN.Unsigned.to_uint_inj.
  pose proof (HexadecimalString.NilZero.usu _ (Hnn a)) as Ha.
  pose proof (HexadecimalString.NilZero.usu _ (Hnn b)) as Hb.
  rewrite Heq, Hb in Ha. by injection Ha.
Qed.

Lemma hex_inj a b : hex a = hex b -> a = b.
Proof.
  clear py_repr load_file. unfold hex.
  destruct (Z.ltb_spec a 0), (Z.ltb_spec b 0); simpl; intros [= Heq].
  - apply hex_digits_inj in Heq. lia.
  - apply hex_digits_inj in Heq. lia.
Qed.

(** For every pair of integer identifiers, the comparison of two messages
    yields a property-delta named [frame_id] exactly when the identifiers
    differ, and that delta holds the two identifiers in hexadecimal. *)
Theorem frame_id_delta_iff (old_message new_message : Message) (a b : Z) :
  convertible message_properties old_message = true ->
  convertible message_properties new_message = true ->
  getattr old_message "frame_id" = Ok (VInt a) ->
  getattr new_message "frame_id" = Ok (VInt b) ->
  exists r,
    compare_properties old_message new_message message_properties = Ok r
    /\ deltas_named "frame_id" r
       = if decide (a = b) then []
         else [delta "frame_id" (VStr (hex a)) (VStr (hex b))].
Proof.
  intros Ho Hn Ha Hb.
  destruct (compare_properties_ok _ _ _ Ho Hn) as [r Hr]. exists r. split; [done|].
  assert (Hin : ("frame_id", "hex") ∈ message_properties)
    by (apply list_elem_of_In; simpl; auto).
  destruct (compare_properties_named _ _ _ _ _ _ Hr message_properties_NoDup Hin)
    as (od & Hod & ->).
  unfold property_delta in Hod. simpl in Hod. rewrite Ha, Hb in Hod. simpl in Hod.
  injection Hod as <-. unfold py_eqb.
  case_decide as Hab.
  - subst b. by rewrite String.eqb_refl.
  - destruct (String.eqb_spec (hex a) (hex b)) as [Heq%hex_inj|]; done.
Qed.

(** ** Lists of names *)

Lemma strs_of_list_VStr (l : list string) : strs_of_list (VStr <$> l) = Ok l.
Proof.
  clear py_repr load_file. induction l as [|x l IH]; csimpl; [done|]. by rewrite IH.
Qed.

Lemma converter_list_names (l : list string) :
  converter (VList (VStr <$> l)) "list" = Ok (VStr (String.concat "," l)).
Proof.
  clear load_file. change (converter (VList (VStr <$> l)) "list")
    with (s ← py_join "," (VList (VStr <$> l)); Ok (VStr s)).
  unfold py_join. by rewrite strs_of_list_VStr.
Qed.

Lemma no_comma_app_inj (a b r1 r2 : string) :
  no_comma a = true -> no_comma b = true ->
  (r1 = EmptyString \/ exists t, r1 = String "," t) ->
  (r2 = EmptyString \/ exists t, r2 = String "," t) ->
  (a ++ r1)%string = (b ++ r2)%string -> a = b /\ r1 = r2.
Proof.
  clear py_repr load_file. revert b.
  induction a as [|x a IH]; intros [|y b]; simpl; intros Ha Hb H1 H2 Heq.
  - done.
  - exfalso. apply andb_prop in Hb as [Hy _].
    destruct H1 as [-> | [t ->]]; [done|]. injection Heq as <- _. done.
  - exfalso. apply andb_prop in Ha as [Hx _].
    destruct H2 as [-> | [t ->]]; [done|]. injection Heq as -> _. done.
  - apply andb_prop in Ha as [_ Ha]. apply andb_prop in Hb as [_ Hb].
    injection Heq as -> Heq. destruct (IH b Ha Hb H1 H2 Heq) as [-> ->]. done.
Qed.

Lemma concat_cons_tail (x : string) (l : list string) :
  String.concat "," (x :: l)
  = (x ++ match l with [] => "" | _ => String "," (String.concat "," l) end)%string.
Proof.
  clear py_repr load_file. destruct l; simpl; [|done].
  induction x as [|c x IH]; [done|].
  change (String c x = String c (x ++ ""))%string. by f_equal.
Qed.

(** Joining plain names with commas loses nothing. *)
Lemma concat_plain_inj (l1 l2 : list string) :
  forallb plain_name l1 = true -> forallb plain_name l2 = true ->
  String.concat "," l1 = String.concat "," l2 -> l1 = l2.
Proof.
  clear py_repr load_file. revert l2.
  induction l1 as [|a l1 IH]; intros [|b l2] H1 H2.
  - done.
  - simpl in H2. apply andb_prop in H2 as [[Hb _]%andb_prop _].
    rewrite concat_cons_tail. destruct b; [done|]. simpl. discriminate.
  - simpl in H1. apply andb_prop in H1 as [[Ha _]%andb_prop _].
    rewrite concat_cons_tail. destruct a; [done|]. simpl. discriminate.
  - simpl in H1, H2.
    apply andb_prop in H1 as [[_ Ha]%andb_prop H1].
    apply andb_prop in H2 as [[_ Hb]%andb_prop H2].
    rewrite !concat_cons_tail. intros Heq.
    apply no_comma_app_inj in Heq as [-> Heq]; [|done|done| |].
    + f_equal. destruct l1, l2; try done. injection Heq as Heq. by apply IH.
    + destruct l1; eauto.
    + destruct l2; eauto.
Qed.

(** An attribute of kind [list] that holds a list of strings on both sides
    yields a property-delta exactly when the two comma-joined strings
    differ, and the delta holds the joined strings.  When the names are
    plain (not empty, without comma) this is exactly when the two lists
    differ, so that the same names in another order do register. *)
Theorem list_attribute_delta {T} `{PyObject T} (old_object new_object : T)
    (properties : dict string string) (name : string) (l1 l2 : list string) :
  convertible properties old_object = true ->
  convertible properties new_object = true ->
  NoDup (dict_keys properties) -> (name, "list") ∈ properties ->
  getattr old_object name = Ok (VList (VStr <$> l1)) ->
  getattr new_object name = Ok (VList (VStr <$> l2)) ->
  exists r,
    compare_properties old_object new_object properties = Ok r
    /\ deltas_named name r
       = (if decide (String.concat "," l1 = String.concat "," l2) then []
          else [delta name (VStr (String.concat "," l1)) (VStr (String.concat "," l2))])
    /\ (forallb plain_name l1 = true -> forallb plain_name l2 = true ->
        (deltas_named name r = [] <-> l1 = l2)).
Proof.
  intros Ho Hn Hnd Hin H1 H2.
  destruct (compare_properties_ok _ _ _ Ho Hn) as [r Hr]. exists r. split; [done|].
  destruct (compare_properties_named _ _ _ _ _ _ Hr Hnd Hin) as (od & Hod & ->).
  unfold property_delta in Hod. cbn [fst snd] in Hod. rewrite H1, H2 in Hod.
  cbn [mbind result_bind] in Hod. rewrite !converter_list_names in Hod.
  cbn [mbind result_bind] in Hod. injection Hod as <-. unfold py_eqb.
  destruct (String.eqb_spec (String.concat "," l1) (String.concat "," l2)) as [Heq|Hne].
  - rewrite decide_True by done. split; [done|]. intros Hp1 Hp2.
    split; [|done]. intros _. by apply concat_plain_inj.
  - rewrite decide_False by done. split; [done|]. intros Hp1 Hp2.
    split; [done|]. by intros ->.
Qed.

(** ** Choice tables, once more *)

Lemma choice_items_normal (l : list (Z * string)) :
  choice_items (pydict_of_items l) = Ok l.
Proof.
  clear load_file. induction l as [|[k x] l IH]; simpl; [done|]. by rewrite IH.
Qed.

(** Normalising a choices table a second time changes nothing. *)
Theorem converter_dict_idempotent (value w : pyval) :
  converter value "dict" = Ok w -> converter w "dict" = Ok w.
Proof.
  clear load_file. unfold converter at 1. destruct (is_none value) eqn:En.
  { by intros [= <-]. }
  simpl. intros (d & Hd & (result & Hr & [= <-])%bind_Ok)%bind_Ok.
  pose proof (choices_loop_NoDup d result Hr) as Hnd.
  rewrite converter_dict.
  rewrite (choices_loop_items _ (sorted_items result)).
  - simpl. do 3 f_equal.
    apply (Sorted_unique item_le); [apply sorted_items_Sorted..|].
    apply sorted_items_Permutation.
  - apply choice_items_normal.
  - by rewrite sorted_items_Permutation.
Qed.

(** ** The message differ and the catalog differ, name by name *)

Lemma signal_action_step_entity action sigs name s o :
  action = "added" \/ action = "deleted" ->
  dict_get sigs name = Some s ->
  signal_action_step action sigs name = Ok o ->
  exists record, o = Some (VDict record)
                 /\ entity_record action signal_properties s record
                 /\ dict_keys record = [KStr "action"; KStr action].
Proof.
  intros Ha Hget. unfold signal_action_step, dict_index. rewrite Hget. simpl.
  intros (record & Hr & [= <-])%bind_Ok. exists record. split; [done|].
  destruct (build_action_record _ _ _ _ _ Ha Hr) as [Hent _]. split; [done|].
  destruct (signal_build_action_record _ _ _ Ha Hr) as [l ->]. done.
Qed.

(** What a message comparison returns: the property-deltas of the message
    itself, and a signal map in which a signal of both messages has an
    entry exactly when some property of it differs (tagged "changed", with
    the deltas), a signal of the old message only has its full inventory
    tagged "deleted", a signal of the new message only its full inventory
    tagged "added", and no other name has an entry. *)
Theorem message_diff_by_signal old_message new_message ml sc :
  compare_messages old_message new_message = Ok (ml, sc) ->
  compare_properties old_message new_message message_properties = Ok ml
  /\ forall sname,
       match dict_get (msg_signals old_message) sname,
             dict_get (msg_signals new_message) sname with
       | Some so, Some sn =>
           exists cl,
             compare_properties so sn signal_properties = Ok cl
             /\ dict_get sc (KStr sname)
                = match cl with
                  | [] => None
                  | _ => Some (VDict [(KStr "action", VStr "changed");
                                      (KStr "changed", VList cl)])
                  end
       | Some so, None =>
           exists record,
             dict_get sc (KStr sname) = Some (VDict record)
             /\ entity_record "deleted" signal_properties so record
       | None, Some sn =>
           exists record,
             dict_get sc (KStr sname) = Some (VDict record)
             /\ entity_record "added" signal_properties sn record
       | None, None => dict_get sc (KStr sname) = None
       end.
Proof. clear load_file.
  intros (c1 & c2 & Hml & H1 & H2 & H3)%compare_messages_inv. split; [done|].
  intros sname.
  pose proof (cd_NoDup_sda (msg_signals old_message) (msg_signals new_message)) as Hnd.
  cbv zeta in Hnd.
  destruct (dict_get (msg_signals old_message) sname) as [so|] eqn:Hgo;
    destruct (dict_get (msg_signals new_message) sname) as [sn|] eqn:Hgn.
  - destruct (three_loops_first _ _ _ _ _ _ _ _ _ H1 H2 H3 Hnd sname) as (o & Hstep & ->).
    { apply elem_of_cd_same. split; apply dict_get_is_Some; eauto. }
    unfold same_signal_step, dict_index in Hstep. rewrite Hgo, Hgn in Hstep.
    simpl in Hstep. apply bind_Ok in Hstep as (cl & Hcl & [= <-]).
    exists cl. split; [done|]. by destruct cl.
  - destruct (three_loops_second _ _ _ _ _ _ _ _ _ H1 H2 H3 Hnd sname) as (o & Hstep & ->).
    { apply elem_of_cd_deleted. split; [apply dict_get_is_Some; eauto|].
      by apply dict_get_None. }
    destruct (signal_action_step_entity "deleted" _ _ _ _ (or_intror eq_refl) Hgo Hstep)
      as (record & -> & Hent & _). eauto.
  - destruct (three_loops_third _ _ _ _ _ _ _ _ _ H1 H2 H3 Hnd sname) as (o & Hstep & ->).
    { apply elem_of_cd_added. split; [apply dict_get_is_Some; eauto|].
      by apply dict_get_None. }
    destruct (signal_action_step_entity "added" _ _ _ _ (or_introl eq_refl) Hgn Hstep)
      as (record & -> & Hent & _). eauto.
  - apply (three_loops_absent _ _ _ _ _ _ _ _ _ H1 H2 H3).
    apply dict_get_None in Hgo, Hgn. intros Hin. rewrite !elem_of_app in Hin.
    rewrite elem_of_cd_added, elem_of_cd_deleted, elem_of_cd_same in Hin. tauto.
Qed.

Lemma message_action_step_entity action catalog name m o :
  action = "added" \/ action = "deleted" ->
  dict_get catalog name = Some m ->
  message_action_step action catalog name = Ok o ->
  exists record nested,
    o = Some (VDict record)
    /\ entity_record action message_properties m record
    /\ message_signals action (msg_signals m) = Ok nested
    /\ dict_get record (KStr "signals") = Some (VDict nested).
Proof.
  intros Ha Hget. unfold message_action_step, dict_index. rewrite Hget. simpl.
  intros (nested & Hn & (record & Hr & [= <-])%bind_Ok)%bind_Ok.
  exists record, nested. destruct (build_action_record _ _ _ _ _ Ha Hr) as [Hent Hsig].
  split_and!; [done|done|done|]. by apply Hsig.
Qed.

(** What a catalog comparison returns, message by message: a message of
    both catalogs has an entry exactly when its property-deltas or its
    signal map are not empty, tagged "changed" and holding both; a message
    of the old catalog only has its full inventory tagged "deleted", with
    the inventories of its signals under [signals]; a message of the new
    catalog only the same tagged "added"; no other name has an entry. *)
Theorem catalog_diff_by_message old_path new_path r vs old_dbc old_version
    new_dbc new_version :
  compare_dbc old_path new_path = Ok (r, vs) ->
  dbc_loader old_path = Ok (old_dbc, old_version) ->
  dbc_loader new_path = Ok (new_dbc, new_version) ->
  forall name,
    match dict_get old_dbc name, dict_get new_dbc name with
    | Some mo, Some mn =>
        exists ml sc,
          compare_messages mo mn = Ok (ml, sc)
          /\ dict_get r (KStr name)
             = if Nat.ltb 0 (length ml) || Nat.ltb 0 (length sc)
               then Some (VDict [(KStr "action", VStr "changed");
                                 (KStr "changed", VList ml);
                                 (KStr "signals", VDict sc)])
               else None
    | Some mo, None =>
        exists record nested,
          dict_get r (KStr name) = Some (VDict record)
          /\ entity_record "deleted" message_properties mo record
          /\ message_signals "deleted" (msg_signals mo) = Ok nested
          /\ dict_get record (KStr "signals") = Some (VDict nested)
    | None, Some mn =>
        exists record nested,
          dict_get r (KStr name) = Some (VDict record)
          /\ entity_record "added" message_properties mn record
          /\ message_signals "added" (msg_signals mn) = Ok nested
          /\ dict_get record (KStr "signals") = Some (VDict nested)
    | None, None => dict_get r (KStr name) = None
    end.
Proof.
  intros Hc Ho Hn name.
  apply compare_dbc_inv in Hc as (X' & ov' & Y' & nv' & r1 & r2 & Ho' & Hn' & H1 & H2 & H3 & _).
  rewrite Ho in Ho'. rewrite Hn in Hn'. injection Ho' as <- <-. injection Hn' as <- <-.
  pose proof (cd_NoDup_sda old_dbc new_dbc) as Hnd. cbv zeta in Hnd.
  destruct (dict_get old_dbc name) as [mo|] eqn:Hgo;
    destruct (dict_get new_dbc name) as [mn|] eqn:Hgn.
  - destruct (three_loops_first _ _ _ _ _ _ _ _ _ H1 H2 H3 Hnd name) as (o & Hstep & ->).
    { apply elem_of_cd_same. split; apply dict_get_is_Some; eauto. }
    unfold same_message_step, dict_index in Hstep. rewrite Hgo, Hgn in Hstep.
    simpl in Hstep. apply bind_Ok in Hstep as ([ml sc] & Hcm & [= <-]).
    exists ml, sc. split; [done|]. simpl. by destruct (_ || _).
  - destruct (three_loops_second _ _ _ _ _ _ _ _ _ H1 H2 H3 Hnd name) as (o & Hstep & ->).
    { apply elem_of_cd_deleted. split; [apply dict_get_is_Some; eauto|].
      by apply dict_get_None. }
    destruct (message_action_step_entity "deleted" _ _ _ _ (or_intror eq_refl) Hgo Hstep)
      as (record & nested & -> & ?). eauto.
  - destruct (three_loops_third _ _ _ _ _ _ _ _ _ H1 H2 H3 Hnd name) as (o & Hstep & ->).
    { apply elem_of_cd_added. split; [apply dict_get_is_Some; eauto|].
      by apply dict_get_None. }
    destruct (message_action_step_entity "added" _ _ _ _ (or_introl eq_refl) Hgn Hstep)
      as (record & nested & -> & ?). eauto.
  - apply (three_loops_absent _ _ _ _ _ _ _ _ _ H1 H2 H3).
    apply dict_get_None in Hgo, Hgn. intros Hin. rewrite !elem_of_app in Hin.
    rewrite elem_of_cd_added, elem_of_cd_deleted, elem_of_cd_same in Hin. tauto.
Qed.

(** ** The order of the entries of a report *)

Lemma dict_loop_cons {A V} (kf : A -> key) (step : A -> result (option V)) x l d0 :
  dict_loop kf step (x :: l) d0
  = (o ← step x;
     dict_loop kf step l (match o with Some v => dict_set d0 (kf x) v | None => d0 end)).
Proof.
  clear py_repr load_file. unfold dict_loop. simpl. by destruct (step x).
Qed.

(** A loop over names that are new to the dict appends, in the order of
    the list, the keys of the elements it stores a value for. *)
Lemma dict_loop_keys_exact {A V} (kf : A -> key) (step : A -> result (option V)) l d0 d :
  dict_loop kf step l d0 = Ok d ->
  NoDup (kf <$> l) -> (forall x, x ∈ l -> kf x ∉ dict_keys d0) ->
  dict_keys d = dict_keys d0 ++ (kf <$> List.filter (stores step) l).
Proof.
  clear py_repr load_file. revert d0. induction l as [|x l IH]; intros d0.
  - intros [= <-] _ _. simpl. by rewrite app_nil_r.
  - rewrite dict_loop_cons. intros (o & Ho & Hrun)%bind_Ok.
    rewrite fmap_cons. intros [Hx Hnd]%NoDup_cons Hfresh.
    simpl. unfold stores at 1. rewrite Ho.
    destruct o as [v|].
    + rewrite (IH _ Hrun Hnd).
      * rewrite dict_keys_set, decide_False by (apply Hfresh; set_solver).
        rewrite fmap_cons. by rewrite <- app_assoc.
      * intros y Hy. rewrite dict_keys_set, decide_False by (apply Hfresh; set_solver).
        rewrite elem_of_app, list_elem_of_singleton. intros [Hin|Heq].
        -- apply (Hfresh y); [set_solver|done].
        -- apply Hx. rewrite <- Heq. by apply list_elem_of_fmap_2.
    + apply (IH _ Hrun Hnd). intros y Hy. apply Hfresh. set_solver.
Qed.

Lemma three_loops_key_order {V} (s1 s2 s3 : string -> result (option V))
    (l1 l2 l3 : list string) (r1 r2 r3 : dict key V) :
  dict_loop KStr s1 l1 [] = Ok r1 ->
  dict_loop KStr s2 l2 r1 = Ok r2 ->
  dict_loop KStr s3 l3 r2 = Ok r3 ->
  NoDup (l1 ++ l2 ++ l3) ->
  dict_keys r3
  = KStr <$> (List.filter (fun x => bool_decide (is_Some (dict_get r3 (KStr x)))) l1
              ++ List.filter (fun x => bool_decide (is_Some (dict_get r3 (KStr x)))) l2
              ++ List.filter (fun x => bool_decide (is_Some (dict_get r3 (KStr x)))) l3).
Proof.
  clear py_repr load_file. intros H1 H2 H3 Hnd.
  assert (Hext : forall (s : string -> result (option V)) l,
            (forall x, x ∈ l -> exists o, s x = Ok o /\ dict_get r3 (KStr x) = o) ->
            List.filter (stores s) l
            = List.filter (fun x => bool_decide (is_Some (dict_get r3 (KStr x)))) l).
  { intros s l Hs. apply List.filter_ext_in. intros x Hx%list_elem_of_In.
    destruct (Hs x Hx) as (o & Ho & ->). unfold stores. rewrite Ho.
    destruct o; [by rewrite bool_decide_eq_true_2|].
    rewrite bool_decide_eq_false_2; [done|]. by intros [? [=]]. }
  rewrite <- (Hext s1 l1), <- (Hext s2 l2), <- (Hext s3 l3).
  2: { intros x. by apply (three_loops_third s1 s2 s3 l1 l2 l3 r1 r2 r3). }
  2: { intros x. by apply (three_loops_second s1 s2 s3 l1 l2 l3 r1 r2 r3). }
  2: { intros x. by apply (three_loops_first s1 s2 s3 l1 l2 l3 r1 r2 r3). }
  pose proof Hnd as Hnd'.
  apply NoDup_app in Hnd' as (Hn1 & Hd1 & Hn23).
  apply NoDup_app in Hn23 as (Hn2 & Hd2 & Hn3).
  assert (Hinj : forall l : list string, NoDup l -> NoDup (KStr <$> l)).
  { intros l. apply NoDup_fmap_2. by intros ?? [=]. }
  assert (Hk1 : dict_keys r1 = KStr <$> List.filter (stores s1) l1).
  { rewrite (dict_loop_keys_exact _ _ _ _ _ H1); [done|by apply Hinj|].
    intros x _. apply not_elem_of_nil. }
  assert (Hsub : forall (s : string -> result (option V)) l x,
            KStr x ∈ KStr <$> List.filter (stores s) l -> x ∈ l).
  { intros s l x (y & [= ->] & Hy%list_elem_of_In%List.filter_In)%list_elem_of_fmap.
    apply list_elem_of_In. tauto. }
  assert (Hk2 : dict_keys r2
                = KStr <$> (List.filter (stores s1) l1 ++ List.filter (stores s2) l2)).
  { rewrite (dict_loop_keys_exact _ _ _ _ _ H2); [|by apply Hinj|].
    - by rewrite Hk1, fmap_app.
    - intros x Hx. rewrite Hk1. intros Hin%Hsub. apply (Hd1 x Hin). set_solver. }
  rewrite (dict_loop_keys_exact _ _ _ _ _ H3); [|by apply Hinj|].
  - by rewrite Hk2, !fmap_app, <- app_assoc.
  - intros x Hx. rewrite Hk2, fmap_app, elem_of_app. intros [Hin%Hsub|Hin%Hsub].
    + apply (Hd1 x Hin). set_solver.
    + by apply (Hd2 x Hin).
Qed.

Lemma filter_all {A} (f : A -> bool) (l : list A) :
  (forall x, x ∈ l -> f x = true) -> List.filter f l = l.
Proof.
  clear py_repr load_file. induction l as [|x l IH]; intros H; simpl; [done|].
  rewrite (H x) by set_solver. f_equal. apply IH. intros. apply H. set_solver.
Qed.

(** The entries of a report come in three runs: the files of the new
    collection only, then the files of the old collection only, then the
    files of both that have an entry; each run is in ascending order of the
    names.  With the include-unchanged flag every file of both collections
    has an entry.  The entries of a catalog comparison come as: the
    messages of both catalogs that have an entry, then the messages of the
    old catalog only, then the messages of the new catalog only. *)
Theorem report_key_order :
  (forall old_files new_files unchanged report,
      get_report old_files new_files unchanged = Ok report ->
      let cd := compare_dictionaries old_files new_files in
      dict_keys report
      = KStr <$> (cd.1.1 ++ cd.2
                  ++ List.filter
                       (fun f => bool_decide (is_Some (dict_get report (KStr f)))) cd.1.2)
      /\ (unchanged = true -> dict_keys report = KStr <$> (cd.1.1 ++ cd.2 ++ cd.1.2)))
  /\ (forall old_path new_path r vs old_dbc old_version new_dbc new_version,
        compare_dbc old_path new_path = Ok (r, vs) ->
        dbc_loader old_path = Ok (old_dbc, old_version) ->
        dbc_loader new_path = Ok (new_dbc, new_version) ->
        let cd := compare_dictionaries old_dbc new_dbc in
        dict_keys r
        = KStr <$> (List.filter
                      (fun m => bool_decide (is_Some (dict_get r (KStr m)))) cd.1.2
                    ++ cd.2 ++ cd.1.1)).
Proof.
  split.
  - intros old_files new_files unchanged report Hrun cd.
    pose proof Hrun as (r1 & r2 & H1 & H2 & H3)%get_report_inv.
    pose proof (cd_NoDup_ads old_files new_files) as Hnd. cbv zeta in Hnd. fold cd in Hnd.
    fold cd in H1, H2, H3.
    pose proof (three_loops_key_order _ _ _ _ _ _ _ _ _ H1 H2 H3 Hnd) as Hk.
    assert (Ha : List.filter (fun x => bool_decide (is_Some (dict_get report (KStr x))))
                   cd.1.1 = cd.1.1).
    { apply filter_all. intros x Hx. apply bool_decide_eq_true_2.
      destruct (three_loops_first _ _ _ _ _ _ _ _ _ H1 H2 H3 Hnd x Hx) as (o & Ho & ->).
      unfold file_added_step in Ho.
      apply bind_Ok in Ho as (? & _ & (? & _ & [= <-])%bind_Ok). eauto. }
    assert (Hd : List.filter (fun x => bool_decide (is_Some (dict_get report (KStr x))))
                   cd.2 = cd.2).
    { apply filter_all. intros x Hx. apply bool_decide_eq_true_2.
      destruct (three_loops_second _ _ _ _ _ _ _ _ _ H1 H2 H3 Hnd x Hx) as (o & Ho & ->).
      unfold file_deleted_step in Ho.
      apply bind_Ok in Ho as (? & _ & (? & _ & [= <-])%bind_Ok). eauto. }
    rewrite Ha, Hd in Hk. split; [done|]. intros ->. rewrite Hk. do 3 f_equal.
    apply filter_all. intros x Hx. apply bool_decide_eq_true_2.
    destruct (three_loops_third _ _ _ _ _ _ _ _ _ H1 H2 H3 Hnd x Hx) as (o & Ho & ->).
    unfold file_same_step in Ho.
    apply bind_Ok in Ho as (? & _ & (? & _ & (? & _ & (? & _ & Ho)%bind_Ok)%bind_Ok)%bind_Ok).
    destruct (_ || _); injection Ho as <-; eauto.
  - intros old_path new_path r vs X ov Y nv Hc Ho Hn cd.
    apply compare_dbc_inv in Hc as (X' & ov' & Y' & nv' & r1 & r2 & Ho' & Hn' & H1 & H2 & H3 & _).
    rewrite Ho in Ho'. rewrite Hn in Hn'. injection Ho' as <- <-. injection Hn' as <- <-.
    pose proof (cd_NoDup_sda X Y) as Hnd. cbv zeta in Hnd. fold cd in Hnd, H1, H2, H3.
    rewrite (three_loops_key_order _ _ _ _ _ _ _ _ _ H1 H2 H3 Hnd). do 3 f_equal.
    + apply filter_all. intros x Hx. apply bool_decide_eq_true_2.
      destruct (three_loops_second _ _ _ _ _ _ _ _ _ H1 H2 H3 Hnd x Hx) as (o & Hs & ->).
      unfold message_action_step in Hs.
      apply bind_Ok in Hs as (? & _ & (? & _ & (? & _ & [= <-])%bind_Ok)%bind_Ok). eauto.
    + apply filter_all. intros x Hx. apply bool_decide_eq_true_2.
      destruct (three_loops_third _ _ _ _ _ _ _ _ _ H1 H2 H3 Hnd x Hx) as (o & Hs & ->).
      unfold message_action_step in Hs.
      apply bind_Ok in Hs as (? & _ & (? & _ & (? & _ & [= <-])%bind_Ok)%bind_Ok). eauto.
Qed.

(** ** The include-unchanged flag, and identical collections *)

Lemma file_step_unchanged action old_path new_path dr vs :
  action ∈ ["added"; "deleted"; "changed"; "unchanged"] ->
  compare_dbc old_path new_path = Ok (dr, vs) ->
  is_unchanged (VDict (dict_union (build_change action (VDict dr) VNone) vs))
  = String.eqb action "unchanged".
Proof.
  intros Ha Hd.
  apply compare_dbc_inv in Hd as (? & ov & ? & nv & ? & ? & _ & _ & _ & _ & _ & ->).
  destruct (wrapped_union action dr old_path new_path ov nv Ha) as (record & Hr & H1 & _).
  injection Hr as <-. unfold is_unchanged. by rewrite H1.
Qed.

(** The flag only adds entries: the report made without it is the report
    made with it, less the entries tagged "unchanged". *)
Theorem unchanged_flag_only_adds old_files new_files report_all :
  get_report old_files new_files true = Ok report_all ->
  exists report,
    get_report old_files new_files false = Ok report
    /\ forall file,
         dict_get report (KStr file)
         = match dict_get report_all (KStr file) with
           | Some v => if is_unchanged v then None else Some v
           | None => None
           end.
Proof.
  intros (r1 & r2 & H1 & H2 & H3)%get_report_inv.
  pose proof (cd_NoDup_ads old_files new_files) as Hnd. cbv zeta in Hnd.
  assert (Hstep : forall file ot,
            file_same_step old_files new_files true file = Ok ot ->
            exists o, file_same_step old_files new_files false file = Ok o
                      /\ o = match ot with
                             | Some v => if is_unchanged v then None else Some v
                             | None => None
                             end).
  { intros file ot. unfold file_same_step.
    intros (po & -> & (pn & -> & ([dr vs] & Hd & (sv & Hsv & Ho)%bind_Ok)%bind_Ok)%bind_Ok)%bind_Ok.
    cbn [mbind result_bind]. rewrite Hd. cbn [mbind result_bind fst snd] in *.
    rewrite Hsv. cbn [mbind result_bind].
    destruct (_ || _); injection Ho as <-; eexists; (split; [done|]).
    - by rewrite (file_step_unchanged "changed" _ _ _ _ ltac:(set_solver) Hd).
    - by rewrite (file_step_unchanged "unchanged" _ _ _ _ ltac:(set_solver) Hd). }
  destruct (dict_loop_returns KStr (file_same_step old_files new_files false)
              (compare_dictionaries old_files new_files).1.2 r2) as [report H3'].
  { intros x Hx. destruct (dict_loop_steps _ _ _ _ _ x H3 Hx) as [ot Hot].
    by destruct (Hstep x ot Hot) as (o & -> & _). }
  exists report. split.
  { rewrite get_report_loops. cbv zeta. rewrite H1. cbn [mbind result_bind].
    by rewrite H2. }
  intros file.
  destruct (decide (file ∈ (compare_dictionaries old_files new_files).1.1)) as [Ha|Ha];
    [|destruct (decide (file ∈ (compare_dictionaries old_files new_files).2)) as [Hd|Hd];
      [|destruct (decide (file ∈ (compare_dictionaries old_files new_files).1.2))
          as [Hs|Hs]]].
  - destruct (three_loops_first _ _ _ _ _ _ _ _ _ H1 H2 H3 Hnd file Ha) as (o & Ho & ->).
    destruct (three_loops_first _ _ _ _ _ _ _ _ _ H1 H2 H3' Hnd file Ha) as (o' & Ho' & ->).
    rewrite Ho in Ho'. injection Ho' as <-. unfold file_added_step in Ho.
    apply bind_Ok in Ho as (path & _ & ([dr vs] & Hc & [= <-])%bind_Ok).
    by rewrite (file_step_unchanged "added" _ _ _ _ ltac:(set_solver) Hc).
  - destruct (three_loops_second _ _ _ _ _ _ _ _ _ H1 H2 H3 Hnd file Hd) as (o & Ho & ->).
    destruct (three_loops_second _ _ _ _ _ _ _ _ _ H1 H2 H3' Hnd file Hd) as (o' & Ho' & ->).
    rewrite Ho in Ho'. injection Ho' as <-. unfold file_deleted_step in Ho.
    apply bind_Ok in Ho as (path & _ & ([dr vs] & Hc & [= <-])%bind_Ok).
    by rewrite (file_step_unchanged "deleted" _ _ _ _ ltac:(set_solver) Hc).
  - destruct (three_loops_third _ _ _ _ _ _ _ _ _ H1 H2 H3 Hnd file Hs) as (o & Ho & ->).
    destruct (three_loops_third _ _ _ _ _ _ _ _ _ H1 H2 H3' Hnd file Hs) as (o' & Ho' & ->).
    destruct (Hstep file o Ho) as (o'' & Ho'' & ->). congruence.
  - rewrite (three_loops_absent _ _ _ _ _ _ _ _ _ H1 H2 H3 file),
            (three_loops_absent _ _ _ _ _ _ _ _ _ H1 H2 H3' file); [done| |];
      rewrite !elem_of_app; tauto.
Qed.

Lemma compare_dbc_same old_path new_path catalog v :
  dbc_loader (Some old_path) = Ok (catalog, v) ->
  dbc_loader (Some new_path) = Ok (catalog, v) ->
  catalog_ok catalog = true -> catalog_wf catalog = true ->
  catalog_nan_free catalog = true ->
  compare_dbc (Some old_path) (Some new_path)
  = Ok ([], versions_of (Some old_path) (Some new_path) v v)
  /\ py_eqb v v = true.
Proof.
  intros Ho Hn Hok Hwf Hnan. split.
  - rewrite compare_dbc_loops, Ho, Hn. cbn [mbind result_bind fst snd].
    rewrite dict_loop_skip; cbn [mbind result_bind].
    2: { intros name Hin%cd_self_same. unfold same_message_step.
         destruct (dict_index_elem _ _ Hin) as (m & -> & Hget). simpl.
         destruct (catalog_ok_message _ _ _ Hok Hget) as [Hc Hcs].
         destruct (catalog_wf_message _ _ _ Hwf Hget) as [Hw Hws].
         destruct (catalog_nan_free_message _ _ _ Hnan Hget) as [Hf Hfs].
         rewrite compare_messages_same; [done..|]. intros sname s Hs.
           split_and!; eauto. }
    rewrite dict_loop_skip; cbn [mbind result_bind].
    2: { intros name Hin. by apply cd_self_deleted in Hin. }
    rewrite dict_loop_skip; cbn [mbind result_bind]; [done|].
    intros name Hin. by apply cd_self_added in Hin.
  - apply dbc_loader_version in Ho as [_ ->].
    apply py_eqb_refl; by destruct (side_version _).
Qed.

(** Two collections with the same file names, whose files load pairwise
    into the same catalog, a catalog that holds no NaN in the attributes
    that are compared as they are, give an empty report; with the
    include-unchanged flag, a report in which every file is tagged
    "unchanged". *)
Theorem identical_collections old_files new_files :
  (forall file, file ∈ dict_keys old_files <-> file ∈ dict_keys new_files) ->
  (forall file old_path new_path,
      dict_get old_files file = Some old_path ->
      dict_get new_files file = Some new_path ->
      exists catalog v,
        dbc_loader (Some old_path) = Ok (catalog, v)
        /\ dbc_loader (Some new_path) = Ok (catalog, v)
        /\ catalog_ok catalog = true /\ catalog_wf catalog = true
        /\ catalog_nan_free catalog = true) ->
  get_report old_files new_files false = Ok []
  /\ exists report,
       get_report old_files new_files true = Ok report
       /\ dict_keys report = KStr <$> sorted (elements (list_to_set (dict_keys old_files) : gset string))
       /\ forall file, file ∈ dict_keys old_files ->
            exists v, dict_get report (KStr file) = Some v /\ is_unchanged v = true.
Proof.
  intros Hkeys Hsame.
  assert (Hstep : forall file, file ∈ dict_keys old_files ->
            forall unchanged,
            exists old_path new_path v,
              compare_dbc (Some old_path) (Some new_path)
              = Ok ([], versions_of (Some old_path) (Some new_path) v v)
              /\ file_same_step old_files new_files unchanged file
                 = Ok (if unchanged
                       then Some (VDict (dict_union
                                    (build_change "unchanged" (VDict []) VNone)
                                    (versions_of (Some old_path) (Some new_path) v v)))
                       else None)).
  { intros file Hin unchanged.
    destruct (dict_index_elem _ _ Hin) as (po & Hio & Hgo).
    destruct (dict_index_elem new_files file) as (pn & Hin' & Hgn); [by apply Hkeys|].
    destruct (Hsame file po pn Hgo Hgn) as (catalog & v & Ho & Hn & Hok & Hwf & Hnan).
    destruct (compare_dbc_same _ _ _ _ Ho Hn Hok Hwf Hnan) as [Hc Hv].
    exists po, pn, v. split; [done|]. unfold file_same_step.
    rewrite Hio, Hin'. cbn [mbind result_bind]. rewrite Hc. cbn [mbind result_bind fst snd].
    unfold pydict_index. rewrite versions_of_same_version. cbn [mbind result_bind].
    rewrite Hv. simpl. by destruct unchanged. }
  assert (Hloops : forall unchanged,
            get_report old_files new_files unchanged
            = dict_loop KStr (file_same_step old_files new_files unchanged)
                (compare_dictionaries old_files new_files).1.2 []).
  { intros unchanged. rewrite get_report_loops. cbv zeta.
    rewrite dict_loop_skip; cbn [mbind result_bind].
    2: { intros x [Hn Ho]%elem_of_cd_added. exfalso. apply Ho. by apply Hkeys. }
    rewrite dict_loop_skip; cbn [mbind result_bind]; [done|].
    intros x [Ho Hn]%elem_of_cd_deleted. exfalso. apply Hn. by apply Hkeys. }
  split.
  - rewrite Hloops. apply dict_loop_skip. intros x [Ho _]%elem_of_cd_same.
    by destruct (Hstep x Ho false) as (? & ? & ? & _ & ->).
  - rewrite Hloops.
    destruct (dict_loop_returns KStr (file_same_step old_files new_files true)
                (compare_dictionaries old_files new_files).1.2 []) as [report Hrun].
    { intros x [Ho _]%elem_of_cd_same.
      by destruct (Hstep x Ho true) as (? & ? & ? & _ & ->). }
    exists report. split_and!; [done| |].
    + rewrite (dict_loop_keys_exact _ _ _ _ _ Hrun).
      * simpl. f_equal. rewrite filter_all.
        -- unfold compare_dictionaries. simpl. f_equal. f_equal.
           apply set_eq. intros x. rewrite elem_of_intersection, !elem_of_list_to_set.
           specialize (Hkeys x). tauto.
        -- intros x [Ho _]%elem_of_cd_same. unfold stores.
           by destruct (Hstep x Ho true) as (? & ? & ? & _ & ->).
      * apply NoDup_fmap_2; [by intros ?? [=]|]. apply sorted_NoDup, NoDup_elements.
      * intros x _. apply not_elem_of_nil.
    + intros file Hin.
      destruct (dict_loop_lookup _ _ _ _ _ file Hrun) as (o & Ho & Hget).
      { by intros ?? _ _ [= ->]. }
      { apply elem_of_cd_same. split; [done | by apply Hkeys]. }
      destruct (Hstep file Hin true) as (po & pn & v & Hc & Hs).
      rewrite Hs in Ho. injection Ho as <-.
      exists (VDict (dict_union (build_change "unchanged" (VDict []) VNone)
                       (versions_of (Some po) (Some pn) v v))).
      split; [done|].
      by rewrite (file_step_unchanged "unchanged" _ _ _ _ ltac:(set_solver) Hc).
Qed.

(** ** What can go wrong *)

Lemma converter_input_error value from_type e :
  converter value from_type = Err e -> input_error e.
Proof.
  clear load_file. unfold converter. repeat case_match; try done.
  - intros [Hq|(? & _ & [=])]%bind_Err.
    destruct value; simpl in Hq; first [discriminate Hq | by injection Hq as <-].
  - intros [Hq|(d & Hd & Hq)]%bind_Err.
    { destruct value; simpl in Hq; first [discriminate Hq | by injection Hq as <-]. }
    apply bind_Err in Hq as [Hq|(? & _ & [=])].
    apply for_each_Err in Hq as (r & [k v] & _ & Hb). simpl in Hb.
    apply bind_Err in Hb as [Hb|(? & _ & [=])].
    destruct k as [z|x]; [done|]. simpl in Hb. unfold int_of_string in Hb.
    repeat case_match; first [discriminate Hb | by injection Hb as <-].
  - intros [Hq|(? & _ & [=])]%bind_Err.
    assert (Hs : forall l e', strs_of_list l = Err e' -> e' = TypeError).
    { clear. induction l as [|x l IH]; intros e'; simpl; [done|].
      destruct x; try by intros [= <-].
      intros [Hq|(? & _ & [=])]%bind_Err. auto. }
    destruct value; simpl in Hq; try first [discriminate Hq | by injection Hq as <-].
    + apply bind_Err in Hq as [Hq|(? & _ & [=])]. by rewrite (Hs _ _ Hq).
    + apply bind_Err in Hq as [Hq|(? & _ & [=])]. by rewrite (Hs _ _ Hq).
Qed.

Lemma getattr_input_error {T} `{PyObject T} (o : T) name e :
  getattr o name = Err e -> input_error e.
Proof. clear py_repr load_file. unfold getattr. destruct (dict_get _ _); by intros [= <-]. Qed.

Lemma compare_properties_input_error {T} `{PyObject T} (o n : T) properties e :
  compare_properties o n properties = Err e -> input_error e.
Proof.
  rewrite compare_properties_loop. intros (p & _ & Hq)%list_loop_Err.
  unfold property_delta in Hq. split_failure Hq; try done.
  - by apply getattr_input_error in Hq.
  - by apply converter_input_error in Hq.
  - by apply getattr_input_error in Hq.
  - by apply converter_input_error in Hq.
Qed.

Lemma build_action_input_error {T} `{PyObject T} action (item : T) properties sigs e :
  action = "added" \/ action = "deleted" ->
  build_action action item properties sigs = Err e -> input_error e.
Proof.
  intros Ha. rewrite build_action_loop. intros [Hq|(l & _ & [=])]%bind_Err.
  apply list_loop_Err in Hq as (p & _ & Hq). unfold inventory_delta in Hq.
  apply bind_Err in Hq as [Hq|(raw & _ & Hq)]; [by apply getattr_input_error in Hq|].
  apply bind_Err in Hq as [Hq|(v & _ & Hq)]; [by apply converter_input_error in Hq|].
  by destruct Ha as [-> | ->].
Qed.

Lemma dict_index_present {V} (d : dict string V) k e :
  k ∈ dict_keys d -> dict_index d k ≠ Err e.
Proof.
  clear py_repr load_file. intros (v & -> & _)%dict_index_elem. done.
Qed.

Lemma compare_messages_input_error old_message new_message e :
  compare_messages old_message new_message = Err e -> input_error e.
Proof.
  rewrite compare_messages_loops. intros Hq. split_failure Hq; [| | | |done].
  - by apply compare_properties_input_error in Hq.
  - apply dict_loop_Err in Hq as (name & [Ho Hn]%elem_of_cd_same & Hq).
    unfold same_signal_step in Hq. split_failure Hq; [| | |done].
    + by apply dict_index_present in Hq.
    + by apply dict_index_present in Hq.
    + by apply compare_properties_input_error in Hq.
  - apply dict_loop_Err in Hq as (name & [Ho Hn]%elem_of_cd_deleted & Hq).
    unfold signal_action_step in Hq. split_failure Hq; [| |done].
    + by apply dict_index_present in Hq.
    + apply build_action_input_error in Hq; auto.
  - apply dict_loop_Err in Hq as (name & [Hn Ho]%elem_of_cd_added & Hq).
    unfold signal_action_step in Hq. split_failure Hq; [| |done].
    + by apply dict_index_present in Hq.
    + apply build_action_input_error in Hq; auto.
Qed.

Lemma message_action_step_input_error action catalog name e :
  action = "added" \/ action = "deleted" -> name ∈ dict_keys catalog ->
  message_action_step action catalog name = Err e -> input_error e.
Proof.
  intros Ha Hin Hq. unfold message_action_step in Hq. split_failure Hq; [| | |done].
  - by apply dict_index_present in Hq.
  - rewrite message_signals_loop in Hq. apply dict_loop_Err in Hq as (item & _ & Hq).
    unfold signal_item_step in Hq. split_failure Hq; [|done].
    by apply build_action_input_error in Hq.
  - by apply build_action_input_error in Hq.
Qed.

Lemma dbc_loader_input_error path e : dbc_loader path = Err e -> e = LoadError.
Proof.
  clear py_repr. destruct path as [path|]; simpl; [|done].
  destruct (load_file path); simpl; [done|]. by intros [= <-].
Qed.

Lemma compare_dbc_input_error old_path new_path e :
  compare_dbc old_path new_path = Err e -> input_error e.
Proof.
  rewrite compare_dbc_loops. intros Hq. split_failure Hq; [| | | | |done].
  - by apply dbc_loader_input_error in Hq as ->.
  - by apply dbc_loader_input_error in Hq as ->.
  - apply dict_loop_Err in Hq as (name & [Ho Hn]%elem_of_cd_same & Hq).
    unfold same_message_step in Hq. split_failure Hq; [| | |done].
    + by apply dict_index_present in Hq.
    + by apply dict_index_present in Hq.
    + by apply compare_messages_input_error in Hq.
  - apply dict_loop_Err in Hq as (name & [Ho Hn]%elem_of_cd_deleted & Hq).
    apply message_action_step_input_error in Hq; auto.
  - apply dict_loop_Err in Hq as (name & [Hn Ho]%elem_of_cd_added & Hq).
    apply message_action_step_input_error in Hq; auto.
Qed.

(** The file-set differ fails only on its input: with a file that does
    not load, an attribute that is missing, or a value that its kind does
    not accept.  It never fails on a missing key, whatever the two
    collections hold. *)
Theorem get_report_fails_on_input_only old_files new_files unchanged e :
  get_report old_files new_files unchanged = Err e ->
  input_error e /\ (forall k, e ≠ KeyError k) /\ e ≠ CriticalError.
Proof.
  intros Hq. assert (Hin : input_error e); [|by destruct e].
  rewrite get_report_loops in Hq. split_failure Hq.
  - apply dict_loop_Err in Hq as (name & [Hn Ho]%elem_of_cd_added & Hq).
    unfold file_added_step in Hq. split_failure Hq; [| |done].
    + by apply dict_index_present in Hq.
    + by apply compare_dbc_input_error in Hq.
  - apply dict_loop_Err in Hq as (name & [Ho Hn]%elem_of_cd_deleted & Hq).
    unfold file_deleted_step in Hq. split_failure Hq; [| |done].
    + by apply dict_index_present in Hq.
    + by apply compare_dbc_input_error in Hq.
  - apply dict_loop_Err in Hq as (name & [Ho Hn]%elem_of_cd_same & Hq).
    unfold file_same_step in Hq. split_failure Hq; [| | | |done].
    + by apply dict_index_present in Hq.
    + by apply dict_index_present in Hq.
    + by apply compare_dbc_input_error in Hq.
    + exfalso. destruct a3 as [dr vs].
      apply compare_dbc_inv in Ha3 as (? & ? & ? & ? & ? & ? & _ & _ & _ & _ & _ & Hvs).
      unfold pydict_index in Hq. simpl in Hq. rewrite Hvs in Hq.
      by rewrite versions_of_same_version in Hq.
Qed.

Lemma dbc_loader_loads path x : dbc_loader (Some path) = Ok x -> is_Some (load_file path).
Proof. clear py_repr. simpl. destruct (load_file path); [eauto | done]. Qed.

(** A report is returned only if every file of both collections loads:
    one file that does not load leaves no report at all. *)
Theorem report_needs_every_file old_files new_files unchanged report :
  get_report old_files new_files unchanged = Ok report ->
  forall file path,
    dict_get old_files file = Some path \/ dict_get new_files file = Some path ->
    is_Some (load_file path).
Proof.
  intros (r1 & r2 & H1 & H2 & H3)%get_report_inv file path Hpath.
  assert (Hadd : forall f o, file_added_step new_files f = Ok o ->
            forall q, dict_get new_files f = Some q -> is_Some (load_file q)).
  { intros f o. unfold file_added_step, dict_index. intros Hs q Hq. rewrite Hq in Hs.
    simpl in Hs. apply bind_Ok in Hs as ([dr vs] & Hc & _).
    apply compare_dbc_inv in Hc as (? & ? & ? & ? & ? & ? & _ & Hn & _).
    by apply dbc_loader_loads in Hn. }
  assert (Hdel : forall f o, file_deleted_step old_files f = Ok o ->
            forall q, dict_get old_files f = Some q -> is_Some (load_file q)).
  { intros f o. unfold file_deleted_step, dict_index. intros Hs q Hq. rewrite Hq in Hs.
    simpl in Hs. apply bind_Ok in Hs as ([dr vs] & Hc & _).
    apply compare_dbc_inv in Hc as (? & ? & ? & ? & ? & ? & Ho & _).
    by apply dbc_loader_loads in Ho. }
  assert (Hsame : forall f o, file_same_step old_files new_files unchanged f = Ok o ->
            forall q, dict_get old_files f = Some q \/ dict_get new_files f = Some q ->
                      is_Some (load_file q)).
  { intros f o. unfold file_same_step.
    intros (po & Hpo%dict_index_Ok & (pn & Hpn%dict_index_Ok & ([dr vs] & Hc & _)%bind_Ok)%bind_Ok)%bind_Ok.
    apply compare_dbc_inv in Hc as (? & ? & ? & ? & ? & ? & Ho & Hn & _).
    apply dbc_loader_loads in Ho, Hn.
    intros q [Hq|Hq]; congruence. }
  destruct (decide (file ∈ dict_keys old_files)) as [Ho|Ho],
           (decide (file ∈ dict_keys new_files)) as [Hn|Hn].
  - destruct (dict_loop_steps _ _ _ _ _ file H3) as [o Hs]; [by apply elem_of_cd_same|].
    by apply (Hsame file o Hs).
  - destruct (dict_loop_steps _ _ _ _ _ file H2) as [o Hs]; [by apply elem_of_cd_deleted|].
    destruct Hpath as [Hq|Hq]; [by apply (Hdel file o Hs)|].
    exfalso. apply Hn, dict_get_is_Some. eauto.
  - destruct (dict_loop_steps _ _ _ _ _ file H1) as [o Hs]; [by apply elem_of_cd_added|].
    destruct Hpath as [Hq|Hq]; [|by apply (Hadd file o Hs)].
    exfalso. apply Ho, dict_get_is_Some. eauto.
  - exfalso. destruct Hpath as [Hq|Hq]; [apply Ho | apply Hn]; apply dict_get_is_Some; eauto.
Qed.

(** ** The collections of files *)

Lemma endswith_spec s suffix :
  endswith s suffix = true <-> exists p, s = (p ++ suffix)%string.
Proof.
  assert (Hcons : forall s, endswith s suffix
            = String.eqb s suffix
              || match s with EmptyString => false | String _ s' => endswith s' suffix end).
  { by intros []. }
  induction s as [|c s IH]; rewrite Hcons, orb_true_iff, String.eqb_eq.
  - split.
    + intros [<- | [=]]. by exists EmptyString.
    + intros [p Hp]. destruct p; simpl in Hp; [by left | discriminate].
  - rewrite IH. split.
    + intros [<- | [p ->]]; [by exists EmptyString | by exists (String c p)].
    + intros [p Hp]. destruct p as [|c' p]; simpl in Hp; [by left|].
      injection Hp as -> ->. right. eauto.
Qed.

Lemma str_app_cons c (a b : string) : (String c a ++ b = String c (a ++ b))%string.
Proof. reflexivity. Qed.

Lemma str_app_nil (b : string) : (EmptyString ++ b = b)%string.
Proof. reflexivity. Qed.

Lemma str_app_assoc (a b c : string) : ((a ++ b) ++ c = a ++ b ++ c)%string.
Proof.
  induction a as [|x a IH]; [done|]. by rewrite !str_app_cons, IH.
Qed.

Lemma has_sep_app a b : has_sep (a ++ b)%string = has_sep a || has_sep b.
Proof.
  induction a as [|c a IH]; [done|].
  rewrite str_app_cons. simpl. by rewrite IH, orb_assoc.
Qed.

Lemma basename_no_sep f : has_sep f = false -> basename f = f.
Proof.
  destruct f as [|c f]; simpl; [done|].
  intros [Hc Hf]%orb_false_iff. by rewrite Hf, Hc.
Qed.

Lemma basename_app_sep a f :
  has_sep f = false -> basename (a ++ "/" ++ f)%string = f.
Proof.
  intros Hf. induction a as [|c a IH].
  - rewrite str_app_nil, str_app_cons, str_app_nil. simpl. by rewrite Hf.
  - rewrite str_app_cons. simpl. rewrite has_sep_app, str_app_cons. simpl.
    by rewrite orb_true_r.
Qed.

Lemma basename_join a f : has_sep f = false -> basename (path_join a f) = f.
Proof.
  intros Hf. unfold path_join.
  destruct (String.prefix "/" f) eqn:Hp.
  { destruct f as [|c f]; [done|]. cbn [String.prefix] in Hp.
    destruct (ascii_dec "/" c) as [<-|]; [by simpl in Hf | done]. }
  destruct (String.eqb a "" || endswith a "/") eqn:Ha.
  - apply orb_true_iff in Ha as [->%String.eqb_eq | [q ->]%endswith_spec].
    + by apply basename_no_sep.
    + rewrite str_app_assoc. by apply basename_app_sep.
  - by apply basename_app_sep.
Qed.

Lemma dict_set_length {V} (d : dict string V) k v :
  length (dict_set d k v)
  = match dict_get d k with Some _ => length d | None => S (length d) end.
Proof.
  induction d as [|[k0 v0] d IH]; simpl; [done|].
  destruct (decide (k0 = k)); simpl; [done|]. rewrite IH. by destruct (dict_get d k).
Qed.

Lemma enum_files_inner ext current_path files (st : dict string string * list string) :
  let st' := fold_left (fun (st : dict string string * list string) file =>
      let (populated_files, log) := st in
      if endswith file ext then
        let file_path := path_join current_path file in
        let log :=
          match dict_get populated_files file with
          | Some found =>
              log ++ [("error: same DBC file found more than once: "
                       ++ found ++ " and " ++ file_path)%string]
          | None => log
          end in
        (dict_set populated_files file file_path, log)
      else st) files st in
  let occ := (fun file => (file, path_join current_path file))
               <$> List.filter (fun file => endswith file ext) files in
  st'.1 = fold_left (fun d x => dict_set d (fst x) (snd x)) occ st.1 /\
  (length st'.2 + length st'.1 = length st.2 + length st.1 + length occ)%nat.
Proof.
  revert st. induction files as [|file files IH]; intros [d log]; simpl.
  - split; [done | lia].
  - destruct (endswith file ext) eqn:E; csimpl; [|apply (IH (d, log))].
    match goal with |- context [fold_left _ files ?s] => destruct (IH s) as [IH1 IH2] end.
    split; [exact IH1|]. etrans; [exact IH2|]. cbn [fst snd].
    rewrite dict_set_length.
    destruct (dict_get d file); cbn [length]; rewrite ?length_app; cbn [length]; lia.
Qed.

Lemma enum_files_matches fs folder ext :
  (enum_files fs folder ext).1
  = fold_left (fun d x => dict_set d (fst x) (snd x)) (walk_matches fs folder ext) [] /\
  (length (enum_files fs folder ext).2 + length (enum_files fs folder ext).1
   = length (walk_matches fs folder ext))%nat.
Proof.
  unfold enum_files, walk_matches.
  generalize (walk fs folder). intros w.
  assert (G : forall st : dict string string * list string,
    let st' := fold_left (fun st '(current_path, folders, files) =>
      fold_left (fun (st : dict string string * list string) file =>
        let (populated_files, log) := st in
        if endswith file ext then
          let file_path := path_join current_path file in
          let log :=
            match dict_get populated_files file with
            | Some found =>
                log ++ [("error: same DBC file found more than once: "
                         ++ found ++ " and " ++ file_path)%string]
            | None => log
            end in
          (dict_set populated_files file file_path, log)
        else st) files st) w st in
    let occ := flat_map (fun '(current_path, folders, files) =>
        (fun file => (file, path_join current_path file))
          <$> List.filter (fun file => endswith file ext) files) w in
    st'.1 = fold_left (fun d x => dict_set d (fst x) (snd x)) occ st.1 /\
    (length st'.2 + length st'.1 = length st.2 + length st.1 + length occ)%nat).
  { induction w as [|[[cp folders] files] w IH]; intros st; simpl.
    - split; [done | lia].
    - destruct (enum_files_inner ext cp files st) as [E1 E2]. simpl in E1, E2.
      match goal with |- context [fold_left _ w ?s] => destruct (IH s) as [IH1 IH2] end.
      simpl in IH1, IH2. rewrite fold_left_app, length_app. split.
      + by rewrite IH1, E1.
      + rewrite IH2, E2. lia. }
  destruct (G ([], [])) as [G1 G2]. simpl in G1, G2. split; [exact G1|].
  rewrite G2. lia.
Qed.

Lemma elem_of_walk_matches fs folder ext file path :
  (file, path) ∈ walk_matches fs folder ext <->
  exists current_path folders files,
    (current_path, folders, files) ∈ walk fs folder /\ file ∈ files /\
    endswith file ext = true /\ path = path_join current_path file.
Proof.
  unfold walk_matches. rewrite list_elem_of_In, in_flat_map. split.
  - intros ([[cp folders] files] & Hin & Hx). apply list_elem_of_In in Hin, Hx.
    apply list_elem_of_fmap in Hx as (f & [= -> ->] & Hf).
    apply list_elem_of_In, filter_In in Hf as [Hf He]. apply list_elem_of_In in Hf.
    by exists cp, folders, files.
  - intros (cp & folders & files & Hin & Hf & He & ->).
    exists (cp, folders, files). split; [by apply list_elem_of_In|].
    apply list_elem_of_In, list_elem_of_fmap. exists file. split; [done|].
    apply list_elem_of_In, filter_In. split; [by apply list_elem_of_In | done].
Qed.

Lemma find_key_absent {V} (l : list (string * V)) k :
  k ∉ l.*1 -> find (fun x => bool_decide (x.1 = k)) l = None.
Proof. clear load_file.
  induction l as [|[k0 v] l IH]; csimpl; [done|].
  intros Hk. rewrite bool_decide_false; [|set_solver]. apply IH. set_solver.
Qed.

Lemma find_key_present {V} (g : string -> V) (l : list string) k :
  k ∈ l -> find (fun x => bool_decide (x.1 = k)) ((fun f => (f, g f)) <$> l) = Some (k, g k).
Proof. clear load_file.
  induction l as [|f l IH]; csimpl; [set_solver|].
  intros Hk. case_bool_decide as Hf; [by subst|]. apply IH. set_solver.
Qed.

(** [enum_files] keeps one path for each name that bears the extension
    somewhere in the tree, and when a name occurs in several folders, the
    path in the folder that the walk meets last. *)
Theorem enum_files_last_wins fs folder file_extension :
  NoDup (dict_keys (enum_files fs folder file_extension).1) /\
  (forall file,
     file ∈ dict_keys (enum_files fs folder file_extension).1 <->
     endswith file file_extension = true /\
     exists current_path folders files,
       (current_path, folders, files) ∈ walk fs folder /\ file ∈ files) /\
  (forall pre current_path folders files post file,
     walk fs folder = pre ++ (current_path, folders, files) :: post ->
     file ∈ files -> endswith file file_extension = true ->
     (forall entry, entry ∈ post -> file ∉ entry.2) ->
     dict_get (enum_files fs folder file_extension).1 file
     = Some (path_join current_path file)).
Proof.
  destruct (enum_files_matches fs folder file_extension) as [-> _]. split_and!.
  - apply fold_dict_set_NoDup. constructor.
  - intros file. rewrite fold_dict_set_keys, list_elem_of_fmap. split.
    + intros [Hn | ([f q] & -> & Hx)]; [by apply elem_of_nil in Hn|].
      apply elem_of_walk_matches in Hx as (cp & folders & files & ? & ? & ? & _).
      split; [done|]. by exists cp, folders, files.
    + intros [He (cp & folders & files & Hin & Hf)]. right.
      exists (file, path_join cp file). split; [done|].
      apply elem_of_walk_matches. by exists cp, folders, files.
  - intros pre cp folders files post file Hw Hf He Hpost.
    rewrite fold_dict_set_get. unfold walk_matches. rewrite Hw, flat_map_app.
    cbn [flat_map]. rewrite !reverse_app, <- !app_assoc, !find_app_last.
    rewrite find_key_absent.
    2:{ intros ([f q] & Hq & Hx)%list_elem_of_fmap. simpl in Hq. subst f.
        apply elem_of_reverse, list_elem_of_In, in_flat_map in Hx
          as ([[cp' folders'] files'] & Hin & Hx).
        apply list_elem_of_In in Hin, Hx.
        apply list_elem_of_fmap in Hx as (f & [= -> _] & Hx).
        apply list_elem_of_In, filter_In in Hx as [Hx _]. apply list_elem_of_In in Hx.
        by apply (Hpost _ Hin). }
    rewrite <- fmap_reverse, (find_key_present (path_join cp)); [done|].
    apply elem_of_reverse, list_elem_of_In, filter_In.
    split; [by apply list_elem_of_In | done].
Qed.

(** One error is logged for every file met under a name that is already
    taken: the log is empty exactly when no two files of the tree that bear
    the extension share their name. *)
Theorem enum_files_errors fs folder file_extension :
  (length (enum_files fs folder file_extension).2
   + length (dict_keys (enum_files fs folder file_extension).1)
   = length (walk_matches fs folder file_extension))%nat /\
  ((enum_files fs folder file_extension).2 = []
   <-> NoDup ((walk_matches fs folder file_extension).*1)).
Proof.
  destruct (enum_files_matches fs folder file_extension) as [Hd Hlen].
  assert (Hk : length (dict_keys (enum_files fs folder file_extension).1)
               = length (enum_files fs folder file_extension).1).
  { unfold dict_keys. apply length_map. }
  assert (Hnd : NoDup (dict_keys (enum_files fs folder file_extension).1)).
  { rewrite Hd. apply fold_dict_set_NoDup. constructor. }
  assert (Hel : forall k, k ∈ dict_keys (enum_files fs folder file_extension).1
                          <-> k ∈ (walk_matches fs folder file_extension).*1).
  { intros k. rewrite Hd, fold_dict_set_keys. split; [|by right].
    intros [Hn|]; [by apply elem_of_nil in Hn | done]. }
  split; [lia|]. split.
  - intros Hlog. rewrite Hlog in Hlen. simpl in Hlen.
    assert (Hp : dict_keys (enum_files fs folder file_extension).1
                 ≡ₚ (walk_matches fs folder file_extension).*1).
    { apply submseteq_length_Permutation.
      - apply NoDup_submseteq; [done|]. intros k. apply Hel.
      - rewrite length_fmap. lia. }
    by rewrite <- Hp.
  - intros Hn.
    assert (Hp : dict_keys (enum_files fs folder file_extension).1
                 ≡ₚ (walk_matches fs folder file_extension).*1).
    { by apply NoDup_Permutation. }
    apply Permutation_length in Hp. rewrite length_fmap in Hp.
    apply length_zero_iff_nil. lia.
Qed.

(** Every path that [enum_files] keeps is the folder of a file of the tree
    joined with its name; when the names that the walk lists hold no
    separator, the name is the base name of the path, which is also the key
    a single file gets. *)
Theorem enum_files_basename fs folder file_extension :
  (forall current_path folders files file,
     (current_path, folders, files) ∈ walk fs folder -> file ∈ files ->
     has_sep file = false) ->
  forall file path,
    dict_get (enum_files fs folder file_extension).1 file = Some path ->
    basename path = file /\
    exists current_path folders files,
      (current_path, folders, files) ∈ walk fs folder /\ file ∈ files /\
      path = path_join current_path file.
Proof.
  intros Hsep file path. destruct (enum_files_matches fs folder file_extension) as [-> _].
  rewrite fold_dict_set_get.
  destruct (find _ _) as [[f q]|] eqn:Hfind; [|done]. intros [= <-].
  apply find_some in Hfind as [Hin Hf]. apply bool_decide_eq_true in Hf.
  simpl in Hf. subst f.
  apply list_elem_of_In, elem_of_reverse, elem_of_walk_matches in Hin
    as (cp & folders & files & Hin & Hf & _ & ->).
  split; [|by exists cp, folders, files].
  apply basename_join. by apply (Hsep cp folders files).
Qed.

(** ** The two sources of [main] *)

Lemma dict_pop_single {V} k (v : V) : dict_pop [(k, v)] k = Ok (v, []).
Proof.
  clear py_repr load_file. unfold dict_pop. simpl.
  rewrite decide_True by done. by rewrite String.eqb_refl.
Qed.

Lemma main_files_two_files fs old new :
  isdir fs old = false -> isfile fs old = true ->
  isdir fs new = false -> isfile fs new = true ->
  main_files fs old new
  = let name := if String.eqb (basename old) (basename new) then basename old
                else (basename old ++ " -> " ++ basename new)%string in
    ([], Ok ([(name, old)], [(name, new)])).
Proof.
  clear py_repr load_file. intros Hdo Hfo Hdn Hfn. unfold main_files.
  rewrite Hdo, Hfo, Hdn, Hfn.
  destruct (String.eqb (basename old) (basename new)) eqn:E; simpl.
  - by apply String.eqb_eq in E as <-.
  - by rewrite dict_pop_single.
Qed.

(** The first part of [main] fails exactly when one of the two sources is
    neither a folder nor a file, and then with [ValueError]: moving the one
    old file to its new name never misses the key. *)
Theorem main_files_unknown_source fs old new e :
  (main_files fs old new).2 = Err e <->
  e = ValueError /\
  ((isdir fs old = false /\ isfile fs old = false)
   \/ (isdir fs new = false /\ isfile fs new = false)).
Proof.
  destruct (isdir fs old) eqn:Hdo, (isfile fs old) eqn:Hfo,
           (isdir fs new) eqn:Hdn, (isfile fs new) eqn:Hfn;
    try (rewrite main_files_two_files by done; simpl;
         split; [intros [=] | intros [_ [[? ?]|[? ?]]]; congruence]);
    unfold main_files; rewrite ?Hdo, ?Hfo, ?Hdn, ?Hfn;
    repeat (match goal with |- context [enum_files ?a ?b ?c] =>
              destruct (enum_files a b c) end); simpl;
    first [ split; [intros [=] | intros [_ [[? ?]|[? ?]]]; congruence]
          | split; [intros [= <-]; split; [done|auto] | by intros [-> _]] ].
Qed.

Lemma cd_single {A B} k (a : A) (b : B) :
  compare_dictionaries [(k, a)] [(k, b)] = ([], [k], []).
Proof. clear load_file.
  unfold compare_dictionaries. simpl.
  assert (S1 : (list_to_set [k] ∖ list_to_set [k] : gset string) = ∅) by set_solver.
  assert (S2 : (list_to_set [k] ∩ list_to_set [k] : gset string) = {[k]}) by set_solver.
  simpl in S1, S2. by rewrite S1, S2, elements_empty, elements_singleton.
Qed.

(** Two single files are always compared with each other, whatever their
    names: the report has no entry but theirs, under the common base name
    or under "old name -> new name", and never an added or a deleted
    file. *)
Theorem two_files_one_entry fs old new unchanged :
  isdir fs old = false -> isfile fs old = true ->
  isdir fs new = false -> isfile fs new = true ->
  let name := if String.eqb (basename old) (basename new) then basename old
              else (basename old ++ " -> " ++ basename new)%string in
  (main_report fs old new unchanged).1 = [] /\
  (main_report fs old new unchanged).2
  = ('(dbc_report, versions) ← compare_dbc (Some old) (Some new);
     same_version ← pydict_index versions (KStr "same_version");
     Ok (if Nat.ltb 0 (length dbc_report) || negb (py_truthy same_version)
         then [(KStr name,
                VDict (dict_union (build_change "changed" (VDict dbc_report) VNone)
                                  versions))]
         else if unchanged
         then [(KStr name,
                VDict (dict_union (build_change "unchanged" (VDict dbc_report) VNone)
                                  versions))]
         else [])).
Proof.
  intros Hdo Hfo Hdn Hfn name. unfold main_report.
  rewrite main_files_two_files by done. fold name. cbv zeta. split; [done|].
  cbn [snd mbind result_bind]. rewrite get_report_loops, cd_single. cbv zeta.
  change (([] : list string, [name], ([] : list string)).1.1) with ([] : list string).
  change (([] : list string, [name], ([] : list string)).1.2) with [name].
  change (([] : list string, [name], ([] : list string)).2) with ([] : list string).
  change (dict_loop KStr (file_added_step [(name, new)]) [] [])
    with (Ok ([] : dict key pyval)).
  cbn [mbind result_bind].
  change (dict_loop KStr (file_deleted_step [(name, old)]) [] [])
    with (Ok ([] : dict key pyval)).
  cbn [mbind result_bind]. rewrite dict_loop_cons. unfold file_same_step, dict_index.
  simpl dict_get. rewrite !decide_True by done. cbn [mbind result_bind].
  destruct (compare_dbc (Some old) (Some new)) as [[dr vs]|e]; [|done].
  cbn [mbind result_bind fst snd].
  destruct (pydict_index vs (KStr "same_version")) as [sv|e]; [|done].
  cbn [mbind result_bind].
  destruct (Nat.ltb 0 (length dr) || negb (py_truthy sv)); [done|].
  by destruct unchanged.
Qed.

(** A folder against a single file: the file is compared with the old file
    of its own base name only, and every other file of the old folder that
    bears the extension is reported as deleted. *)
Theorem folder_against_file fs old new unchanged report :
  isdir fs old = true -> isdir fs new = false -> isfile fs new = true ->
  (main_report fs old new unchanged).2 = Ok report ->
  forall file old_path,
    dict_get (enum_files fs old ".dbc").1 file = Some old_path ->
    file ≠ basename new ->
    exists dr vs,
      compare_dbc (Some old_path) None = Ok (dr, vs)
      /\ wrapped "deleted" dr vs (dict_get report (KStr file)).
Proof.
  intros Hdo Hdn Hfn. unfold main_report, main_files. rewrite Hdo, Hdn, Hfn.
  destruct (enum_files fs old ".dbc") as [old_files log]. cbn [fst snd mbind result_bind].
  intros (r1 & r2 & H1 & H2 & H3)%get_report_inv file old_path Hget Hne.
  pose proof (cd_NoDup_ads old_files [(basename new, new)]) as Hnd. cbv zeta in Hnd.
  destruct (three_loops_second _ _ _ _ _ _ _ _ _ H1 H2 H3 Hnd file) as (o & Ho' & ->).
  { apply elem_of_cd_deleted. split.
    - apply dict_get_is_Some. eauto.
    - simpl. set_solver. }
  unfold file_deleted_step in Ho'.
  apply bind_Ok in Ho' as (path & Hp%dict_index_Ok & Hq).
  apply bind_Ok in Hq as ([dr vs] & Hd & [= <-]).
  assert (path = old_path) as -> by congruence.
  exists dr, vs. split; [done|].
  apply compare_dbc_inv in Hd as (? & ? & ? & ? & ? & ? & _ & _ & _ & _ & _ & ->).
  apply wrapped_union. set_solver.
Qed.

End Engine.


(* ================================================================== *)
(** * Runs on the sample catalogs *)

(** The identifier 100 against 100 and against 101. *)
Lemma frame_id_hex_delta_witness :
  (exists r, compare_properties sample_repr (sample_loaded 100) (sample_loaded 100)
               message_properties = Ok r
             /\ deltas_named "frame_id" r = [])
  /\ (exists r, compare_properties sample_repr (sample_loaded 100) (sample_loaded 101)
                  message_properties = Ok r
                /\ deltas_named "frame_id" r
                   = [delta "frame_id" (VStr "0x64") (VStr "0x65")]).
Proof.
  split.
  - apply (frame_id_hex_delta sample_repr (sample_loaded 100) (sample_loaded 100));
      reflexivity.
  - apply (frame_id_hex_delta sample_repr (sample_loaded 100) (sample_loaded 101));
      reflexivity.
Defined.

(** A choices table against the same content entered in another order and
    with numeric-string keys, and against one with a label changed. *)
Lemma choices_normalization_witness :
  (exists r, compare_properties sample_repr sample_S1 sample_S1_reordered
               signal_properties = Ok r
             /\ deltas_named "choices" r = [])
  /\ (exists s1 s2,
        compare_properties sample_repr sample_S1 sample_S1_relabelled signal_properties
        = Ok [delta "choices" (VDict (pydict_of_items s1)) (VDict (pydict_of_items s2))]
        /\ s1 ≡ₚ [(1, "ON"); (0, "OFF")] /\ s2 ≡ₚ [(1, "RUN"); (0, "OFF")]
        /\ StronglySorted Z.lt s1.*1 /\ StronglySorted Z.lt s2.*1).
Proof.
  split.
  - apply (choices_normalization sample_repr sample_S1 sample_S1_reordered
             sample_choices sample_choices_reordered
             [(1, "ON"); (0, "OFF")] [(0, "OFF"); (1, "ON")]);
      try reflexivity.
    + apply (bool_decide_unpack _). vm_compute. exact I.
    + apply Permutation_swap.
  - assert (Hnd : NoDup ([(1, "ON"); (0, "OFF")] : list (Z * string)).*1).
    { apply (bool_decide_unpack _). vm_compute. exact I. }
    apply (choices_normalization sample_repr sample_S1 sample_S1_relabelled
             sample_choices sample_choices_relabelled
             [(1, "ON"); (0, "OFF")] [(1, "RUN"); (0, "OFF")]
             eq_refl eq_refl eq_refl eq_refl eq_refl Hnd)
      with (i := 0%nat) (k := KInt 1) (v := VStr "ON") (v' := VStr "RUN");
      try reflexivity.
    + intros a Ha. unfold getattr. simpl.
      repeat (case_decide; [done|]). done.
    + discriminate.
Defined.

(** An action that is neither "added" nor "deleted" on a sample message. *)
Lemma unknown_action_witness :
  build_action sample_repr "removed" (sample_loaded 100) message_properties VNone
  = Err CriticalError.
Proof.
  apply (proj1 (unknown_action_fatal_and_unreachable sample_repr sample_load)
           "removed" (sample_loaded 100) sample_S1 VNone);
    [discriminate | discriminate | reflexivity].
Defined.

(** The old sample catalog against itself. *)
Lemma self_diff_witness :
  exists vs,
    compare_dbc sample_repr sample_load (Some "old/a.dbc") (Some "old/a.dbc") = Ok ([], vs)
    /\ dict_get vs (KStr "same_version") = Some (VBool true).
Proof.
  apply (proj1 (self_diff_is_empty sample_repr sample_load)
           "old/a.dbc" "old/a.dbc" sample_catalog (VStr "unknown"));
    reflexivity.
Defined.

(** The old sample catalog against an absent side, both ways. *)
Lemma full_inventory_witness :
  (exists r vs,
      compare_dbc sample_repr sample_load (Some "old/a.dbc") None = Ok (r, vs)
      /\ inventory sample_repr "deleted" sample_catalog r)
  /\ (exists r vs,
        compare_dbc sample_repr sample_load None (Some "old/a.dbc") = Ok (r, vs)
        /\ inventory sample_repr "added" sample_catalog r).
Proof.
  apply (full_inventory_capture sample_repr sample_load "old/a.dbc" sample_catalog
           (VStr "unknown")); reflexivity.
Defined.

(** The two sample folders: every record of the report is tagged. *)
Lemma action_tag_witness :
  exists report,
    get_report sample_repr sample_load sample_old_files sample_new_files true = Ok report
    /\ forallb (tagged_file code_actions) (dict_values report) = true.
Proof.
  destruct (get_report sample_repr sample_load sample_old_files sample_new_files true)
    as [report|e] eqn:E.
  - exists report. split; [reflexivity|].
    apply (proj1 (action_tag_everywhere sample_repr sample_load)
             sample_old_files sample_new_files true report E).
  - vm_compute in E. discriminate E.
Defined.

(** The records of [M1] between the two sample catalogs. *)
Lemma signals_key_witness :
  exists r vs,
    compare_dbc sample_repr sample_load (Some "old/a.dbc") (Some "new/a.dbc") = Ok (r, vs)
    /\ Forall message_record (dict_values r).
Proof.
  destruct (compare_dbc sample_repr sample_load (Some "old/a.dbc") (Some "new/a.dbc"))
    as [[r vs]|e] eqn:E.
  - exists r, vs. split; [reflexivity|].
    apply (proj2 (signals_key_by_level sample_repr sample_load)
             (Some "old/a.dbc") (Some "new/a.dbc") r vs E).
  - vm_compute in E. discriminate E.
Defined.

(** The version metadata between the two sample catalogs: "unknown"
    against "1.0". *)
Lemma version_metadata_witness :
  exists r vs,
    compare_dbc sample_repr sample_load (Some "old/a.dbc") (Some "new/a.dbc") = Ok (r, vs)
    /\ dict_get vs (KStr "same_version") = Some (VBool false)
    /\ dict_get vs (KStr "old_version") = Some (VStr "unknown")
    /\ dict_get vs (KStr "new_version") = Some (VStr "1.0").
Proof.
  destruct (compare_dbc sample_repr sample_load (Some "old/a.dbc") (Some "new/a.dbc"))
    as [[r vs]|e] eqn:E.
  - exists r, vs. split; [reflexivity|].
    destruct (version_metadata sample_repr sample_load _ _ r vs E)
      as (_ & _ & Hs & Ho & Hn & _). by split_and!.
  - vm_compute in E. discriminate E.
Defined.

(** The two sample folders: [gone.dbc] is wrapped "deleted", [fresh.dbc]
    is wrapped "added", [a.dbc] is wrapped "changed". *)
Lemma file_set_report_witness :
  exists report,
    get_report sample_repr sample_load sample_old_files sample_new_files false = Ok report
    /\ (exists old_path dr vs,
          dict_get sample_old_files "gone.dbc" = Some old_path
          /\ compare_dbc sample_repr sample_load (Some old_path) None = Ok (dr, vs)
          /\ wrapped "deleted" dr vs (dict_get report (KStr "gone.dbc")))
    /\ (exists new_path dr vs,
          dict_get sample_new_files "fresh.dbc" = Some new_path
          /\ compare_dbc sample_repr sample_load None (Some new_path) = Ok (dr, vs)
          /\ wrapped "added" dr vs (dict_get report (KStr "fresh.dbc"))).
Proof.
  destruct (get_report sample_repr sample_load sample_old_files sample_new_files false)
    as [report|e] eqn:E.
  - exists report. split; [reflexivity|]. split.
    + apply (file_set_report sample_repr sample_load _ _ _ report E "gone.dbc").
      * apply (bool_decide_unpack _). vm_compute. exact I.
      * apply (bool_decide_unpack _). vm_compute. exact I.
    + apply (file_set_report sample_repr sample_load _ _ _ report E "fresh.dbc").
      * apply (bool_decide_unpack _). vm_compute. exact I.
      * apply (bool_decide_unpack _). vm_compute. exact I.
  - vm_compute in E. discriminate E.
Defined.

(** ** Where the code departs from the wording of the specification *)

(** C3 as stated fails: the records of a catalog diffed against an absent
    new side are tagged "deleted", not "removed". *)
Lemma full_inventory_not_removed :
  ~ exists r vs,
      compare_dbc sample_repr sample_load (Some "old/a.dbc") None = Ok (r, vs)
      /\ inventory sample_repr "removed" sample_catalog r.
Proof.
  intros (r & vs & Hc & Hinv). vm_compute in Hc. injection Hc as <- _.
  specialize (Hinv "M1"). simpl in Hinv.
  destruct Hinv as (record & nested & Hget & [Hact _] & _).
  vm_compute in Hget. injection Hget as <-. vm_compute in Hact. discriminate Hact.
Qed.

(** C4 as stated fails: a report holds records whose tag is "deleted",
    which is not among "added", "removed", "changed", "unchanged". *)
Lemma action_tag_not_in_spec_set :
  exists report,
    get_report sample_repr sample_load sample_old_files sample_new_files true = Ok report
    /\ forallb (tagged_file spec_actions) (dict_values report) = false.
Proof. eexists. split; vm_compute; reflexivity. Qed.

(** C2 as stated fails: a catalog that can be normalised and is
    well-formed, but has a NaN for the scale of a signal, shows a changed
    message when it is diffed against itself, since a NaN differs from
    itself. *)
Lemma self_diff_with_nan_not_empty :
  exists catalog v r vs,
    dbc_loader sample_load_nan (Some "nan.dbc") = Ok (catalog, v)
    /\ catalog_ok sample_repr catalog = true /\ catalog_wf catalog = true
    /\ compare_dbc sample_repr sample_load_nan (Some "nan.dbc") (Some "nan.dbc")
        = Ok (r, vs)
    /\ is_Some (dict_get r (KStr "M1")).
Proof. eexists _, _, _, _. split_and!; [vm_compute; reflexivity..|]. vm_compute. eauto. Qed.

(** C7 as stated fails.  With the keys "1" and "01", which both read as
    the integer 1, the label of the first is overwritten by the label of
    the second: changing it yields no delta at all.  And with a NaN for the
    scale, changing one label yields two deltas, one of them for the
    scale. *)
Lemma choices_label_change_not_one_delta :
  (exists i k v v',
      sample_choices_clash !! i = Some (k, v)
      /\ sample_choices_clash_relabelled = <[i := (k, v')]> sample_choices_clash
      /\ py_str sample_repr v ≠ py_str sample_repr v'
      /\ compare_properties sample_repr sample_S1_clash sample_S1_clash_relabelled
           signal_properties = Ok [])
  /\ (exists i k v v' r,
        sample_choices !! i = Some (k, v)
        /\ sample_choices_relabelled = <[i := (k, v')]> sample_choices
        /\ py_str sample_repr v ≠ py_str sample_repr v'
        /\ compare_properties sample_repr (sample_S1_nan sample_choices)
             (sample_S1_nan sample_choices_relabelled) signal_properties = Ok r
        /\ length r = 2%nat).
Proof.
  split.
  - exists 0%nat, (KStr "1"), (VStr "a"), (VStr "x").
    split_and!; [reflexivity | reflexivity | discriminate | vm_compute; reflexivity].
  - exists 0%nat, (KInt 1), (VStr "ON"), (VStr "RUN"). eexists.
    split_and!; [reflexivity | reflexivity | discriminate | vm_compute; reflexivity
                | reflexivity].
Qed.

(** C5 as stated fails: with the old side absent and a new catalog that has
    no version, both sides read "unknown" in the wording of the
    specification, yet [same_version] is false. *)
Lemma same_version_absent_side :
  exists r vs,
    compare_dbc sample_repr sample_load None (Some "old/a.dbc") = Ok (r, vs)
    /\ dict_get vs (KStr "same_version") = Some (VBool false)
    /\ String.eqb (spec_side_version (side sample_load None))
                  (spec_side_version (side sample_load (Some "old/a.dbc"))) = true.
Proof. eexists _, _. split_and!; vm_compute; reflexivity. Qed.

(** C6 as stated fails: a file of the old collection only is wrapped
    "deleted", not "removed". *)
Lemma file_only_in_old_not_removed :
  exists report dr vs,
    get_report sample_repr sample_load sample_old_files sample_new_files false = Ok report
    /\ compare_dbc sample_repr sample_load (Some "old/a.dbc") None = Ok (dr, vs)
    /\ ~ wrapped "removed" dr vs (dict_get report (KStr "gone.dbc")).
Proof.
  eexists _, _, _. split_and!; [vm_compute; reflexivity..|].
  intros (record & Hr & Hact & _). vm_compute in Hr. injection Hr as <-.
  vm_compute in Hact. discriminate Hact.
Qed.

(** ** Further runs *)

Example hex_runs : hex 255 = "0xff" /\ hex (-255) = "-0xff" /\ hex 0 = "0x0".
Proof. by split_and!. Qed.

Example int_of_string_runs :
  int_of_string " 42 " = Ok 42 /\ int_of_string "-1_000" = Ok (-1000)
  /\ int_of_string "1__0" = Err ValueError /\ int_of_string "" = Err ValueError
  /\ int_of_string "0x10" = Err ValueError /\ int_of_string "- 1" = Err ValueError.
Proof. by split_and!. Qed.

(** Senders [A, B] against [B, A]: the joined strings differ. *)
(** Equality on floats: a NaN differs from itself, the integer 1 is the
    float 1.0, the two zeros are equal, and 2^53 + 1 is no float. *)
Example float_equality_runs :
  py_eqb (VFloat SpecFloat.S754_nan) (VFloat SpecFloat.S754_nan) = false
  /\ py_eqb (VInt 1) (VFloat (SpecFloat.S754_finite false 4503599627370496 (-52))) = true
  /\ py_eqb (VFloat (SpecFloat.S754_zero true)) (VFloat (SpecFloat.S754_zero false)) = true
  /\ py_eqb (VInt 9007199254740993)
            (VFloat (SpecFloat.S754_finite false 4503599627370496 1)) = false
  /\ py_eqb (VList [VFloat SpecFloat.S754_nan]) (VList [VFloat SpecFloat.S754_nan]) = false.
Proof. split_and!; reflexivity. Qed.

Example senders_order_run :
  property_delta sample_repr
    {| message := sample_message 100 []; msg_signals := [] |}
    {| message :=
         {| message_name := "M1";
            message_attrs := [("senders", VList [VStr "B"; VStr "A"])];
            signals := [] |};
       msg_signals := [] |}
    ("senders", "list")
  = Ok (Some (delta "senders" (VStr "A,B") (VStr "B,A"))).
Proof. reflexivity. Qed.

(** Old catalog: [M1] with [S1]; new catalog: [M1] with [S1] modified and
    [S2] added.  The report has one entry, [M1] changed, whose signal map
    marks [S1] changed and [S2] added. *)
Example end_to_end_run :
  exists r vs deltas s1 s2,
    compare_dbc sample_repr sample_load (Some "old/a.dbc") (Some "new/a.dbc") = Ok (r, vs)
    /\ r = [(KStr "M1",
             VDict [(KStr "action", VStr "changed");
                    (KStr "changed", VList deltas);
                    (KStr "signals",
                     VDict [(KStr "S1", VDict [(KStr "action", VStr "changed");
                                               (KStr "changed", VList s1)]);
                            (KStr "S2", VDict [(KStr "action", VStr "added");
                                               (KStr "added", VList s2)])])])]
    /\ deltas = [delta "frame_id" (VStr "0x64") (VStr "0x65")]
    /\ length s1 = 1%nat /\ length s2 = 11%nat.
Proof. eexists _, _, _, _, _. split_and!; vm_compute; reflexivity. Qed.

(** ** Runs for the further properties *)

(** The catalog loaded from the old sample file. *)
Lemma dbc_loader_last_wins_witness :
  NoDup (dict_keys sample_catalog)
  /\ exists loaded,
       dict_get sample_catalog "M1" = Some loaded
       /\ message loaded = sample_message 100 [sample_S1].
Proof.
  destruct (dbc_loader_last_wins sample_load "old/a.dbc" sample_db_old sample_catalog
              (VStr "unknown") eq_refl eq_refl) as (_ & _ & Hnd & Hm).
  split; [exact Hnd|].
  destruct (Hm "M1") as (loaded & Hget & Hmsg & _). by exists loaded.
Defined.

(** The deltas between the sample messages 100 and 101. *)
Lemma compare_properties_deltas_witness :
  exists r,
    compare_properties sample_repr (sample_loaded 100) (sample_loaded 101)
      message_properties = Ok r
    /\ omap delta_name r `sublist_of` dict_keys message_properties
    /\ length (omap delta_name r) = length r.
Proof.
  destruct (compare_properties sample_repr (sample_loaded 100) (sample_loaded 101)
              message_properties) as [r|e] eqn:E.
  - exists r. split; [reflexivity|].
    destruct (compare_properties_deltas sample_repr _ _ _ r E) as (_ & Hs & Hl & _).
    by split.
  - vm_compute in E. discriminate E.
Defined.

Lemma frame_id_delta_iff_witness :
  exists r,
    compare_properties sample_repr (sample_loaded 100) (sample_loaded 101)
      message_properties = Ok r
    /\ deltas_named "frame_id" r = [delta "frame_id" (VStr (hex 100)) (VStr (hex 101))].
Proof.
  exact (frame_id_delta_iff sample_repr (sample_loaded 100) (sample_loaded 101) 100 101
           eq_refl eq_refl eq_refl eq_refl).
Defined.

(** The senders of the sample messages are the same list. *)
Lemma list_attribute_delta_witness :
  exists r,
    compare_properties sample_repr (sample_loaded 100) (sample_loaded 101)
      message_properties = Ok r
    /\ deltas_named "senders" r = [].
Proof.
  assert (Hnd : NoDup (dict_keys message_properties)).
  { apply (bool_decide_unpack _). vm_compute. exact I. }
  assert (Hin : ("senders", "list") ∈ message_properties).
  { apply (bool_decide_unpack _). vm_compute. exact I. }
  assert (Hc1 : convertible sample_repr message_properties (sample_loaded 100) = true).
  { vm_compute. reflexivity. }
  assert (Hc2 : convertible sample_repr message_properties (sample_loaded 101) = true).
  { vm_compute. reflexivity. }
  destruct (list_attribute_delta sample_repr (sample_loaded 100) (sample_loaded 101)
              message_properties "senders" ["A"; "B"] ["A"; "B"]
              Hc1 Hc2 Hnd Hin eq_refl eq_refl) as (r & Hr & Hd & _).
  exists r. split; [exact Hr | exact Hd].
Defined.

(** The choices of [S1], normalised, are left as they are. *)
Lemma converter_dict_idempotent_witness :
  converter sample_repr (VDict [(KInt 0, VStr "OFF"); (KInt 1, VStr "ON")]) "dict"
  = Ok (VDict [(KInt 0, VStr "OFF"); (KInt 1, VStr "ON")]).
Proof.
  apply (converter_dict_idempotent sample_repr (VDict sample_choices)). reflexivity.
Defined.

Lemma message_diff_by_signal_witness :
  exists ml sc,
    compare_messages sample_repr (sample_loaded 100) (sample_loaded 101) = Ok (ml, sc)
    /\ compare_properties sample_repr (sample_loaded 100) (sample_loaded 101)
         message_properties = Ok ml
    /\ dict_get sc (KStr "S9") = None.
Proof.
  destruct (compare_messages sample_repr (sample_loaded 100) (sample_loaded 101))
    as [[ml sc]|e] eqn:E.
  - exists ml, sc. split; [reflexivity|].
    destruct (message_diff_by_signal sample_repr _ _ ml sc E) as [Hml Hs].
    split; [exact Hml | exact (Hs "S9")].
  - vm_compute in E. discriminate E.
Defined.

Lemma catalog_diff_by_message_witness :
  exists r vs,
    compare_dbc sample_repr sample_load (Some "old/a.dbc") (Some "old/a.dbc") = Ok (r, vs)
    /\ dict_get r (KStr "M9") = None.
Proof.
  destruct (compare_dbc sample_repr sample_load (Some "old/a.dbc") (Some "old/a.dbc"))
    as [[r vs]|e] eqn:E.
  - exists r, vs. split; [reflexivity|].
    exact (catalog_diff_by_message sample_repr sample_load _ _ r vs
             sample_catalog (VStr "unknown") sample_catalog (VStr "unknown")
             E eq_refl eq_refl "M9").
  - vm_compute in E. discriminate E.
Defined.

(** The two sample folders, with and without the files that did not
    change. *)
Lemma unchanged_flag_only_adds_witness :
  exists report_all report,
    get_report sample_repr sample_load sample_old_files sample_new_files true
    = Ok report_all
    /\ get_report sample_repr sample_load sample_old_files sample_new_files false
       = Ok report.
Proof.
  destruct (get_report sample_repr sample_load sample_old_files sample_new_files true)
    as [report_all|e] eqn:E.
  - exists report_all.
    destruct (unchanged_flag_only_adds sample_repr sample_load _ _ report_all E)
      as (report & Hr & _).
    exists report. split; [reflexivity | exact Hr].
  - vm_compute in E. discriminate E.
Defined.

(** The old sample folder against itself. *)
Lemma identical_collections_witness :
  get_report sample_repr sample_load [("a.dbc", "old/a.dbc")] [("a.dbc", "old/a.dbc")] false
  = Ok [].
Proof.
  apply (identical_collections sample_repr sample_load).
  - reflexivity.
  - intros file old_path new_path Ho Hn. simpl in Ho, Hn.
    destruct (decide ("a.dbc" = file)); [|discriminate Ho].
    injection Ho as <-. injection Hn as <-.
    exists sample_catalog, (VStr "unknown"). split_and!; reflexivity.
Defined.

(** A collection with a file that does not load. *)
Lemma get_report_fails_on_input_only_witness :
  input_error LoadError
  /\ get_report sample_repr sample_load [("x.dbc", "nowhere/x.dbc")] [] false
     = Err LoadError.
Proof.
  assert (E : get_report sample_repr sample_load [("x.dbc", "nowhere/x.dbc")] [] false
              = Err LoadError) by reflexivity.
  split; [|exact E].
  exact (proj1 (get_report_fails_on_input_only sample_repr sample_load _ _ _ _ E)).
Defined.

Lemma report_needs_every_file_witness :
  is_Some (sample_load "new/a.dbc").
Proof.
  destruct (get_report sample_repr sample_load sample_old_files sample_new_files false)
    as [report|e] eqn:E.
  - apply (report_needs_every_file sample_repr sample_load _ _ _ report E "fresh.dbc").
    right. reflexivity.
  - vm_compute in E. discriminate E.
Defined.

(** The sample tree: [a.dbc] is in the folder and in its sub-folder. *)
Lemma enum_files_basename_witness :
  basename "old/sub/a.dbc" = "a.dbc".
Proof.
  apply (enum_files_basename sample_fs "old" ".dbc").
  - intros cp folders files file Hin Hf. simpl in Hin.
    repeat (apply elem_of_cons in Hin as [Hin|Hin];
            [injection Hin as -> -> ->;
             repeat (apply elem_of_cons in Hf as [->|Hf]; [reflexivity|]);
             by apply elem_of_nil in Hf|]).
    by apply elem_of_nil in Hin.
  - reflexivity.
Defined.

(** Two single files of different names. *)
Lemma two_files_one_entry_witness :
  (main_report sample_repr sample_load sample_fs "old/a.dbc" "new/b.dbc" false).1 = [].
Proof.
  apply (two_files_one_entry sample_repr sample_load sample_fs "old/a.dbc" "new/b.dbc"
           false); reflexivity.
Defined.

(** The new sample folder, which holds [a.dbc], against the file [b.dbc]. *)
Lemma folder_against_file_witness :
  exists report dr vs,
    (main_report sample_repr sample_load_all sample_fs "new" "new/b.dbc" false).2
    = Ok report
    /\ compare_dbc sample_repr sample_load_all (Some "new/a.dbc") None = Ok (dr, vs)
    /\ wrapped "deleted" dr vs (dict_get report (KStr "a.dbc")).
Proof.
  assert (Hdo : isdir sample_fs "new" = true) by (vm_compute; reflexivity).
  assert (Hdn : isdir sample_fs "new/b.dbc" = false) by (vm_compute; reflexivity).
  assert (Hfn : isfile sample_fs "new/b.dbc" = true) by (vm_compute; reflexivity).
  assert (Hget : dict_get (enum_files sample_fs "new" ".dbc").1 "a.dbc" = Some "new/a.dbc").
  { vm_compute. reflexivity. }
  assert (Hne : "a.dbc" <> basename "new/b.dbc").
  { vm_compute. discriminate. }
  destruct (main_report sample_repr sample_load_all sample_fs "new" "new/b.dbc" false).2
    as [report|e] eqn:E.
  - exists report.
    destruct (folder_against_file sample_repr sample_load_all sample_fs "new" "new/b.dbc"
                false report Hdo Hdn Hfn E "a.dbc" "new/a.dbc" Hget Hne)
      as (dr & vs & Hc & Hw).
    exists dr, vs. split; [reflexivity|]. split; [exact Hc | exact Hw].
  - vm_compute in E. discriminate E.
Defined.
